(** * Boltz backend: swap parameters, timeout deltas and cooperative signing

    A shallow embedding of
      - [TimeoutDeltaProvider]  (block-time table, minutes to blocks,
        timeouts of submarine swaps with an invoice, CLTV limits, config
        rewriting),
      - [Service]               (amount verification, creation of
        submarine, reverse and chain to chain swaps, initialization of
        the pairs, fee estimation),
      - [MusigSigner]           (eligibility for cooperative refunds and
        claims),
    followed by the properties proved about them.

    Numbers.  A JavaScript [number] is modelled as an exact rational
    ([Q]); [Math.floor] and [Math.ceil] are [Qfloor] and [Qceiling].
    Amounts, block heights and minutes are integers far below 2^53 and
    the block times 10, 2.5 and 1 are dyadic, so sums and products of
    them are exact in IEEE doubles as well.  Where a double rounds, the
    model idealises it: a quotient that is not dyadic, and the block time
    0.2, taken as 1/5 (in doubles [3 * 0.2 / 0.2] is above 3).  [NaN],
    infinities and [undefined] flowing into arithmetic are outside the
    model.  Where that idealisation decides a property, [Double] has the
    function on doubles.

    Effects.  [await]ed calls and [throw] are an error monad, threaded
    with the state a function mutates where it mutates one.  Remote
    procedure calls are fields of the client records: their result for
    each argument is what the remote side answers, [Throw] when the call
    rejects.  Logging is not modelled. *)

From Stdlib Require Import QArith Qround Qminmax Lqa ZArith Lia Ascii.
From Stdlib Require Floats.PrimFloat.
From stdpp Require Import gmap strings list pretty.

(** ** JavaScript numbers *)

Module Js.

Abbreviation number := Q.

Definition Math_floor (x : number) : number := inject_Z (Qfloor x).
Definition Math_ceil (x : number) : number := inject_Z (Qceiling x).

(** [x > y], [x < y] and [x !== y] on numbers. *)
Definition gt (x y : number) : bool := negb (Qle_bool x y).
Definition lt (x y : number) : bool := negb (Qle_bool y x).
Definition neq (x y : number) : bool := negb (Qeq_bool x y).

Definition Math_max (x y : number) : number := if gt y x then y else x.

(** The integer part, rounding toward zero. *)
Definition trunc (x : number) : Z :=
  if Qle_bool 0 x then Qfloor x else Qceiling x.

(** [x % 1]: the remainder has the sign of the dividend. *)
Definition rem1 (x : number) : number := (x - inject_Z (trunc x))%Q.

(** [new Map(entries)]: a later entry overrides an earlier one. *)
Definition Map_of {V} (entries : list (string * V)) : gmap string V :=
  foldl (fun m kv => <[kv.1 := kv.2]> m) ∅ entries.

End Js.

(** ** Enums (consts/Enums) *)

Inductive OrderSide := BUY | SELL.

Inductive SwapType := Submarine | ReverseSubmarine | ChainToChain | Chain.

Inductive SwapVersion := Legacy | Taproot.

(** Modelled from the spec: the enum [SwapUpdateEvent] of consts/Enums is
    not among the sources; these are the statuses the spec enumerates. *)
Inductive SwapUpdateEvent :=
| SwapCreated | TransactionWaiting | TransactionMempool
| TransactionConfirmed | TransactionFailed | InvoicePending | InvoicePaid
| InvoiceFailedToPay | InvoiceSettled | InvoiceExpired | ChannelCreated
| TransactionClaimed | TransactionRefunded | SwapExpired.

#[global] Instance OrderSide_eq_dec : EqDecision OrderSide.
Proof. solve_decision. Defined.
#[global] Instance SwapType_eq_dec : EqDecision SwapType.
Proof. solve_decision. Defined.
#[global] Instance SwapVersion_eq_dec : EqDecision SwapVersion.
Proof. solve_decision. Defined.
#[global] Instance SwapUpdateEvent_eq_dec : EqDecision SwapUpdateEvent.
Proof. solve_decision. Defined.

(** Modelled from the spec: the constant [FailedSwapUpdateEvents] of
    consts/Enums is not among the sources. *)
Definition FailedSwapUpdateEvents : list SwapUpdateEvent :=
  [TransactionFailed; InvoiceFailedToPay; SwapExpired; TransactionRefunded;
   InvoiceExpired].

(** [Array.prototype.includes]. *)
Definition includes `{EqDecision A} (l : list A) (x : A) : bool :=
  bool_decide (x ∈ l).

(** ** Errors and the error monad *)

Inductive Error :=
| NO_TIMEOUT_DELTA (pairId : string)
| PAIR_NOT_FOUND (pairId : string)
| INVALID_TIMEOUT_BLOCK_DELTA
| MIN_EXPIRY_TOO_BIG (maxMinutes routeMinutes : Js.number)
| EXCEED_MAXIMAL_AMOUNT (amount maximal : Js.number)
| BENEATH_MINIMAL_AMOUNT (amount minimal : Js.number)
| ONCHAIN_AMOUNT_TOO_LOW
| REVERSE_SWAPS_DISABLED
| SWAP_WITH_INVOICE_EXISTS
| ORDER_SIDE_NOT_FOUND (side : string)
| CURRENCY_NOT_FOUND (symbol : string)
| SWAP_NOT_FOUND (id : string)
| CURRENCY_NOT_UTXO_BASED
| NOT_ELIGIBLE_FOR_COOPERATIVE_REFUND
| NOT_ELIGIBLE_FOR_COOPERATIVE_CLAIM
| INCORRECT_PREIMAGE
| TypeError
    (** a property read or a call on [undefined] *)
| Rejected (reason : string)
    (** a rejection raised by a collaborator outside these files *).

Inductive Res (A : Type) : Type :=
| Ok (a : A)
| Throw (e : Error).
Arguments Ok {A} a.
Arguments Throw {A} e.

Definition bindR {A B} (r : Res A) (k : A -> Res B) : Res B :=
  match r with
  | Ok a => k a
  | Throw e => Throw e
  end.

(** [x!.f]: the non-null assertion checks nothing; reading a property of
    [undefined] throws. *)
Definition deref {A} (o : option A) : Res A :=
  match o with
  | Some a => Ok a
  | None => Throw TypeError
  end.

#[global] Instance Res_ret : MRet Res := fun _ a => Ok a.
#[global] Instance Res_bind : MBind Res := fun _ _ k r => bindR r k.

(** A computation that also mutates a state of type [S]: what was written
    before a [throw] stays written. *)
Definition M (S A : Type) : Type := S -> Res A * S.

Definition retM {S A} (a : A) : M S A := fun s => (Ok a, s).
Definition throwM {S A} (e : Error) : M S A := fun s => (Throw e, s).
Definition bindM {S A B} (m : M S A) (k : A -> M S B) : M S B :=
  fun s => match m s with
           | (Ok a, s') => k a s'
           | (Throw e, s') => (Throw e, s')
           end.
Definition liftR {S A} (r : Res A) : M S A := fun s => (r, s).
Definition getsM {S A} (f : S -> A) : M S A := fun s => (Ok (f s), s).
Definition modifyM {S} (f : S -> S) : M S unit := fun s => (Ok tt, f s).

#[global] Instance M_ret {S} : MRet (M S) := fun _ a => retM a.
#[global] Instance M_bind {S} : MBind (M S) := fun _ _ k m => bindM m k.

(** ** Clients and currencies

    Modelled from the spec: the client classes, the protobuf messages and
    [Currency] (wallet/WalletManager) are declared outside these files.
    A currency carries an optional UTXO chain client, an optional LND
    client and an optional CLN client; only the calls made here are
    fields. *)

Abbreviation Buffer := (list Byte.byte).

Record BlockchainInfo := { blocks : Js.number }.

Record ChainClient := {
  getBlockchainInfo : Res BlockchainInfo;
}.

Module Lnd.

Record Feature := {
  name : string;
  isKnown : bool;
  isRequired : bool;
}.

Record RouteHint := { hopHints : string }.

Record PayReq := {
  getDestination : string;
  getNumSatoshis : Js.number;
  getCltvExpiry : Js.number;
  getRouteHintsList : list RouteHint;
  featuresMap : list (Js.number * Feature);
}.

Record Route := { totalTimeLock : Js.number }.

Record QueryRoutesResponse := { routesList : list Route }.

Inductive PaymentStatus := UNKNOWN | IN_FLIGHT | SUCCEEDED | FAILED.

#[global] Instance PaymentStatus_eq_dec : EqDecision PaymentStatus.
Proof. solve_decision. Defined.

Record Payment := { status : PaymentStatus }.

Record LndClient := {
  decodePayReqRawResponse : string -> Res PayReq;
  queryRoutes :
    string -> Js.number -> Js.number -> Js.number -> list RouteHint ->
    Res QueryRoutesResponse;
  trackPayment : Buffer -> Res Payment;
}.

End Lnd.

Module Cln.

(** What [checkPayStatus] resolves to: a record of the payment, or
    [undefined]. *)
Record PayStatus := { payStatus : string }.

Record ClnClient := {
  checkPayStatus : string -> Res (option PayStatus);
}.

End Cln.

Record Currency := {
  symbol : string;
  chainClient : option ChainClient;
  lndClient : option Lnd.LndClient;
  clnClient : option Cln.ClnClient;
}.

(** ** The file system ([fs])

    Every operation is also appended to a log, so that how a file came to
    its contents can be told.  [Rename] is here for the statements below;
    none of the functions modelled issues it. *)

Module Fs.

Inductive Op :=
| WriteFile (path data : string)
| Rename (oldPath newPath : string).

Record FileSystem := {
  files : gmap string string;
  log : list Op;
}.

Definition writeFileSync (path data : string) (fs : FileSystem)
  : FileSystem :=
  {| files := <[path := data]> (files fs);
     log := log fs ++ [WriteFile path data] |}.

End Fs.

(** ** Configuration (Config, consts/Types)

    Modelled from the spec: [PairConfig] and [ConfigType] are declared
    outside these files.  An entry of the [pairs] array is
    [{base, quote, rate?, fee, timeoutDelta}]; [timeoutDelta] is a single
    number of minutes (legacy) or a table of three; what else the
    configuration holds is kept as [others]. *)

Module Types.

Record PairTimeoutBlocksDelta := {
  reverse : Js.number;
  swapMinimal : Js.number;
  swapMaximal : Js.number;
}.

Inductive TimeoutDelta :=
| LegacyMinutes (minutes : Js.number)
| DeltaTable (deltas : PairTimeoutBlocksDelta).

Record PairConfig := {
  base : string;
  quote : string;
  rate : option Js.number;
  fee : Js.number;
  timeoutDelta : option TimeoutDelta;
}.

(** The assignment [pair.timeoutDelta = deltas]. *)
Definition setTimeoutDelta (p : PairConfig)
    (deltas : PairTimeoutBlocksDelta) : PairConfig :=
  {| base := base p; quote := quote p; rate := rate p; fee := fee p;
     timeoutDelta := Some (DeltaTable deltas) |}.

Record ConfigType {Others : Type} := {
  configpath : string;
  pairs : list PairConfig;
  others : Others;
}.
Arguments ConfigType : clear implicits.

End Types.

(** ** TimeoutDeltaProvider *)

Module TimeoutDeltaProvider.

Import Js.
Export Types.

Record PairTimeoutBlockDeltas := {
  base : PairTimeoutBlocksDelta;
  quote : PairTimeoutBlocksDelta;
}.

Definition routingOffset : number := 60%Q.
Definition noRoutes : number := (-1)%Q.

(** The fields of the provider and the file system it writes to. *)
Record World {Others : Type} := {
  timeoutDeltas : gmap string PairTimeoutBlockDeltas;
  config : ConfigType Others;
  currencies : gmap string Currency;
  fs : Fs.FileSystem;
}.
Arguments World : clear implicits.

Section Provider.

(** Declared outside these files: [ElementsClient.symbol],
    [LndClient.paymentMaxParts], the helpers of Utils and
    [toml.stringify]. *)
Context (ElementsClient_symbol : string).
Context (paymentMaxParts : number).
Context (getPairId : PairConfig -> string).
Context (splitPairId : string -> string * string).
Context (getChainCurrency getLightningCurrency :
           string -> string -> OrderSide -> bool -> string).
Context {Others : Type} (toml_stringify : ConfigType Others -> string).

(** A map of the symbols of currencies and their block times in
    minutes. *)
Definition blockTimes : gmap string number :=
  Map_of [("BTC", 10); ("LTC", 5 # 2); ("ETH", 1 # 5);
          (ElementsClient_symbol, 1)]%Q.

(** [Map.get(symbol) || Map.get('ETH')!]: [||] also falls through on a
    zero; an absent 'ETH' entry would give [undefined], which
    [blockTimes_ETH] below excludes. *)
Definition getBlockTime (symbol : string) : number :=
  match blockTimes !! symbol with
  | Some t => if Qeq_bool t 0 then default 0%Q (blockTimes !! "ETH") else t
  | None => default 0%Q (blockTimes !! "ETH")
  end.

Definition convertBlocks (fromSymbol toSymbol : string) (blocks : number)
  : number :=
  let minutes := (blocks * getBlockTime fromSymbol)%Q in
  Math_ceil (minutes / getBlockTime toSymbol).

(** *** minutesToBlocks *)

Definition calculateBlocks (symbol : string) (minutes : number)
  : Res number :=
  let minutesPerBlock := getBlockTime symbol in
  let blocks := (minutes / minutesPerBlock)%Q in
  (* Sanity checks to make sure no impossible deltas are set *)
  if neq (rem1 blocks) 0 || lt blocks 1
  then Throw INVALID_TIMEOUT_BLOCK_DELTA
  else Ok blocks.

Definition convertToBlocks (newDeltas : PairTimeoutBlocksDelta)
    (symbol : string) : Res PairTimeoutBlocksDelta :=
  r ← calculateBlocks symbol (reverse newDeltas);
  mn ← calculateBlocks symbol (swapMinimal newDeltas);
  mx ← calculateBlocks symbol (swapMaximal newDeltas);
  mret {| reverse := r; swapMinimal := mn; swapMaximal := mx |}.

Definition minutesToBlocks (pair : string)
    (newDeltas : PairTimeoutBlocksDelta) : Res PairTimeoutBlockDeltas :=
  let '(b, q) := splitPairId pair in
  bd ← convertToBlocks newDeltas b;
  qd ← convertToBlocks newDeltas q;
  mret {| base := bd; quote := qd |}.

(** *** init *)

(** Compatibility mode with legacy config. *)
Definition expandLegacy (d : TimeoutDelta) : PairTimeoutBlocksDelta :=
  match d with
  | LegacyMinutes n =>
      {| reverse := n; swapMaximal := n; swapMinimal := n |}
  | DeltaTable t => t
  end.

Definition setDeltas (pairId : string) (d : PairTimeoutBlockDeltas)
    (w : World Others) : World Others :=
  {| timeoutDeltas := <[pairId := d]> (timeoutDeltas w);
     config := config w;
     currencies := currencies w;
     fs := fs w |}.

(** One turn of the loop of [init].  It returns the entry as the turn
    leaves it: a legacy number is overwritten by its expansion.  The
    array handed to [init] is taken as its own value: what a turn that
    throws has already written into its entry, and whether the entries
    are those of [config.pairs], is not tracked. *)
Definition initPair (pair : PairConfig) : M (World Others) PairConfig :=
  let pairId := getPairId pair in
  match Types.timeoutDelta pair with
  | Some d =>
      let t := expandLegacy d in
      blocks ← liftR (minutesToBlocks pairId t);
      _ ← modifyM (setDeltas pairId blocks);
      mret (setTimeoutDelta pair t)
  | None => throwM (NO_TIMEOUT_DELTA pairId)
  end.

Fixpoint init (pairs : list PairConfig)
  : M (World Others) (list PairConfig) :=
  match pairs with
  | [] => mret []
  | p :: rest =>
      p' ← initPair p;
      rest' ← init rest;
      mret (p' :: rest')
  end.

(** *** setTimeout *)

(** The loop over [config.pairs]: the first entry of that id gets the
    new deltas, then [break]. *)
Fixpoint setPairTimeout (pairId : string)
    (newDeltas : PairTimeoutBlocksDelta) (ps : list PairConfig)
  : list PairConfig :=
  match ps with
  | [] => []
  | p :: rest =>
      if String.eqb (getPairId p) pairId
      then setTimeoutDelta p newDeltas :: rest
      else p :: setPairTimeout pairId newDeltas rest
  end.

Definition setConfigTimeout (pairId : string)
    (newDeltas : PairTimeoutBlocksDelta) (c : ConfigType Others)
  : ConfigType Others :=
  {| configpath := configpath c;
     pairs := setPairTimeout pairId newDeltas (pairs c);
     others := others c |}.

Definition setTimeout (pairId : string)
    (newDeltas : PairTimeoutBlocksDelta) : M (World Others) unit :=
  has ← getsM (fun w => bool_decide (is_Some (timeoutDeltas w !! pairId)));
  if has : bool then
    blocks ← liftR (minutesToBlocks pairId newDeltas);
    _ ← modifyM (setDeltas pairId blocks);
    _ ← modifyM (fun w =>
           {| timeoutDeltas := timeoutDeltas w;
              config := setConfigTimeout pairId newDeltas (config w);
              currencies := currencies w;
              fs := fs w |});
    (* Write the new config to the disk *)
    modifyM (fun w =>
      let newConfig := toml_stringify (config w) in
      {| timeoutDeltas := timeoutDeltas w;
         config := config w;
         currencies := currencies w;
         fs := Fs.writeFileSync (configpath (config w)) newConfig (fs w) |})
  else throwM (PAIR_NOT_FOUND pairId).

(** *** checkRoutability *)

Definition supportsMpp (decodedInvoice : Lnd.PayReq) : bool :=
  existsb (fun val : bool => val)
    (map (fun '(_, feature) =>
            String.eqb (Lnd.name feature) "multi-path-payments"
            && (Lnd.isKnown feature || Lnd.isRequired feature))
         (Lnd.featuresMap decodedInvoice)).

(** Every error of the body, the rejection of [queryRoutes] among
    them, is caught and answered by [noRoutes]. *)
Definition checkRoutability (lnd : Lnd.LndClient)
    (decodedInvoice : Lnd.PayReq) (cltvLimit : number) : number :=
  let amountToQuery :=
    Math_max
      (if supportsMpp decodedInvoice
       then Math_ceil (Lnd.getNumSatoshis decodedInvoice / paymentMaxParts)
       else Lnd.getNumSatoshis decodedInvoice)
      1 in
  match Lnd.queryRoutes lnd (Lnd.getDestination decodedInvoice)
          amountToQuery cltvLimit (Lnd.getCltvExpiry decodedInvoice)
          (Lnd.getRouteHintsList decodedInvoice) with
  | Ok routes =>
      foldl (fun highest r =>
               if gt highest (Lnd.totalTimeLock r)
               then highest else Lnd.totalTimeLock r)
            noRoutes (Lnd.routesList routes)
  | Throw _ => noRoutes
  end.

(** *** getTimeoutInvoice *)

Definition getTimeoutInvoice (currs : gmap string Currency)
    (chainCurrency lightningCurrency : string)
    (chainTimeout lightningTimeout : PairTimeoutBlocksDelta)
    (invoice : string) : Res (number * bool) :=
  cur ← deref (currs !! lightningCurrency);
  lnd ← deref (lndClient cur);
  decodedInvoice ← Lnd.decodePayReqRawResponse lnd invoice;
  (* Promise.all *)
  let routeTimeLock :=
    checkRoutability lnd decodedInvoice (swapMaximal lightningTimeout) in
  chain ← deref (chainClient cur);
  chainInfo ← getBlockchainInfo chain;
  if Qeq_bool routeTimeLock noRoutes
  then Ok (swapMaximal chainTimeout, false)
  else
    let routeDeltaRelative := (routeTimeLock - blocks chainInfo)%Q in
    (* Add some buffer to make sure we have enough limit when the
       transaction confirms *)
    let routeDeltaMinutes :=
      Math_ceil (routeDeltaRelative * getBlockTime lightningCurrency) in
    let finalExpiry := (routeDeltaMinutes + routingOffset)%Q in
    let minTimeout :=
      Math_ceil (finalExpiry / getBlockTime chainCurrency) in
    if gt minTimeout (swapMaximal chainTimeout)
    then Throw (MIN_EXPIRY_TOO_BIG
                  (Math_ceil (swapMaximal chainTimeout
                              * getBlockTime chainCurrency))
                  routeDeltaMinutes)
    else
      let cltv := Math_max (swapMinimal chainTimeout) minTimeout in
      Ok (cltv, true).

(** *** getTimeout *)

(** A string used as a condition: [undefined] and the empty string are
    falsy. *)
Definition truthy (s : option string) : bool :=
  match s with
  | Some s => negb (String.eqb s "")
  | None => false
  end.

Definition getTimeout (w : World Others) (pairId : string)
    (orderSide : OrderSide) (isReverse : bool) (invoice : option string)
  : Res (number * bool) :=
  match timeoutDeltas w !! pairId with
  | None => Throw (PAIR_NOT_FOUND pairId)
  | Some timeouts =>
      if isReverse then
        Ok (if decide (orderSide = BUY)
            then reverse (base timeouts)
            else reverse (quote timeouts),
            false)
      else
        let '(b, q) := splitPairId pairId in
        let chain := getChainCurrency b q orderSide false in
        let lightning := getLightningCurrency b q orderSide false in
        let chainDeltas :=
          if decide (orderSide = BUY) then quote timeouts
          else base timeouts in
        let lightningDeltas :=
          if decide (orderSide = BUY) then base timeouts
          else quote timeouts in
        if truthy invoice
        then getTimeoutInvoice (currencies w) chain lightning chainDeltas
               lightningDeltas (default "" invoice)
        else Ok (swapMinimal chainDeltas, true)
  end.

End Provider.

(** *** getCltvLimit *)

(** The model [Swap] is declared outside these files; these are the
    fields that [getCltvLimit] reads of it. *)
Module Swap.
Record t := {
  pair : string;
  orderSide : OrderSide;
  timeoutBlockHeight : number;
}.
End Swap.

Section CltvLimit.

(** Declared outside these files: [ElementsClient.symbol], the helpers of
    Utils, and the provider of the Ethereum manager, whose
    [getBlockNumber] is asked when the chain currency has no chain
    client. *)
Context (ElementsClient_symbol : string).
Context (splitPairId : string -> string * string).
Context (getChainCurrency getLightningCurrency :
           string -> string -> OrderSide -> bool -> string).
Context (provider_getBlockNumber : Res number).

Definition getCltvLimit (currs : gmap string Currency) (swap : Swap.t)
  : Res number :=
  let '(b, q) := splitPairId (Swap.pair swap) in
  chainCurrency ←
    deref (currs !! getChainCurrency b q (Swap.orderSide swap) false);
  currentBlock ←
    match chainClient chainCurrency with
    | Some client => info ← getBlockchainInfo client; mret (blocks info)
    | None => provider_getBlockNumber
    end;
  let blockLeft :=
    convertBlocks ElementsClient_symbol (symbol chainCurrency)
      (getLightningCurrency b q (Swap.orderSide swap) false)
      (Swap.timeoutBlockHeight swap - currentBlock)%Q in
  mret (Math_floor (blockLeft - 2)).

End CltvLimit.

End TimeoutDeltaProvider.

(** ** Block conversion in double precision

    A JavaScript [number] is an IEEE 754 double.  The block time 0.2 is
    none: the table holds the double nearest to it, and the product and
    the quotient of [convertBlocks] round.  These are the block times and
    [convertBlocks] on doubles. *)

Module Double.

Import PrimFloat.
Local Open Scope float_scope.

Abbreviation number := float.

(** 2^52: from there on every double is a whole number. *)
Definition two52 : number := 4503599627370496.

(** [Math.ceil] of a number that is not [NaN].  Below 2^52, adding and
    taking away 2^52 rounds to a whole number, the neighbour below or
    above; when it is the one below, the ceiling is one more. *)
Definition Math_ceil (x : number) : number :=
  if PrimFloat.leb two52 (PrimFloat.abs x) then x
  else
    let r :=
      if PrimFloat.leb 0 x then (x + two52) - two52
      else (x - two52) + two52 in
    if PrimFloat.ltb r x then r + 1 else r.

Section Provider.

Context (ElementsClient_symbol : string).

(** A map of the symbols of currencies and their block times in
    minutes; [0x1.999999999999ap-3] is the double that [0.2] denotes. *)
Definition blockTimes : gmap string number :=
  Js.Map_of [("BTC"%string, 10); ("LTC"%string, 2.5);
             ("ETH"%string, 0x1.999999999999ap-3);
             (ElementsClient_symbol, 1)].

Definition getBlockTime (symbol : string) : number :=
  match blockTimes !! symbol with
  | Some t =>
      if PrimFloat.eqb t 0 then default 0 (blockTimes !! "ETH"%string) else t
  | None => default 0 (blockTimes !! "ETH"%string)
  end.

Definition convertBlocks (fromSymbol toSymbol : string) (blocks : number)
  : number :=
  let minutes := blocks * getBlockTime fromSymbol in
  Math_ceil (minutes / getBlockTime toSymbol).

End Provider.

End Double.

(** ** Service *)

Module OutputType.
Inductive t := Bech32 | Compatibility | Legacy.
End OutputType.

Module Service.

Import Js.

(** Modelled from the spec: the pairs of the rate provider ("pair
    metadata (rate, limits, zero-conf policy)") and the fees of the fee
    provider are declared outside these files. *)
Record Limits := {
  minimal : number;
  maximal : number;
}.

Record PairType := {
  rate : number;
  limits : option Limits;
}.

Record Fees := {
  baseFee : number;
  percentageFee : number;
}.

Record Wallet := { supportsSegwit : bool }.

(** The arguments [swapManager.createSwap] is called with, and what it
    resolves to. *)
Record CreateSwapArgs := {
  cs_id : string;
  cs_base : string;
  cs_quote : string;
  cs_side : OrderSide;
  cs_invoice : string;
  cs_expectedAmount : number;
  cs_refundPublicKey : Buffer;
  cs_outputType : OutputType.t;
  cs_timeoutBlockDelta : number;
  cs_acceptZeroConf : bool;
}.

Record SwapDetails := {
  sd_address : string;
  sd_keyIndex : number;
  sd_redeemScript : string;
  sd_timeoutBlockHeight : number;
}.

(** The arguments [swapManager.createReverseSwap] is called with, and
    what it resolves to. *)
Record CreateReverseSwapArgs := {
  cr_base : string;
  cr_quote : string;
  cr_side : OrderSide;
  cr_invoiceAmount : number;
  cr_onchainAmount : number;
  cr_claimPublicKey : Buffer;
  cr_outputType : OutputType.t;
  cr_timeoutBlockDelta : number;
}.

Record ReverseSwapDetails := {
  rd_invoice : string;
  rd_minerFee : number;
  rd_keyIndex : number;
  rd_redeemScript : string;
  rd_lockupTransaction : string;
  rd_timeoutBlockHeight : number;
  rd_lockupTransactionId : string;
}.

Inductive ManagerCall :=
| CreateSwapCall (args : CreateSwapArgs)
| CreateReverseSwapCall (args : CreateReverseSwapArgs).

(** Modelled from the spec: the rows of the two repositories are
    declared outside these files.  The columns are those of the spec's
    data model; a column that the object handed to [addSwap] or
    [addReverseSwap] does not carry is [None]. *)
Record SwapRow := {
  id : string;
  pair : string;
  orderSide : OrderSide;
  status : option SwapUpdateEvent;
  fee : number;
  invoice : string;
  invoiceAmount : option number;
  expectedAmount : option number;
  acceptZeroConf : bool;
  lockupAddress : string;
  redeemScript : string;
  keyIndex : number;
  timeoutBlockHeight : number;
}.

Record ReverseSwapRow := {
  r_id : string;
  r_pair : string;
  r_orderSide : OrderSide;
  r_status : option SwapUpdateEvent;
  r_fee : number;
  r_invoice : string;
  r_onchainAmount : number;
  r_minerFee : number;
  r_redeemScript : string;
  r_keyIndex : number;
  r_transactionId : string;
  r_timeoutBlockHeight : number;
}.

(** What [createSwap] and [createReverseSwap] return. *)
Record CreatedSwap := {
  c_id : string;
  c_address : string;
  c_redeemScript : string;
  c_acceptZeroConf : bool;
  c_expectedAmount : number;
  c_timeoutBlockHeight : number;
  c_bip21 : string;
}.

Record CreatedReverseSwap := {
  v_id : string;
  v_invoice : string;
  v_redeemScript : string;
  v_onchainAmount : number;
  v_lockupTransaction : string;
  v_timeoutBlockHeight : number;
  v_lockupTransactionId : string;
}.

(** The fields of the service that its functions write, the two
    repositories, the calls made to the swap manager so far, and how
    many ids were drawn. *)
Record World := {
  allowReverseSwaps : bool;
  swapRepository : list SwapRow;
  reverseSwapRepository : list ReverseSwapRow;
  managerCalls : list ManagerCall;
  idsDrawn : nat;
}.

Definition lowerAscii (c : ascii) : ascii :=
  let n := nat_of_ascii c in
  if ((65 <=? n) && (n <=? 90))%nat then ascii_of_nat (n + 32) else c.

(** [String.prototype.toLowerCase], on ASCII. *)
Fixpoint toLowerCase (s : string) : string :=
  match s with
  | EmptyString => EmptyString
  | String c rest => String (lowerAscii c) (toLowerCase rest)
  end.

Section Service.

(** Declared outside these files: the helpers of Utils and of
    PaymentRequestUtils, the pairs of the rate provider and its
    zero-conf policy, the fee provider, the timeout-delta provider of
    the service, the wallets, the swap manager and the source of
    ids. *)
Context (splitPairId : string -> string * string).
Context (getChainCurrency getLightningCurrency :
           string -> string -> OrderSide -> bool -> string).
Context (getInvoiceAmt : string -> Res number).
Context (getRate : number -> OrderSide -> SwapType -> number).
Context (getSwapMemo : string -> SwapType -> string).
Context (encodeBip21 : string -> string -> number -> string -> string).
Context (pairs : gmap string PairType).
Context (rateProvider_acceptZeroConf : string -> number -> bool).
Context (feeProvider_getFees :
           string -> number -> OrderSide -> number -> SwapType -> Res Fees).
Context (timeoutDeltaProvider_getTimeout :
           string -> OrderSide -> SwapType -> Res number).
Context (wallets : gmap string Wallet).
Context (swapManager_createSwap : CreateSwapArgs -> Res SwapDetails).
Context (swapManager_createReverseSwap :
           CreateReverseSwapArgs -> Res ReverseSwapDetails).
Context (idSource : nat -> string).

Definition generateId : M World string :=
  fun w =>
    (Ok (idSource (idsDrawn w)),
     {| allowReverseSwaps := allowReverseSwaps w;
        swapRepository := swapRepository w;
        reverseSwapRepository := reverseSwapRepository w;
        managerCalls := managerCalls w;
        idsDrawn := S (idsDrawn w) |}).

Definition callManager {A} (call : ManagerCall) (answer : Res A)
  : M World A :=
  fun w =>
    (answer,
     {| allowReverseSwaps := allowReverseSwaps w;
        swapRepository := swapRepository w;
        reverseSwapRepository := reverseSwapRepository w;
        managerCalls := managerCalls w ++ [call];
        idsDrawn := idsDrawn w |}).

Definition getSwapByInvoice (inv : string) (w : World) : option SwapRow :=
  find (fun row => String.eqb (invoice row) inv) (swapRepository w).

Definition addSwap (row : SwapRow) : M World unit :=
  modifyM (fun w =>
    {| allowReverseSwaps := allowReverseSwaps w;
       swapRepository := swapRepository w ++ [row];
       reverseSwapRepository := reverseSwapRepository w;
       managerCalls := managerCalls w;
       idsDrawn := idsDrawn w |}).

Definition addReverseSwap (row : ReverseSwapRow) : M World unit :=
  modifyM (fun w =>
    {| allowReverseSwaps := allowReverseSwaps w;
       swapRepository := swapRepository w;
       reverseSwapRepository := reverseSwapRepository w ++ [row];
       managerCalls := managerCalls w;
       idsDrawn := idsDrawn w |}).

Definition getPair (pairId : string) : Res (string * string * PairType) :=
  let '(base, quote) := splitPairId pairId in
  match pairs !! pairId with
  | None => Throw (PAIR_NOT_FOUND pairId)
  | Some p => Ok (base, quote, p)
  end.

Definition getOrderSide (side : string) : Res OrderSide :=
  let lower := toLowerCase side in
  if String.eqb lower "buy" then Ok BUY
  else if String.eqb lower "sell" then Ok SELL
  else Throw (ORDER_SIDE_NOT_FOUND side).

Definition getSwapOutputType (chainCurrency : string) (isReverse : bool)
  : Res OutputType.t :=
  match wallets !! chainCurrency with
  | None => Throw (CURRENCY_NOT_FOUND chainCurrency)
  | Some wallet =>
      if negb (supportsSegwit wallet) then Ok OutputType.Legacy
      else Ok (if isReverse then OutputType.Bech32
               else OutputType.Compatibility)
  end.

(** Whether [verifyAmount] converts the amount with the rate. *)
Definition converts (orderSide : OrderSide) (type : SwapType) : bool :=
  let isReverse := bool_decide (type = ReverseSubmarine) in
  (negb isReverse && bool_decide (orderSide = BUY))
  || (isReverse && bool_decide (orderSide = SELL)).

(** The amount [verifyAmount] compares with the limits. *)
Definition normalize (rate amount : number) (orderSide : OrderSide)
    (type : SwapType) : number :=
  if converts orderSide type then Math_floor (amount * rate) else amount.

(** Verifies that the requested amount is neither above the maximal
    nor beneath the minimal. *)
Definition verifyAmount (pairId : string) (rate amount : number)
    (orderSide : OrderSide) (type : SwapType) : Res unit :=
  let amount := normalize rate amount orderSide type in
  '(_, _, p) ← getPair pairId;
  match limits p with
  | Some limits =>
      if gt (Math_floor amount) (maximal limits)
      then Throw (EXCEED_MAXIMAL_AMOUNT amount (maximal limits))
      else if lt (Math_ceil amount) (minimal limits)
      then Throw (BENEATH_MINIMAL_AMOUNT amount (minimal limits))
      else Ok tt
  | None => Throw (PAIR_NOT_FOUND pairId)
  end.

(** Creates a new Swap from the chain to Lightning. *)
Definition createSwap (pairId orderSide inv : string)
    (refundPublicKey : Buffer) : M World CreatedSwap :=
  swap ← getsM (getSwapByInvoice inv);
  if swap is Some _ then throwM SWAP_WITH_INVOICE_EXISTS else
  '(base, quote, p) ← liftR (getPair pairId);
  side ← liftR (getOrderSide orderSide);
  let chainCurrency := getChainCurrency base quote side false in
  let lightningCurrency := getLightningCurrency base quote side false in
  timeoutBlockDelta ←
    liftR (timeoutDeltaProvider_getTimeout pairId side Submarine);
  invoiceAmount ← liftR (getInvoiceAmt inv);
  let rate := getRate (rate p) side Submarine in
  _ ← liftR (verifyAmount pairId rate invoiceAmount side Submarine);
  fees ← liftR (feeProvider_getFees pairId rate side invoiceAmount
                  Submarine);
  let expectedAmount :=
    (Math_ceil (invoiceAmount * rate) + baseFee fees
     + percentageFee fees)%Q in
  id ← generateId;
  let acceptZeroConf :=
    rateProvider_acceptZeroConf chainCurrency expectedAmount in
  outputType ← liftR (getSwapOutputType chainCurrency false);
  let args :=
    {| cs_id := id; cs_base := base; cs_quote := quote; cs_side := side;
       cs_invoice := inv; cs_expectedAmount := expectedAmount;
       cs_refundPublicKey := refundPublicKey;
       cs_outputType := outputType;
       cs_timeoutBlockDelta := timeoutBlockDelta;
       cs_acceptZeroConf := acceptZeroConf |} in
  d ← callManager (CreateSwapCall args) (swapManager_createSwap args);
  _ ← addSwap
        {| id := id; invoice := inv; keyIndex := sd_keyIndex d;
           redeemScript := sd_redeemScript d;
           acceptZeroConf := acceptZeroConf;
           timeoutBlockHeight := sd_timeoutBlockHeight d;
           pair := pairId; orderSide := side;
           fee := percentageFee fees;
           lockupAddress := sd_address d;
           status := None; invoiceAmount := None;
           expectedAmount := None |};
  mret {| c_id := id; c_address := sd_address d;
          c_redeemScript := sd_redeemScript d;
          c_acceptZeroConf := acceptZeroConf;
          c_expectedAmount := expectedAmount;
          c_timeoutBlockHeight := sd_timeoutBlockHeight d;
          c_bip21 :=
            encodeBip21 chainCurrency (sd_address d) expectedAmount
              (getSwapMemo lightningCurrency ChainToChain) |}.

(** Creates a new Swap from Lightning to the chain. *)
Definition createReverseSwap (pairId orderSide : string)
    (invoiceAmount : number) (claimPublicKey : Buffer)
  : M World CreatedReverseSwap :=
  allowed ← getsM allowReverseSwaps;
  if negb allowed then throwM REVERSE_SWAPS_DISABLED else
  '(base, quote, p) ← liftR (getPair pairId);
  side ← liftR (getOrderSide orderSide);
  let rate := getRate (rate p) side ReverseSubmarine in
  timeoutBlockDelta ←
    liftR (timeoutDeltaProvider_getTimeout pairId side ReverseSubmarine);
  _ ← liftR (verifyAmount pairId rate invoiceAmount side ReverseSubmarine);
  fees ← liftR (feeProvider_getFees pairId rate side invoiceAmount
                  ReverseSubmarine);
  let onchainAmount :=
    (Math_floor (invoiceAmount * rate)
     - (baseFee fees + percentageFee fees))%Q in
  if lt onchainAmount 1 then throwM ONCHAIN_AMOUNT_TOO_LOW else
  outputType ←
    liftR (getSwapOutputType (getChainCurrency base quote side true) true);
  let args :=
    {| cr_base := base; cr_quote := quote; cr_side := side;
       cr_invoiceAmount := invoiceAmount;
       cr_onchainAmount := onchainAmount;
       cr_claimPublicKey := claimPublicKey;
       cr_outputType := outputType;
       cr_timeoutBlockDelta := timeoutBlockDelta |} in
  d ← callManager (CreateReverseSwapCall args)
        (swapManager_createReverseSwap args);
  id ← generateId;
  _ ← addReverseSwap
        {| r_id := id; r_invoice := rd_invoice d;
           r_minerFee := rd_minerFee d; r_keyIndex := rd_keyIndex d;
           r_redeemScript := rd_redeemScript d;
           r_onchainAmount := onchainAmount;
           r_timeoutBlockHeight := rd_timeoutBlockHeight d;
           r_pair := pairId; r_orderSide := side;
           r_fee := percentageFee fees;
           r_transactionId := rd_lockupTransactionId d;
           r_status := Some TransactionMempool |};
  mret {| v_id := id; v_invoice := rd_invoice d;
          v_redeemScript := rd_redeemScript d;
          v_onchainAmount := onchainAmount;
          v_lockupTransaction := rd_lockupTransaction d;
          v_timeoutBlockHeight := rd_timeoutBlockHeight d;
          v_lockupTransactionId := rd_lockupTransactionId d |}.

End Service.

(** *** init *)

(** The row [{ id, ...configPair }] that [addPair] is handed. *)
Record PairRow := {
  pr_id : string;
  pr_config : Types.PairConfig;
}.

(** The pairs in the database and the state of the three providers that
    [init] initializes. *)
Record InitWorld {Providers : Type} := {
  pairRepository : list PairRow;
  providers : Providers;
}.
Arguments InitWorld : clear implicits.

Section Init.

(** Declared outside these files: [getPairId] of Utils and the [init] of
    the three providers; [currencies] is a field of the service. *)
Context (getPairId : Types.PairConfig -> string).
Context (currencies : gmap string Currency).
Context {Providers : Type}.
Context (timeoutDeltaProvider_init feeProvider_init rateProvider_init :
           list Types.PairConfig -> M Providers unit).

Definition checkCurrency (symbol : string) : Res unit :=
  if bool_decide (is_Some (currencies !! symbol)) then Ok tt
  else Throw (CURRENCY_NOT_FOUND symbol).

Definition addPair (row : PairRow) : M (InitWorld Providers) unit :=
  modifyM (fun w =>
    {| pairRepository := pairRepository w ++ [row];
       providers := providers w |}).

(** The loop over [configPairs]; [dbPairSet] is the set of ids read
    before it and is not written in it. *)
Fixpoint addConfigPairs (dbPairSet : gset string)
    (configPairs : list Types.PairConfig) : M (InitWorld Providers) unit :=
  match configPairs with
  | [] => mret tt
  | configPair :: rest =>
      let id := getPairId configPair in
      _ ← liftR (checkCurrency (Types.base configPair));
      _ ← liftR (checkCurrency (Types.quote configPair));
      _ ← (if bool_decide (id ∈ dbPairSet) then mret tt
           else addPair {| pr_id := id; pr_config := configPair |});
      addConfigPairs dbPairSet rest
  end.

(** A call of a provider, which has its own state. *)
Definition onProviders {A} (m : M Providers A) : M (InitWorld Providers) A :=
  fun w =>
    let '(r, p) := m (providers w) in
    (r, {| pairRepository := pairRepository w; providers := p |}).

Definition init (configPairs : list Types.PairConfig)
  : M (InitWorld Providers) unit :=
  dbPairs ← getsM pairRepository;
  let dbPairSet : gset string := list_to_set (map pr_id dbPairs) in
  _ ← addConfigPairs dbPairSet configPairs;
  _ ← onProviders (timeoutDeltaProvider_init configPairs);
  _ ← onProviders (feeProvider_init configPairs);
  onProviders (rateProvider_init configPairs).

End Init.

(** *** getFeeEstimation *)

Section FeeEstimation.

(** The currencies of the service as the entries of its [Map], in the
    order of iteration, and the [estimateFee] of the chain client of a
    currency, which is declared outside these files. *)
Context (currencies : list (string * Currency)).
Context (chainClient_estimateFee : Currency -> number -> Res number).

Definition getCurrency (symbol : string) : Res Currency :=
  match find (fun entry => String.eqb entry.1 symbol) currencies with
  | Some (_, currency) => Ok currency
  | None => Throw (CURRENCY_NOT_FOUND symbol)
  end.

(** The loop over the currencies, which fills [map]. *)
Fixpoint estimateFees (entries : list (string * Currency))
    (numBlocks : number) (map : gmap string number)
  : Res (gmap string number) :=
  match entries with
  | [] => Ok map
  | (symbol, currency) :: rest =>
      fee ← chainClient_estimateFee currency numBlocks;
      estimateFees rest numBlocks (<[symbol := fee]> map)
  end.

(** Gets a fee estimation in satoshis per vbyte for either all
    currencies or just a single one if specified. *)
Definition getFeeEstimation (symbol : option string)
    (blocks : option number) : Res (gmap string number) :=
  let numBlocks := match blocks with None => 2%Q | Some blocks => blocks end in
  match symbol with
  | Some symbol =>
      currency ← getCurrency symbol;
      fee ← chainClient_estimateFee currency numBlocks;
      mret (<[symbol := fee]> ∅)
  | None => estimateFees currencies numBlocks ∅
  end.

End FeeEstimation.

End Service.

(** ** Service: chain to chain swaps

    [createChainToChainSwap] throws three errors that none of the functions
    above throws, one of them an error of the wallet; they are kept apart
    from [Error], which it passes on. *)

Module ChainToChain.

Import Js.

Inductive Failure :=
| INVALID_PREIMAGE_HASH
| SWAP_WITH_PREIMAGE_EXISTS
| NOT_ENOUGH_FUNDS (amount : number)
| Thrown (e : Error).

Inductive Outcome (A : Type) : Type :=
| Returned (a : A)
| Failed (f : Failure).
Arguments Returned {A} a.
Arguments Failed {A} f.

(** A computation on a state of type [S] that returns or fails. *)
Definition C (S A : Type) : Type := S -> Outcome A * S.

Definition retC {S A} (a : A) : C S A := fun s => (Returned a, s).
Definition failC {S A} (f : Failure) : C S A := fun s => (Failed f, s).
Definition bindC {S A B} (m : C S A) (k : A -> C S B) : C S B :=
  fun s => match m s with
           | (Returned a, s') => k a s'
           | (Failed f, s') => (Failed f, s')
           end.
Definition liftC {S A} (r : Res A) : C S A :=
  fun s => (match r with Ok a => Returned a | Throw e => Failed (Thrown e) end,
            s).
Definition getsC {S A} (f : S -> A) : C S A := fun s => (Returned (f s), s).
Definition modifyC {S} (f : S -> S) : C S unit :=
  fun s => (Returned tt, f s).

#[global] Instance C_ret {S} : MRet (C S) := fun _ a => retC a.
#[global] Instance C_bind {S} : MBind (C S) := fun _ _ k m => bindC m k.

(** The timeouts of a pair, the balance of a wallet, the rows of the
    repository and what the swap manager is handed and answers are
    declared outside these files; these are the fields that
    [createChainToChainSwap] reads and writes. *)
Record Timeouts := {
  t_base : number;
  t_quote : number;
}.

Record WalletBalance := { totalBalance : number }.

Record Wallet := { getBalance : Res WalletBalance }.

Record CreateArgs := {
  a_id : string;
  a_base : string;
  a_quote : string;
  a_side : OrderSide;
  a_amount : number;
  a_expectedAmount : number;
  a_preimageHash : Buffer;
  a_claimPublicKey : Buffer;
  a_refundPublicKey : Buffer;
  a_baseTimeout : number;
  a_quoteTimeout : number;
  a_acceptZeroConf : bool;
}.

Record SwapDetails := {
  d_sendingKeyIndex : number;
  d_sendingRedeemScript : Buffer;
  d_sendingLockupAddress : string;
  d_sendingTimeoutBlockHeight : number;
  d_receivingKeyIndex : number;
  d_receivingRedeemScript : Buffer;
  d_receivingLockupAddress : string;
  d_receivingTimeoutBlockHeight : number;
}.

Record Row := {
  id : string;
  acceptZeroConf : bool;
  sendingKeyIndex : number;
  sendingLockupAddress : string;
  sendingTimeoutBlockHeight : number;
  receivingKeyIndex : number;
  receivingLockupAddress : string;
  receivingTimeoutBlockHeight : number;
  pair : string;
  orderSide : OrderSide;
  fee : number;
  preimageHash : string;
  status : SwapUpdateEvent;
  sendingAmount : number;
  sendingRedeemScript : string;
  receivingAmount : number;
  receivingRedeemScript : string;
}.

(** What [createChainToChainSwap] returns. *)
Record SendingDetails := {
  s_expectedAmount : number;
  s_lockupAddress : string;
  s_timeoutBlockHeight : number;
  s_redeemScript : string;
  s_bip21 : string;
}.

Record ReceivingDetails := {
  v_timeoutBlockHeight : number;
  v_redeemScript : string;
}.

Record Created := {
  c_id : string;
  c_acceptZeroConf : bool;
  sendingDetails : SendingDetails;
  receivingDetails : ReceivingDetails;
}.

(** The repository, the calls made to the swap manager so far, and how
    many ids were drawn. *)
Record World := {
  chainToChainSwapRepository : list Row;
  managerCalls : list CreateArgs;
  idsDrawn : nat;
}.

Section ChainToChain.

(** Declared outside these files: the helpers of Utils and of
    PaymentRequestUtils, the pairs of the rate provider and its
    zero-conf policy, the fee provider, the timeout-delta provider of
    the service, the wallets, the swap manager and the source of
    ids. *)
Context (splitPairId : string -> string * string).
Context (getSendingReceivingCurrency :
           string -> string -> OrderSide -> string * string).
Context (getRate : number -> OrderSide -> SwapType -> number).
Context (getSwapMemo : string -> SwapType -> string).
Context (encodeBip21 : string -> string -> number -> string -> string).
Context (getHexString : Buffer -> string).
Context (pairs : gmap string Service.PairType).
Context (rateProvider_acceptZeroConf : string -> number -> bool).
Context (feeProvider_getFees :
           string -> number -> OrderSide -> number -> SwapType ->
           Res Service.Fees).
Context (timeoutDeltaProvider_getTimeouts : string -> Res Timeouts).
Context (wallets : gmap string Wallet).
Context (swapManager_createChainToChainSwap : CreateArgs -> Res SwapDetails).
Context (idSource : nat -> string).

Definition generateId : C World string :=
  fun w =>
    (Returned (idSource (idsDrawn w)),
     {| chainToChainSwapRepository := chainToChainSwapRepository w;
        managerCalls := managerCalls w;
        idsDrawn := S (idsDrawn w) |}).

Definition callManager (args : CreateArgs) : C World SwapDetails :=
  fun w =>
    liftC (swapManager_createChainToChainSwap args)
      {| chainToChainSwapRepository := chainToChainSwapRepository w;
         managerCalls := managerCalls w ++ [args];
         idsDrawn := idsDrawn w |}.

Definition getChainToChainSwap (hexPreimageHash : string) (w : World)
  : option Row :=
  find (fun row => String.eqb (preimageHash row) hexPreimageHash)
       (chainToChainSwapRepository w).

Definition addChainToChainSwap (row : Row) : C World unit :=
  modifyC (fun w =>
    {| chainToChainSwapRepository := chainToChainSwapRepository w ++ [row];
       managerCalls := managerCalls w;
       idsDrawn := idsDrawn w |}).

(** Create a new chain to chain swap. *)
Definition createChainToChainSwap (pairId orderSide : string)
    (amount : number) (preimageHash claimPublicKey refundPublicKey : Buffer)
  : C World Created :=
  if negb (length preimageHash =? 32)%nat then failC INVALID_PREIMAGE_HASH
  else
  let hexPreimageHash := getHexString preimageHash in
  dbSwap ← getsC (getChainToChainSwap hexPreimageHash);
  if dbSwap is Some _ then failC SWAP_WITH_PREIMAGE_EXISTS else
  '(base, quote, p) ← liftC (Service.getPair splitPairId pairs pairId);
  side ← liftC (Service.getOrderSide orderSide);
  let rate := getRate (Service.rate p) side ChainToChain in
  timeouts ← liftC (timeoutDeltaProvider_getTimeouts pairId);
  let '(sendingCurrency, receivingCurrency) :=
    getSendingReceivingCurrency base quote side in
  _ ← liftC (Service.verifyAmount splitPairId pairs pairId rate amount side
               ChainToChain);
  fees ← liftC (feeProvider_getFees pairId rate side amount ChainToChain);
  let expectedAmount :=
    Math_ceil (amount * rate
               + (Service.baseFee fees + Service.percentageFee fees))%Q in
  wallet ← liftC (deref (wallets !! sendingCurrency));
  balance ← liftC (getBalance wallet);
  let sendingWalletBalance := totalBalance balance in
  if Qle_bool sendingWalletBalance amount
  then failC (NOT_ENOUGH_FUNDS amount) else
  id ← generateId;
  let acceptZeroConf :=
    rateProvider_acceptZeroConf receivingCurrency expectedAmount in
  d ← callManager
        {| a_id := id; a_base := base; a_quote := quote; a_side := side;
           a_amount := amount; a_expectedAmount := expectedAmount;
           a_preimageHash := preimageHash;
           a_claimPublicKey := claimPublicKey;
           a_refundPublicKey := refundPublicKey;
           a_baseTimeout := t_base timeouts;
           a_quoteTimeout := t_quote timeouts;
           a_acceptZeroConf := acceptZeroConf |};
  _ ← addChainToChainSwap
        {| id := id; acceptZeroConf := acceptZeroConf;
           sendingKeyIndex := d_sendingKeyIndex d;
           sendingLockupAddress := d_sendingLockupAddress d;
           sendingTimeoutBlockHeight := d_sendingTimeoutBlockHeight d;
           receivingKeyIndex := d_receivingKeyIndex d;
           receivingLockupAddress := d_receivingLockupAddress d;
           receivingTimeoutBlockHeight := d_receivingTimeoutBlockHeight d;
           pair := pairId; orderSide := side;
           fee := Service.percentageFee fees;
           preimageHash := hexPreimageHash;
           status := TransactionWaiting;
           sendingAmount := amount;
           sendingRedeemScript := getHexString (d_sendingRedeemScript d);
           receivingAmount := expectedAmount;
           receivingRedeemScript :=
             getHexString (d_receivingRedeemScript d) |};
  mret {| c_id := id; c_acceptZeroConf := acceptZeroConf;
          sendingDetails :=
            {| s_expectedAmount := expectedAmount;
               s_lockupAddress := d_receivingLockupAddress d;
               s_timeoutBlockHeight := d_receivingTimeoutBlockHeight d;
               s_redeemScript := getHexString (d_receivingRedeemScript d);
               s_bip21 :=
                 encodeBip21 receivingCurrency (d_receivingLockupAddress d)
                   expectedAmount
                   (getSwapMemo sendingCurrency ChainToChain) |};
          receivingDetails :=
            {| v_timeoutBlockHeight := d_sendingTimeoutBlockHeight d;
               v_redeemScript := getHexString (d_sendingRedeemScript d) |} |}.

End ChainToChain.

End ChainToChain.

(** ** MusigSigner *)

Module MusigSigner.

Import Js.

(** Modelled from the spec: the models [Swap] and [ReverseSwap] are
    declared outside these files; these are the fields read here.  The
    fields the source asserts with [!] ([redeemScript], [keyIndex] and
    the public keys) are taken as present. *)
Record Swap := {
  id : string;
  pair : string;
  orderSide : OrderSide;
  version : SwapVersion;
  status : SwapUpdateEvent;
  type : SwapType;
  preimageHash : string;
  invoice : option string;
  redeemScript : string;
  keyIndex : number;
  refundPublicKey : string;
}.

Record ReverseSwap := {
  r_id : string;
  r_pair : string;
  r_orderSide : OrderSide;
  r_version : SwapVersion;
  r_status : SwapUpdateEvent;
  r_preimageHash : string;
  r_preimage : option string;
  r_redeemScript : string;
  r_keyIndex : number;
  r_claimPublicKey : string;
}.

Record PartialSignature := {
  pubNonce : Buffer;
  signature : Buffer;
}.

(** The two repositories and the state of the nursery. *)
Record World {Nursery : Type} := {
  swaps : gmap string Swap;
  reverseSwaps : gmap string ReverseSwap;
  nursery : Nursery;
}.
Arguments World : clear implicits.

(** [try { body } catch (e) { handler }] around a body that yields a
    value. *)
Definition catch {A} (body : Res A) (handler : Error -> A) : A :=
  match body with
  | Ok a => a
  | Throw e => handler e
  end.

Section Signer.

(** Declared outside these files: the helpers of Utils, SHA-256, the
    wallets, the swap tree serializer, [createPartialSignature] and
    the nursery; [currencies] is a field of the signer. *)
Context (splitPairId : string -> string * string).
Context (getChainCurrency getLightningCurrency :
           string -> string -> OrderSide -> bool -> string).
Context (getHexBuffer : string -> Buffer).
Context (getHexString : Buffer -> string).
Context (sha256 : Buffer -> Buffer).
Context (currencies : gmap string Currency).
Context {Wallet SwapTree Nursery : Type}.
Context (wallets : gmap string Wallet).
Context (deserializeSwapTree : string -> Res SwapTree).
Context (createPartialSignature :
           option Currency -> option Wallet -> SwapTree -> number ->
           Buffer -> Buffer -> Buffer -> number -> Res PartialSignature).
Context (settleReverseSwapInvoice :
           ReverseSwap -> Buffer -> M (World Nursery) unit).

(** The body of the first [try]: [true] when it returns [true]. *)
Definition lndPaymentNotFailed (currency : Currency) (swap : Swap)
  : Res bool :=
  match lndClient currency with
  | Some lnd =>
      pendingPayment ←
        Lnd.trackPayment lnd (getHexBuffer (preimageHash swap));
      mret (bool_decide (Lnd.status pendingPayment ≠ Lnd.FAILED))
  | None => mret false
  end.

(** The body of the second [try]: [true] when it returns [true]. *)
Definition clnPaymentKnown (currency : Currency) (swap : Swap)
  : Res bool :=
  match clnClient currency, invoice swap with
  | Some cln, Some inv =>
      payment ← Cln.checkPayStatus cln inv;
      mret (bool_decide (payment ≠ None))
  | _, _ => mret false
  end.

Definition hasNonFailedLightningPayment (currency : Currency)
    (swap : Swap) : bool :=
  if bool_decide (type swap = Chain) then false
  else if catch (lndPaymentNotFailed currency swap)
            (fun _ => (* empty *) false)
  then true
  else if catch (clnPaymentKnown currency swap) (fun _ => true)
  then true
  else false.

Definition isEligibleForRefund (swap : Swap)
    (lightningCurrency : option Currency) : bool :=
  includes FailedSwapUpdateEvents (status swap)
  && match lightningCurrency with
     | None => true
     | Some currency => negb (hasNonFailedLightningPayment currency swap)
     end.

Definition signRefund (swapId : string) (theirNonce rawTransaction : Buffer)
    (index : number) : M (World Nursery) PartialSignature :=
  found ← getsM (fun w => swaps w !! swapId);
  match found with
  | None => throwM (SWAP_NOT_FOUND swapId)
  | Some swap =>
      let '(base, quote) := splitPairId (pair swap) in
      currency ←
        liftR (deref (currencies
                        !! getChainCurrency base quote (orderSide swap)
                             false));
      if bool_decide (chainClient currency = None)
      then throwM CURRENCY_NOT_UTXO_BASED
      else if bool_decide (version swap ≠ Taproot)
              || negb (isEligibleForRefund swap
                         (currencies
                            !! getLightningCurrency base quote
                                 (orderSide swap) false))
      then throwM NOT_ELIGIBLE_FOR_COOPERATIVE_REFUND
      else
        swapTree ← liftR (deserializeSwapTree (redeemScript swap));
        liftR (createPartialSignature (Some currency)
                 (wallets !! symbol currency) swapTree (keyIndex swap)
                 (getHexBuffer (refundPublicKey swap)) theirNonce
                 rawTransaction index)
  end.

(** Modelled from the spec: [isPreimageValid] of cooperative/Utils is
    not among the sources.  "Verify sha256(preimage) == preimageHash";
    the hash of a swap is kept hex-encoded. *)
Definition isPreimageValid (swap : ReverseSwap) (preimage : Buffer)
  : bool :=
  String.eqb (getHexString (sha256 preimage)) (r_preimageHash swap).

(** Modelled from the spec: the row of a swap once
    [WrappedSwapRepository.setPreimage], which is not among the sources,
    has run: it carries the preimage, hex-encoded. *)
Definition withPreimage (swap : ReverseSwap) (preimage : Buffer)
  : ReverseSwap :=
  {| r_id := r_id swap; r_pair := r_pair swap;
     r_orderSide := r_orderSide swap; r_version := r_version swap;
     r_status := r_status swap; r_preimageHash := r_preimageHash swap;
     r_preimage := Some (getHexString preimage);
     r_redeemScript := r_redeemScript swap; r_keyIndex := r_keyIndex swap;
     r_claimPublicKey := r_claimPublicKey swap |}.

(** Modelled from the spec: [WrappedSwapRepository.setPreimage] is not
    among the sources.  "Persist the preimage". *)
Definition setPreimage (swap : ReverseSwap) (preimage : Buffer)
  : M (World Nursery) unit :=
  modifyM (fun w =>
    {| swaps := swaps w;
       reverseSwaps :=
         <[r_id swap := withPreimage swap preimage]> (reverseSwaps w);
       nursery := nursery w |}).

(** The callback run under the lock of the nursery
    ([SwapNursery.reverseSwapLock]). *)
Definition signClaimLocked (swap : ReverseSwap)
    (preimage theirNonce rawTransaction : Buffer) (index : number)
  : M (World Nursery) PartialSignature :=
  _ ← (if bool_decide (r_status swap ≠ InvoiceSettled)
       then settleReverseSwapInvoice swap preimage
       else mret tt);
  let '(base, quote) := splitPairId (r_pair swap) in
  let chainCurrency := getChainCurrency base quote (r_orderSide swap) true in
  swapTree ← liftR (deserializeSwapTree (r_redeemScript swap));
  liftR (createPartialSignature (currencies !! chainCurrency)
           (wallets !! chainCurrency) swapTree (r_keyIndex swap)
           (getHexBuffer (r_claimPublicKey swap)) theirNonce
           rawTransaction index).

Definition signReverseSwapClaim (swapId : string)
    (preimage theirNonce rawTransaction : Buffer) (index : number)
  : M (World Nursery) PartialSignature :=
  found ← getsM (fun w => reverseSwaps w !! swapId);
  match found with
  | None => throwM (SWAP_NOT_FOUND swapId)
  | Some swap =>
      if bool_decide (r_version swap ≠ Taproot)
         || negb (includes
                    [TransactionMempool; TransactionConfirmed;
                     InvoiceSettled]
                    (r_status swap))
      then throwM NOT_ELIGIBLE_FOR_COOPERATIVE_CLAIM
      else if negb (isPreimageValid swap preimage)
      then throwM INCORRECT_PREIMAGE
      else
        _ ← setPreimage swap preimage;
        signClaimLocked swap preimage theirNonce rawTransaction index
  end.

End Signer.

End MusigSigner.

(** * Vocabulary of the statements *)

Section TimeoutVocabulary.

Import Js TimeoutDeltaProvider.
Local Open Scope Q_scope.

Context (ElementsClient_symbol : string).
Context (splitPairId : string -> string * string).

Local Abbreviation getBlockTime := (getBlockTime ElementsClient_symbol).

(** [minutes] of wall time are a whole number of blocks of [symbol], and
    at least one. *)
Definition wholeBlocks (symbol : string) (minutes : number) : Prop :=
  exists k : Z, (1 <= k)%Z /\ minutes / getBlockTime symbol == inject_Z k.

(** The three values of a table are whole blocks of [symbol]. *)
Definition wholeDeltas (newDeltas : PairTimeoutBlocksDelta)
    (symbol : string) : Prop :=
  wholeBlocks symbol (reverse newDeltas)
  /\ wholeBlocks symbol (swapMinimal newDeltas)
  /\ wholeBlocks symbol (swapMaximal newDeltas).

(** The three values are whole blocks of the base and of the quote
    symbol of the pair. *)
Definition validDeltas (pairId : string)
    (newDeltas : PairTimeoutBlocksDelta) : Prop :=
  wholeDeltas newDeltas (splitPairId pairId).1
  /\ wholeDeltas newDeltas (splitPairId pairId).2.

(** The table of a side, each value divided by the block time. *)
Definition blocksOf (newDeltas : PairTimeoutBlocksDelta) (symbol : string)
  : PairTimeoutBlocksDelta :=
  {| reverse := reverse newDeltas / getBlockTime symbol;
     swapMinimal := swapMinimal newDeltas / getBlockTime symbol;
     swapMaximal := swapMaximal newDeltas / getBlockTime symbol |}.

End TimeoutVocabulary.

(** How a file gets new contents atomically: the data is written to a
    temporary file, which is then renamed over the path. *)
Definition rewrittenAtomically (before after : Fs.FileSystem)
    (path data : string) : Prop :=
  exists tmp : string,
    tmp <> path
    /\ Fs.log after
       = Fs.log before ++ [Fs.WriteFile tmp data; Fs.Rename tmp path].

(** A timeout query that finds no route is answered with the maximal
    timeout of the chain side, not flagged. *)
Definition noRoutesGivesMaximal (routeTimeLock : Q)
    (chainTimeout : Types.PairTimeoutBlocksDelta)
    (result : Res (Q * bool)) : Prop :=
  (routeTimeLock == TimeoutDeltaProvider.noRoutes)%Q ->
  result = Ok (Types.swapMaximal chainTimeout, false).

(** *** Block counts on doubles *)

Section DoubleVocabulary.

Import PrimFloat.
Local Open Scope float_scope.

(** [n] is a whole number with [n * blockTime l >= b * blockTime c], and
    the least one. *)
Definition leastCoveringBlocks (blockTime : string -> Double.number)
    (c l : string) (b n : Double.number) : Prop :=
  let whole m := Double.Math_ceil m = m in
  let covers m := PrimFloat.leb (b * blockTime c) (m * blockTime l) = true in
  whole n
  /\ covers n
  /\ forall m, whole m -> covers m -> PrimFloat.leb n m = true.

(** The double of a whole number, exact below 2^53. *)
Fixpoint double_of_pos (p : positive) : Double.number :=
  match p with
  | xH => 1
  | xO p => 2 * double_of_pos p
  | xI p => 2 * double_of_pos p + 1
  end.

Definition double_of_Z (k : Z) : Double.number :=
  match k with
  | Z0 => 0
  | Zpos p => double_of_pos p
  | Zneg p => - double_of_pos p
  end.

(** The doubles and the rationals agree on [convertBlocks] for the block
    counts from 0 up to [bound]. *)
Definition convertBlocksAgree (ElementsClient_symbol c l : string)
    (bound : nat) : bool :=
  forallb
    (fun k : nat =>
       PrimFloat.eqb
         (Double.convertBlocks ElementsClient_symbol c l
            (double_of_Z (Z.of_nat k)))
         (double_of_Z
            (Qceiling
               (TimeoutDeltaProvider.convertBlocks ElementsClient_symbol c l
                  (inject_Z (Z.of_nat k))))))
    (seq 0 (S bound)).

End DoubleVocabulary.

(** [verifyAmount] accepts exactly the amounts within the limits. *)
Definition acceptsIffWithinLimits (result : Res unit) (amount : Q)
    (lim : Service.Limits) : Prop :=
  result = Ok tt
  <-> (Service.minimal lim <= amount /\ amount <= Service.maximal lim)%Q.

(** [verifyAmount] fails with [BENEATH_MINIMAL_AMOUNT] exactly when the
    ceiling of the amount is below the minimal. *)
Definition beneathIffCeilingBelow (result : Res unit) (amount : Q)
    (lim : Service.Limits) : Prop :=
  (exists a m, result = Throw (BENEATH_MINIMAL_AMOUNT a m))
  <-> (Js.Math_ceil amount < Service.minimal lim)%Q.

(** The last row of the swap repository carries [amount] as its
    expected amount. *)
Definition persistedExpectedAmount (w : Service.World) (amount : Q) : Prop :=
  exists row e,
    last (Service.swapRepository w) = Some row
    /\ Service.expectedAmount row = Some e
    /\ (e == amount)%Q.

(** ** Example data

    An instance of what is declared outside the files modelled, for the
    examples below: pair ids are [base/quote]; the chain currency of a
    submarine swap is the quote on a buy order and the base on a sell
    order, and the other way round for a reverse swap. *)

Module Demo.

Import Js Types.

Fixpoint splitAt (c : ascii) (s : string) : string * string :=
  match s with
  | EmptyString => (EmptyString, EmptyString)
  | String x rest =>
      if Ascii.eqb x c then (EmptyString, rest)
      else let '(l, r) := splitAt c rest in (String x l, r)
  end.

Definition splitPairId (pairId : string) : string * string :=
  splitAt "/"%char pairId.

Definition getPairId (p : PairConfig) : string :=
  (base p ++ "/" ++ quote p)%string.

Definition getChainCurrency (b q : string) (side : OrderSide)
    (isReverse : bool) : string :=
  if isReverse then (if decide (side = BUY) then b else q)
  else (if decide (side = BUY) then q else b).

Definition getLightningCurrency (b q : string) (side : OrderSide)
    (isReverse : bool) : string :=
  if isReverse then (if decide (side = BUY) then q else b)
  else (if decide (side = BUY) then b else q).

Definition btcPair (delta : option TimeoutDelta) : PairConfig :=
  {| base := "BTC"; quote := "BTC"; rate := Some 1%Q; fee := 1%Q;
     timeoutDelta := delta |}.

Definition ltcPair (delta : option TimeoutDelta) : PairConfig :=
  {| base := "LTC"; quote := "BTC"; rate := None; fee := 2%Q;
     timeoutDelta := delta |}.

(** A serializer that prints the ids of the pairs and, for each, whether
    its deltas are a table. *)
Definition stringify (c : ConfigType unit) : string :=
  foldr (fun p acc =>
           (getPairId p ++ ":"
            ++ match timeoutDelta p with
               | Some (DeltaTable _) => "table"
               | Some (LegacyMinutes _) => "number"
               | None => "none"
               end ++ ";" ++ acc)%string)
        EmptyString (pairs c).

Definition day : PairTimeoutBlocksDelta :=
  {| reverse := 1440%Q; swapMinimal := 1440%Q; swapMaximal := 2880%Q |}.

Definition dayBlocks : TimeoutDeltaProvider.PairTimeoutBlockDeltas :=
  {| TimeoutDeltaProvider.base :=
       {| reverse := 144%Q; swapMinimal := 144%Q; swapMaximal := 288%Q |};
     TimeoutDeltaProvider.quote :=
       {| reverse := 144%Q; swapMinimal := 144%Q; swapMaximal := 288%Q |} |}.

(** A provider that knows BTC/BTC, with a configuration of two pairs. *)
Definition provider : TimeoutDeltaProvider.World unit :=
  {| TimeoutDeltaProvider.timeoutDeltas := {[ "BTC/BTC"%string := dayBlocks ]};
     TimeoutDeltaProvider.config :=
       {| configpath := "boltz.conf";
          pairs := [ltcPair (Some (LegacyMinutes 60%Q));
                    btcPair (Some (LegacyMinutes 1440%Q))];
          others := tt |};
     TimeoutDeltaProvider.currencies := ∅;
     TimeoutDeltaProvider.fs := {| Fs.files := ∅; Fs.log := [] |} |}.

(** An invoice that advertises multi-path payments, an LND node that
    finds one route of the given time lock (or none), and a chain at
    height 800000. *)
Definition payReq : Lnd.PayReq :=
  {| Lnd.getDestination := "02e5";
     Lnd.getNumSatoshis := 100000%Q;
     Lnd.getCltvExpiry := 40%Q;
     Lnd.getRouteHintsList := [];
     Lnd.featuresMap :=
       [(17%Q, {| Lnd.name := "multi-path-payments";
                  Lnd.isKnown := true; Lnd.isRequired := false |})] |}.

Definition lnd (timeLock : option number) (payment : Res Lnd.Payment)
  : Lnd.LndClient :=
  {| Lnd.decodePayReqRawResponse := fun _ => Ok payReq;
     Lnd.queryRoutes := fun _ _ _ _ _ =>
       match timeLock with
       | Some t => Ok {| Lnd.routesList := [{| Lnd.totalTimeLock := t |}] |}
       | None => Throw (Rejected "unable to find a path to destination")
       end;
     Lnd.trackPayment := fun _ => payment |}.

Definition chain : ChainClient :=
  {| getBlockchainInfo := Ok {| blocks := 800000%Q |} |}.

Definition btc (timeLock : option number) (payment : Res Lnd.Payment)
  : Currency :=
  {| symbol := "BTC"; chainClient := Some chain;
     lndClient := Some (lnd timeLock payment); clnClient := None |}.

Definition currencies (timeLock : option number)
    (payment : Res Lnd.Payment) : gmap string Currency :=
  {[ "BTC"%string := btc timeLock payment ]}.

Definition btcDeltas : PairTimeoutBlocksDelta :=
  {| reverse := 144%Q; swapMinimal := 144%Q; swapMaximal := 144%Q |}.

(** A chain client that cannot be reached, and BTC with it and with an
    LND node that finds no route. *)
Definition unreachableChain : ChainClient :=
  {| getBlockchainInfo := Throw (Rejected "connection refused") |}.

Definition unreachableCurrencies : gmap string Currency :=
  {[ "BTC"%string :=
       {| symbol := "BTC"; chainClient := Some unreachableChain;
          lndClient := Some (lnd None (Throw TypeError));
          clnClient := None |} ]}.

(** The pairs of the rate provider: limits of 10 000 to 1 000 000, and
    two pairs with small limits, the second with a minimal above its
    maximal. *)
Definition limits (lo hi : number) : option Service.Limits :=
  Some {| Service.minimal := lo; Service.maximal := hi |}.

Definition pairs : gmap string Service.PairType :=
  {[ "BTC/BTC"%string :=
       {| Service.rate := 1%Q; Service.limits := limits 10000 1000000 |};
     "LTC/BTC"%string :=
       {| Service.rate := (99 # 100)%Q;
          Service.limits := limits 10000 1000000 |} ]}.

Definition smallPairs : gmap string Service.PairType :=
  {[ "BTC/BTC"%string :=
       {| Service.rate := 1%Q; Service.limits := limits 1 10 |};
     "LTC/BTC"%string :=
       {| Service.rate := 1%Q; Service.limits := limits 100 10 |} ]}.

(** The collaborators of the service: invoices of 100 000, fees of 500
    and 1000, a timeout of 144 blocks, a wallet that supports SegWit and a
    swap manager that answers every call. *)
Definition getInvoiceAmt (inv : string) : Res number := Ok 100000%Q.

Definition getRate (pairRate : number) (side : OrderSide) (type : SwapType)
  : number := pairRate.

Definition getSwapMemo (currency : string) (type : SwapType) : string :=
  ("Send to " ++ currency)%string.

Definition encodeBip21 (currency address : string) (amount : number)
    (memo : string) : string :=
  ("bitcoin:" ++ address ++ "?label=" ++ memo)%string.

Definition acceptZeroConf (currency : string) (amount : number) : bool :=
  false.

Definition getFees (pairId : string) (rate : number) (side : OrderSide)
    (amount : number) (type : SwapType) : Res Service.Fees :=
  Ok {| Service.baseFee := 500%Q; Service.percentageFee := 1000%Q |}.

Definition getTimeout (pairId : string) (side : OrderSide) (type : SwapType)
  : Res number := Ok 144%Q.

Definition wallets : gmap string Service.Wallet :=
  {[ "BTC"%string := {| Service.supportsSegwit := true |};
     "LTC"%string := {| Service.supportsSegwit := true |} ]}.

Definition managerCreateSwap (args : Service.CreateSwapArgs)
  : Res Service.SwapDetails :=
  Ok {| Service.sd_address := "bcrt1q"; Service.sd_keyIndex := 7%Q;
        Service.sd_redeemScript := "a914";
        Service.sd_timeoutBlockHeight := 800144%Q |}.

Definition managerCreateReverseSwap (args : Service.CreateReverseSwapArgs)
  : Res Service.ReverseSwapDetails :=
  Ok {| Service.rd_invoice := "lnbc1"; Service.rd_minerFee := 300%Q;
        Service.rd_keyIndex := 8%Q; Service.rd_redeemScript := "a914";
        Service.rd_lockupTransaction := "0200";
        Service.rd_timeoutBlockHeight := 800144%Q;
        Service.rd_lockupTransactionId := "f00d" |}.

Definition idSource (n : nat) : string :=
  ("swap" ++ pretty n)%string.

Definition service : Service.World :=
  {| Service.allowReverseSwaps := true;
     Service.swapRepository := [];
     Service.reverseSwapRepository := [];
     Service.managerCalls := [];
     Service.idsDrawn := 0 |}.

Definition lowPairs : gmap string Service.PairType :=
  {[ "BTC/BTC"%string :=
       {| Service.rate := 1%Q; Service.limits := limits 100 1000000 |} ]}.

Definition createSwap :=
  Service.createSwap splitPairId getChainCurrency getLightningCurrency
    getInvoiceAmt getRate getSwapMemo encodeBip21 pairs acceptZeroConf
    getFees getTimeout wallets managerCreateSwap idSource.

Definition createReverseSwap :=
  Service.createReverseSwap splitPairId getChainCurrency getRate pairs
    getFees getTimeout wallets managerCreateReverseSwap idSource.

(** The collaborators of the signer.  Buffers are shown as the bytes of
    their string; [digest] stands in for SHA-256; the nursery keeps the
    ids of the swaps whose invoice it settled. *)
Definition getHexBuffer (s : string) : Buffer := String.list_byte_of_string s.
Definition getHexString (b : Buffer) : string := String.string_of_list_byte b.
Definition digest (b : Buffer) : Buffer := rev b.

Definition deserializeSwapTree (script : string) : Res string := Ok script.

Definition createPartialSignature (currency : option Currency)
    (wallet : option unit) (swapTree : string) (keyIndex : number)
    (theirPublicKey theirNonce rawTransaction : Buffer) (index : number)
  : Res MusigSigner.PartialSignature :=
  Ok {| MusigSigner.pubNonce := theirNonce;
        MusigSigner.signature := rawTransaction |}.

Definition settleReverseSwapInvoice (swap : MusigSigner.ReverseSwap)
    (preimage : Buffer) : M (MusigSigner.World (list string)) unit :=
  modifyM (fun w =>
    {| MusigSigner.swaps := MusigSigner.swaps w;
       MusigSigner.reverseSwaps := MusigSigner.reverseSwaps w;
       MusigSigner.nursery :=
         MusigSigner.r_id swap :: MusigSigner.nursery w |}).

Definition signerWallets : gmap string unit := {[ "BTC"%string := tt ]}.

(** A Taproot submarine swap that expired, and a Taproot reverse swap
    whose lockup is in the mempool; the hash of the latter is the digest
    of "ab". *)
Definition expiredSwap : MusigSigner.Swap :=
  {| MusigSigner.id := "sub1"; MusigSigner.pair := "BTC/BTC";
     MusigSigner.orderSide := BUY; MusigSigner.version := Taproot;
     MusigSigner.status := SwapExpired; MusigSigner.type := Submarine;
     MusigSigner.preimageHash := "00ff";
     MusigSigner.invoice := Some "lnbc1"%string;
     MusigSigner.redeemScript := "c0de"; MusigSigner.keyIndex := 3%Q;
     MusigSigner.refundPublicKey := "02aa" |}.

Definition mempoolReverseSwap : MusigSigner.ReverseSwap :=
  {| MusigSigner.r_id := "rev1"; MusigSigner.r_pair := "BTC/BTC";
     MusigSigner.r_orderSide := BUY; MusigSigner.r_version := Taproot;
     MusigSigner.r_status := TransactionMempool;
     MusigSigner.r_preimageHash := "ba";
     MusigSigner.r_preimage := None;
     MusigSigner.r_redeemScript := "c0de"; MusigSigner.r_keyIndex := 4%Q;
     MusigSigner.r_claimPublicKey := "03bb" |}.

Definition signerWorld : MusigSigner.World (list string) :=
  {| MusigSigner.swaps := {[ "sub1"%string := expiredSwap ]};
     MusigSigner.reverseSwaps := {[ "rev1"%string := mempoolReverseSwap ]};
     MusigSigner.nursery := [] |}.

Definition signRefund (payment : Res Lnd.Payment) :=
  MusigSigner.signRefund splitPairId getChainCurrency getLightningCurrency
    getHexBuffer (currencies None payment) signerWallets
    deserializeSwapTree createPartialSignature
    (Nursery := list string).

Definition signReverseSwapClaim :=
  MusigSigner.signReverseSwapClaim splitPairId getChainCurrency getHexBuffer
    getHexString digest (currencies None (Throw TypeError)) signerWallets
    deserializeSwapTree createPartialSignature settleReverseSwapInvoice.

End Demo.

(** ** Vocabulary for the deltas a provider holds *)

(** A whole number of blocks, at least one. *)
Definition wholeNumber (x : Q) : Prop :=
  exists k : Z, (1 <= k)%Z /\ (x == inject_Z k)%Q.

Definition wholeTable (t : Types.PairTimeoutBlocksDelta) : Prop :=
  wholeNumber (Types.reverse t)
  /\ wholeNumber (Types.swapMinimal t)
  /\ wholeNumber (Types.swapMaximal t).

(** Every table that the provider holds is of whole numbers of blocks. *)
Definition holdsWholeBlocks {Others : Type}
    (w : TimeoutDeltaProvider.World Others) : Prop :=
  map_Forall
    (fun (_ : string) d =>
       wholeTable (TimeoutDeltaProvider.base d)
       /\ wholeTable (TimeoutDeltaProvider.quote d))
    (TimeoutDeltaProvider.timeoutDeltas w).

(** ** An example of a chain to chain swap *)

Module ChainDemo.

Import Js ChainToChain.

(** On a buy order the quote is sent and the base received. *)
Definition getSendingReceivingCurrency (b q : string) (side : OrderSide)
  : string * string :=
  if decide (side = BUY) then (q, b) else (b, q).

Definition getTimeouts (pairId : string) : Res Timeouts :=
  Ok {| t_base := 144%Q; t_quote := 288%Q |}.

(** Wallets of 5 000 000 and of exactly 100 000. *)
Definition wallets : gmap string Wallet :=
  {[ "BTC"%string :=
       {| getBalance := Ok {| totalBalance := 5000000%Q |} |};
     "LTC"%string :=
       {| getBalance := Ok {| totalBalance := 100000%Q |} |} ]}.

Definition managerCreate (args : CreateArgs) : Res SwapDetails :=
  Ok {| d_sendingKeyIndex := 1%Q; d_sendingRedeemScript := [];
        d_sendingLockupAddress := "bcrt1s";
        d_sendingTimeoutBlockHeight := 800144%Q;
        d_receivingKeyIndex := 2%Q; d_receivingRedeemScript := [];
        d_receivingLockupAddress := "bcrt1r";
        d_receivingTimeoutBlockHeight := 800288%Q |}.

Definition world : World :=
  {| chainToChainSwapRepository := []; managerCalls := []; idsDrawn := 0 |}.

(** A preimage hash of 32 bytes. *)
Definition hash : Buffer := repeat Byte.x2a 32.

Definition createChainToChainSwap :=
  ChainToChain.createChainToChainSwap Demo.splitPairId
    getSendingReceivingCurrency Demo.getRate Demo.getSwapMemo
    Demo.encodeBip21 Demo.getHexString Demo.pairs Demo.acceptZeroConf
    Demo.getFees getTimeouts wallets managerCreate Demo.idSource.

End ChainDemo.

(** ** Vocabulary for the initialization of the service *)

Section InitVocabulary.

Import Service.

Context (getPairId : Types.PairConfig -> string).
Context (currencies : gmap string Currency).

(** Both currencies of a pair are among those of the service. *)
Definition knownCurrencies (p : Types.PairConfig) : Prop :=
  is_Some (currencies !! Types.base p)
  /\ is_Some (currencies !! Types.quote p).

(** The rows of the pairs of a list whose id is not among [ids], in the
    order of the list. *)
Definition missingRows (ids : list string) (ps : list Types.PairConfig)
  : list PairRow :=
  map (fun p => {| pr_id := getPairId p; pr_config := p |})
      (filter (fun p => getPairId p ∉ ids) ps).

End InitVocabulary.
(** * Properties *)

(** ** Numbers *)

Section JsFacts.

Import Js.
Local Open Scope Q_scope.

Lemma gt_spec (x y : number) : gt x y = true <-> y < x.
Proof.
  unfold gt. rewrite negb_true_iff.
  destruct (Qle_bool x y) eqn:E.
  - apply Qle_bool_iff in E. split; [discriminate | intros H; lra].
  - split; [intros _ | reflexivity].
    apply Qnot_le_lt. intros H. apply Qle_bool_iff in H. congruence.
Qed.

Lemma lt_spec (x y : number) : lt x y = true <-> x < y.
Proof. apply (gt_spec y x). Qed.

Lemma gt_false (x y : number) : gt x y = false <-> x <= y.
Proof.
  unfold gt. rewrite negb_false_iff. apply Qle_bool_iff.
Qed.

Lemma lt_false (x y : number) : lt x y = false <-> y <= x.
Proof. apply (gt_false y x). Qed.

Lemma Math_floor_le (x : number) : Math_floor x <= x.
Proof. apply Qfloor_le. Qed.

Lemma Math_ceil_ge (x : number) : x <= Math_ceil x.
Proof. apply Qle_ceiling. Qed.

Lemma Math_ceil_least (x : number) (n : Z) :
  x <= inject_Z n -> Math_ceil x <= inject_Z n.
Proof.
  intros H. unfold Math_ceil. rewrite <- Zle_Qle.
  rewrite <- (Qceiling_Z n). now apply Qceiling_resp_le.
Qed.

Lemma Math_max_spec (x y : number) :
  (x <= y /\ Math_max x y = y) \/ (y <= x /\ Math_max x y = x).
Proof.
  unfold Math_max. destruct (gt y x) eqn:E.
  - apply gt_spec in E. left. split; [lra | reflexivity].
  - apply gt_false in E. right. split; [lra | reflexivity].
Qed.

End JsFacts.

(** ** TimeoutDeltaProvider: block times *)

Section BlockTimeFacts.

Import Js TimeoutDeltaProvider.
Local Open Scope Q_scope.

Context (ElementsClient_symbol : string).

Local Abbreviation blockTimes := (blockTimes ElementsClient_symbol).
Local Abbreviation getBlockTime := (getBlockTime ElementsClient_symbol).

Lemma blockTimes_lookup (s : string) :
  blockTimes !! s =
    if decide (ElementsClient_symbol = s) then Some 1
    else if decide ("ETH" = s)%string then Some (1 # 5)
    else if decide ("LTC" = s)%string then Some (5 # 2)
    else if decide ("BTC" = s)%string then Some 10
    else None.
Proof.
  unfold TimeoutDeltaProvider.blockTimes, Map_of. simpl.
  repeat (rewrite lookup_insert; case_decide; [reflexivity |]).
  apply lookup_empty.
Qed.

(** The fallback of [getBlockTime] is always there. *)
Lemma blockTimes_ETH : is_Some (blockTimes !! "ETH"%string).
Proof.
  rewrite blockTimes_lookup. repeat case_decide; eauto; congruence.
Qed.

Lemma getBlockTime_cases (s : string) :
  getBlockTime s = 10 \/ getBlockTime s = 5 # 2 \/
  getBlockTime s = 1 # 5 \/ getBlockTime s = 1.
Proof.
  unfold TimeoutDeltaProvider.getBlockTime.
  rewrite !blockTimes_lookup.
  repeat case_decide; simpl; auto; congruence.
Qed.

Lemma getBlockTime_pos (s : string) : 0 < getBlockTime s.
Proof.
  destruct (getBlockTime_cases s) as [E | [E | [E | E]]];
    rewrite E; reflexivity.
Qed.

End BlockTimeFacts.

(** C6 (as the code has it).  For currency symbols [c] and [l] of which
    at least one is BTC, LTC or the symbol of Elements, whose block times
    a double holds exactly, and every whole block count [b] (also a
    negative one), [convertBlocks c l b] is
    [ceil (b * blockTime c / blockTime l)]: an integer [r] with
    [b * blockTime c <= r * blockTime l], and the least such integer. *)
Theorem convertBlocks_least_ceiling
    (ElementsClient_symbol c l : string) (k : Z) :
  c ∈ ["BTC"%string; "LTC"%string; ElementsClient_symbol]
  \/ l ∈ ["BTC"%string; "LTC"%string; ElementsClient_symbol] ->
  let blockTime := TimeoutDeltaProvider.getBlockTime ElementsClient_symbol in
  let b := inject_Z k in
  let r := TimeoutDeltaProvider.convertBlocks ElementsClient_symbol c l b in
  (r = inject_Z (Qceiling (b * blockTime c / blockTime l))
   /\ b * blockTime c <= r * blockTime l
   /\ forall n : Z, b * blockTime c <= inject_Z n * blockTime l ->
                    r <= inject_Z n)%Q.
Proof.
  intros _ blockTime b r.
  pose proof (getBlockTime_pos ElementsClient_symbol l) as Hl.
  fold blockTime in Hl.
  assert (Hr : r = Js.Math_ceil (b * blockTime c / blockTime l)) by reflexivity.
  split; [exact Hr |]. split.
  - pose proof (Math_ceil_ge (b * blockTime c / blockTime l)) as Hc.
    rewrite <- Hr in Hc.
    apply (Qmult_le_compat_r _ _ (blockTime l)) in Hc; [| lra].
    assert (E : (b * blockTime c / blockTime l * blockTime l
                 == b * blockTime c)%Q) by (field; lra).
    rewrite E in Hc. exact Hc.
  - intros n Hn. rewrite Hr. apply Math_ceil_least.
    apply Qle_shift_div_r; assumption.
Qed.

(** Seven blocks of Litecoin, 17.5 minutes, are covered by two blocks of
    Bitcoin. *)
Lemma convertBlocks_least_ceiling_witness :
  (TimeoutDeltaProvider.convertBlocks "L-BTC" "LTC" "BTC" (inject_Z 7)
   <= inject_Z 2)%Q.
Proof.
  apply (convertBlocks_least_ceiling "L-BTC" "LTC" "BTC" 7).
  - left. apply list_elem_of_further, list_elem_of_here.
  - vm_compute. discriminate.
Defined.

(** C6 as stated fails where both symbols have the block time 0.2.  Three
    blocks of ETH last as long as three blocks of ETH, but on doubles
    [3 * 0.2 / 0.2] is above 3 and [convertBlocks] answers 4. *)
Lemma convertBlocks_ETH_not_least :
  Double.convertBlocks "L-BTC" "ETH" "ETH" (double_of_Z 3) = double_of_Z 4
  /\ ~ leastCoveringBlocks (Double.getBlockTime "L-BTC") "ETH" "ETH"
        (double_of_Z 3)
        (Double.convertBlocks "L-BTC" "ETH" "ETH" (double_of_Z 3)).
Proof.
  split; [vm_compute; reflexivity |].
  intros (_ & _ & Hleast).
  specialize (Hleast (double_of_Z 3)).
  assert (H : PrimFloat.leb
                (Double.convertBlocks "L-BTC" "ETH" "ETH" (double_of_Z 3))
                (double_of_Z 3) = true)
    by (apply Hleast; vm_compute; reflexivity).
  vm_compute in H. discriminate H.
Qed.

(** Where C6 is stated, the doubles of the code and the rationals of the
    model give the same blocks: for the block counts up to 200 between
    BTC, LTC, ETH, the symbol of Elements and a token, one of the two
    symbols being BTC, LTC or that of Elements. *)
Example convertBlocks_doubles_agree :
  forallb
    (fun c =>
       forallb
         (fun l =>
            forallb
              (fun '(from, to) => convertBlocksAgree "L-BTC" from to 200)
              [(c, l); (l, c)])
         ["BTC"; "LTC"; "ETH"; "L-BTC"; "USDT"]%string)
    ["BTC"; "LTC"; "L-BTC"]%string
  = true.
Proof. vm_compute. reflexivity. Qed.

(** Seven Litecoin blocks are 17.5 minutes, less than two Bitcoin blocks;
    144 Bitcoin blocks are 576 Litecoin blocks. *)
Example convertBlocks_ltc_btc :
  TimeoutDeltaProvider.convertBlocks "L-BTC" "LTC" "BTC" 7%Q = 2%Q
  /\ TimeoutDeltaProvider.convertBlocks "L-BTC" "BTC" "LTC" 144%Q = 576%Q.
Proof. split; vm_compute; reflexivity. Qed.

(** ** TimeoutDeltaProvider: minutes to blocks *)

Section RemainderFacts.

Import Js.
Local Open Scope Q_scope.

Lemma trunc_inject_Z (k : Z) : trunc (inject_Z k) = k.
Proof.
  unfold trunc. destruct (Qle_bool 0 (inject_Z k));
    [apply Qfloor_Z | apply Qceiling_Z].
Qed.

Lemma trunc_comp (x y : number) : x == y -> trunc x = trunc y.
Proof.
  intros E. unfold trunc.
  assert (Qle_bool 0 x = Qle_bool 0 y) as ->.
  { destruct (Qle_bool 0 x) eqn:Ex, (Qle_bool 0 y) eqn:Ey; try reflexivity.
    - apply Qle_bool_iff in Ex. rewrite E in Ex.
      apply Qle_bool_iff in Ex. congruence.
    - apply Qle_bool_iff in Ey. rewrite <- E in Ey.
      apply Qle_bool_iff in Ey. congruence. }
  destruct (Qle_bool 0 y);
    [now apply Qfloor_comp | now apply Qceiling_comp].
Qed.

(** [x % 1 !== 0] tells a number with a fractional part. *)
Lemma rem1_neq_0 (x : number) :
  neq (rem1 x) 0 = false <-> exists k : Z, x == inject_Z k.
Proof.
  unfold neq, rem1. rewrite negb_false_iff, Qeq_bool_iff. split.
  - intros H. exists (trunc x). lra.
  - intros [k Hk]. rewrite (trunc_comp _ _ Hk), trunc_inject_Z. lra.
Qed.

End RemainderFacts.

Section MinutesToBlocksFacts.

Import Js TimeoutDeltaProvider.
Local Open Scope Q_scope.

Context (ElementsClient_symbol : string).
Context (splitPairId : string -> string * string).

Local Abbreviation getBlockTime := (getBlockTime ElementsClient_symbol).
Local Abbreviation calculateBlocks :=
  (calculateBlocks ElementsClient_symbol).
Local Abbreviation convertToBlocks :=
  (convertToBlocks ElementsClient_symbol).
Local Abbreviation minutesToBlocks :=
  (minutesToBlocks ElementsClient_symbol splitPairId).
Local Abbreviation E := ElementsClient_symbol.

Lemma calculateBlocks_spec (symbol : string) (minutes : number) :
  (wholeBlocks E symbol minutes
   /\ calculateBlocks symbol minutes = Ok (minutes / getBlockTime symbol))
  \/ (~ wholeBlocks E symbol minutes
      /\ calculateBlocks symbol minutes = Throw INVALID_TIMEOUT_BLOCK_DELTA).
Proof.
  unfold TimeoutDeltaProvider.calculateBlocks, wholeBlocks.
  set (x := minutes / getBlockTime symbol).
  destruct (neq (rem1 x) 0) eqn:Er; simpl.
  - right. split; [| reflexivity]. intros (k & _ & Hk).
    assert (neq (rem1 x) 0 = false) by (apply rem1_neq_0; eauto).
    congruence.
  - apply rem1_neq_0 in Er as [k Hk].
    destruct (lt x 1) eqn:El.
    + right. split; [| reflexivity]. intros (k' & Hk' & E).
      apply lt_spec in El. rewrite E in El.
      rewrite Zle_Qle in Hk'. change (inject_Z 1) with 1 in Hk'. lra.
    + left. split; [| reflexivity]. exists k. split; [| exact Hk].
      apply lt_false in El. rewrite Hk in El.
      rewrite Zle_Qle. exact El.
Qed.

Lemma convertToBlocks_spec (newDeltas : PairTimeoutBlocksDelta)
    (symbol : string) :
  (wholeDeltas E newDeltas symbol
   /\ convertToBlocks newDeltas symbol = Ok (blocksOf E newDeltas symbol))
  \/ (~ wholeDeltas E newDeltas symbol
      /\ convertToBlocks newDeltas symbol
         = Throw INVALID_TIMEOUT_BLOCK_DELTA).
Proof.
  unfold TimeoutDeltaProvider.convertToBlocks, wholeDeltas.
  destruct (calculateBlocks_spec symbol (reverse newDeltas))
    as [[H1 ->] | [H1 ->]]; [| right; split; [tauto | reflexivity]].
  destruct (calculateBlocks_spec symbol (swapMinimal newDeltas))
    as [[H2 ->] | [H2 ->]]; [| right; split; [tauto | reflexivity]].
  destruct (calculateBlocks_spec symbol (swapMaximal newDeltas))
    as [[H3 ->] | [H3 ->]]; [| right; split; [tauto | reflexivity]].
  left. split; [tauto | reflexivity].
Qed.

Lemma minutesToBlocks_spec (pairId : string)
    (newDeltas : PairTimeoutBlocksDelta) :
  (validDeltas E splitPairId pairId newDeltas
   /\ minutesToBlocks pairId newDeltas
      = Ok {| base := blocksOf E newDeltas (splitPairId pairId).1;
              quote := blocksOf E newDeltas (splitPairId pairId).2 |})
  \/ (~ validDeltas E splitPairId pairId newDeltas
      /\ minutesToBlocks pairId newDeltas
         = Throw INVALID_TIMEOUT_BLOCK_DELTA).
Proof.
  unfold TimeoutDeltaProvider.minutesToBlocks, validDeltas.
  destruct (splitPairId pairId) as [b q]; simpl.
  destruct (convertToBlocks_spec newDeltas b)
    as [[H1 ->] | [H1 ->]]; [| right; split; [tauto | reflexivity]].
  destruct (convertToBlocks_spec newDeltas q)
    as [[H2 ->] | [H2 ->]]; [| right; split; [tauto | reflexivity]].
  left. split; [tauto | reflexivity].
Qed.

End MinutesToBlocksFacts.

(** ** TimeoutDeltaProvider: init and setTimeout *)

Section ProviderFacts.

Import Js TimeoutDeltaProvider.
Local Open Scope Q_scope.

Context (E : string).
Context (getPairId : PairConfig -> string).
Context (splitPairId : string -> string * string).
Context {Others : Type} (toml_stringify : ConfigType Others -> string).

Local Abbreviation minutesToBlocks := (minutesToBlocks E splitPairId).
Local Abbreviation initPair := (initPair E getPairId splitPairId).
Local Abbreviation init := (init E getPairId splitPairId).
Local Abbreviation setTimeout :=
  (setTimeout E getPairId splitPairId toml_stringify).

Lemma initPair_run (p : PairConfig) (w : World Others) :
  initPair p w =
    match Types.timeoutDelta p with
    | Some d =>
        match minutesToBlocks (getPairId p) (expandLegacy d) with
        | Ok blocks =>
            (Ok (setTimeoutDelta p (expandLegacy d)),
             setDeltas (getPairId p) blocks w)
        | Throw e => (Throw e, w)
        end
    | None => (Throw (NO_TIMEOUT_DELTA (getPairId p)), w)
    end.
Proof.
  unfold TimeoutDeltaProvider.initPair.
  destruct (Types.timeoutDelta p) as [d |]; [| reflexivity].
  unfold mbind, M_bind, bindM, liftR. simpl.
  destruct (minutesToBlocks (getPairId p) (expandLegacy d)); reflexivity.
Qed.

Lemma init_cons (p : PairConfig) (rest : list PairConfig) (w : World Others) :
  init (p :: rest) w =
    match initPair p w with
    | (Ok p', w1) =>
        match init rest w1 with
        | (Ok rest', w2) => (Ok (p' :: rest'), w2)
        | (Throw e, w2) => (Throw e, w2)
        end
    | (Throw e, w1) => (Throw e, w1)
    end.
Proof.
  simpl. unfold mbind, M_bind, bindM.
  destruct (initPair p w) as [[p' | e] w1]; [| reflexivity].
  destruct (init rest w1) as [[rest' | e] w2]; reflexivity.
Qed.

(** Where [init] returns, every entry had deltas, and valid ones. *)
Lemma init_ok_valid (ps ps' : list PairConfig) (w w' : World Others) :
  init ps w = (Ok ps', w') ->
  Forall (fun p => exists d, Types.timeoutDelta p = Some d
                             /\ validDeltas E splitPairId (getPairId p)
                                  (expandLegacy d)) ps.
Proof.
  revert ps' w w'. induction ps as [| p rest IH]; intros ps' w w' H.
  - constructor.
  - rewrite init_cons, initPair_run in H.
    destruct (Types.timeoutDelta p) as [d |] eqn:Ed; [| discriminate].
    destruct (minutesToBlocks_spec E splitPairId (getPairId p) (expandLegacy d))
      as [[Hv Eq] | [Hv Eq]]; rewrite Eq in H; [| discriminate].
    destruct (init rest _) as [[rest' | e] w2] eqn:Er; [| discriminate].
    constructor; [eauto | eapply IH; eassumption].
Qed.

(** [init] stops at the first entry whose deltas are not valid. *)
Lemma init_first_invalid (pre pre' post : list PairConfig) (p : PairConfig)
    (d : TimeoutDelta) (w w1 : World Others) :
  init pre w = (Ok pre', w1) ->
  Types.timeoutDelta p = Some d ->
  ~ validDeltas E splitPairId (getPairId p) (expandLegacy d) ->
  init (pre ++ p :: post) w = (Throw INVALID_TIMEOUT_BLOCK_DELTA, w1).
Proof.
  revert pre' w w1. induction pre as [| q pre IH]; intros pre' w w1 H Ed Hv.
  - simpl in H. injection H as <- <-. simpl app.
    rewrite init_cons, initPair_run, Ed.
    destruct (minutesToBlocks_spec E splitPairId (getPairId p) (expandLegacy d))
      as [[Hv' _] | [_ ->]]; [contradiction | reflexivity].
  - simpl app. rewrite init_cons in H |- *.
    destruct (initPair q w) as [[q' | e] w0]; [| discriminate].
    destruct (init pre w0) as [[pre0 | e] w2] eqn:Ep; [| discriminate].
    injection H as _ <-.
    rewrite (IH pre0 w0 w2 Ep Ed Hv). reflexivity.
Qed.

Lemma setTimeout_run (pairId : string) (d : PairTimeoutBlocksDelta)
    (w : World Others) :
  setTimeout pairId d w =
    if bool_decide (is_Some (timeoutDeltas w !! pairId)) then
      match minutesToBlocks pairId d with
      | Ok blocks =>
          let c := setConfigTimeout getPairId pairId d (config w) in
          (Ok tt,
           {| timeoutDeltas := <[pairId := blocks]> (timeoutDeltas w);
              config := c;
              currencies := currencies w;
              fs := Fs.writeFileSync (configpath (config w))
                      (toml_stringify c) (fs w) |})
      | Throw e => (Throw e, w)
      end
    else (Throw (PAIR_NOT_FOUND pairId), w).
Proof.
  unfold TimeoutDeltaProvider.setTimeout, mbind, M_bind, bindM, getsM, liftR.
  destruct (bool_decide (is_Some (timeoutDeltas w !! pairId)));
    [| reflexivity].
  destruct (minutesToBlocks pairId d); reflexivity.
Qed.

(** The loop of [setTimeout] changes the first entry of that id, and only
    its deltas. *)
Lemma setPairTimeout_spec (pairId : string) (d : PairTimeoutBlocksDelta)
    (ps : list PairConfig) :
  (Forall (fun q => getPairId q <> pairId) ps
   /\ setPairTimeout getPairId pairId d ps = ps)
  \/ (exists pre p post,
        ps = pre ++ p :: post
        /\ Forall (fun q => getPairId q <> pairId) pre
        /\ getPairId p = pairId
        /\ setPairTimeout getPairId pairId d ps
           = pre ++ setTimeoutDelta p d :: post).
Proof.
  induction ps as [| q rest IH]; simpl.
  - left. split; [constructor | reflexivity].
  - destruct (String.eqb (getPairId q) pairId) eqn:Eq.
    + apply String.eqb_eq in Eq. right. exists [], q, rest.
      repeat split; [constructor | exact Eq].
    + apply String.eqb_neq in Eq.
      destruct IH as [[Hall ->] | (pre & p & post & -> & Hpre & Hp & ->)].
      * left. split; [constructor; assumption | reflexivity].
      * right. exists (q :: pre), p, post.
        repeat split; [constructor; assumption | exact Hp].
Qed.

End ProviderFacts.

(** C8.  Each timeout-delta configuration that [init] or [setTimeout]
    processes goes through [minutesToBlocks], which succeeds exactly when
    each of the three minute values, divided by the block time of the base
    symbol and by that of the quote symbol, is an integer that is at least
    1, and fails with [INVALID_TIMEOUT_BLOCK_DELTA] otherwise.  [init]
    first expands a legacy single number to a table whose three values
    equal it; it returns only when every entry is valid and stops with
    [INVALID_TIMEOUT_BLOCK_DELTA] at the first one that is not;
    [setTimeout] on a known pair fails with it, changing nothing, when the
    new deltas are not valid. *)
Theorem timeout_deltas_are_whole_blocks
    (E : string) (getPairId : Types.PairConfig -> string)
    (splitPairId : string -> string * string) {Others : Type}
    (toml_stringify : Types.ConfigType Others -> string)
    (w : TimeoutDeltaProvider.World Others) :
  let valid := validDeltas E splitPairId in
  (forall pairId d,
      (valid pairId d
       /\ TimeoutDeltaProvider.minutesToBlocks E splitPairId pairId d
          = Ok {| TimeoutDeltaProvider.base :=
                    blocksOf E d (splitPairId pairId).1;
                  TimeoutDeltaProvider.quote :=
                    blocksOf E d (splitPairId pairId).2 |})
      \/ (~ valid pairId d
          /\ TimeoutDeltaProvider.minutesToBlocks E splitPairId pairId d
             = Throw INVALID_TIMEOUT_BLOCK_DELTA))
  /\ (forall n,
         TimeoutDeltaProvider.expandLegacy (Types.LegacyMinutes n)
         = {| Types.reverse := n; Types.swapMinimal := n;
              Types.swapMaximal := n |})
  /\ (forall p d,
         Types.timeoutDelta p = Some d ->
         let t := TimeoutDeltaProvider.expandLegacy d in
         (valid (getPairId p) t
          /\ exists blocks,
               TimeoutDeltaProvider.minutesToBlocks E splitPairId
                 (getPairId p) t = Ok blocks
               /\ TimeoutDeltaProvider.initPair E getPairId splitPairId p w
                  = (Ok (Types.setTimeoutDelta p t),
                     TimeoutDeltaProvider.setDeltas (getPairId p) blocks w))
         \/ (~ valid (getPairId p) t
             /\ (TimeoutDeltaProvider.initPair E getPairId splitPairId p w).1
                = Throw INVALID_TIMEOUT_BLOCK_DELTA))
  /\ (forall ps ps' w',
         TimeoutDeltaProvider.init E getPairId splitPairId ps w = (Ok ps', w') ->
         Forall (fun p => exists d,
                     Types.timeoutDelta p = Some d
                     /\ valid (getPairId p)
                          (TimeoutDeltaProvider.expandLegacy d)) ps)
  /\ (forall pre pre' p post d w1,
         TimeoutDeltaProvider.init E getPairId splitPairId pre w
         = (Ok pre', w1) ->
         Types.timeoutDelta p = Some d ->
         ~ valid (getPairId p) (TimeoutDeltaProvider.expandLegacy d) ->
         (TimeoutDeltaProvider.init E getPairId splitPairId
            (pre ++ p :: post) w).1
         = Throw INVALID_TIMEOUT_BLOCK_DELTA)
  /\ (forall pairId d,
         is_Some (TimeoutDeltaProvider.timeoutDeltas w !! pairId) ->
         (valid pairId d
          /\ (TimeoutDeltaProvider.setTimeout E getPairId splitPairId
                toml_stringify pairId d w).1 = Ok tt)
         \/ (~ valid pairId d
             /\ TimeoutDeltaProvider.setTimeout E getPairId splitPairId
                  toml_stringify pairId d w
                = (Throw INVALID_TIMEOUT_BLOCK_DELTA, w))).
Proof.
  intros valid. repeat apply conj.
  - intros pairId d. apply minutesToBlocks_spec.
  - reflexivity.
  - intros p d Ed t. rewrite initPair_run, Ed. fold t.
    destruct (minutesToBlocks_spec E splitPairId (getPairId p) t)
      as [[Hv Eq] | [Hv Eq]]; rewrite Eq.
    + left. split; [exact Hv |]. eexists. split; reflexivity.
    + right. split; [exact Hv | reflexivity].
  - intros ps ps' w'. apply init_ok_valid.
  - intros pre pre' p post d w1 Hpre Ed Hv.
    rewrite (init_first_invalid E getPairId splitPairId pre pre' post p d w
               w1 Hpre Ed Hv).
    reflexivity.
  - intros pairId d Hknown. rewrite setTimeout_run.
    rewrite (bool_decide_eq_true_2 _ Hknown).
    destruct (minutesToBlocks_spec E splitPairId pairId d)
      as [[Hv Eq] | [Hv Eq]]; rewrite Eq.
    + left. split; [exact Hv | reflexivity].
    + right. split; [exact Hv | reflexivity].
Qed.

(** A call of [setTimeout] for the pair the example provider knows, and
    [init] on a configuration of two pairs with legacy deltas. *)
Lemma timeout_deltas_are_whole_blocks_witness :
  let valid := validDeltas "L-BTC" Demo.splitPairId in
  ((valid "BTC/BTC"%string Demo.day
    /\ (TimeoutDeltaProvider.setTimeout "L-BTC" Demo.getPairId
          Demo.splitPairId Demo.stringify "BTC/BTC" Demo.day
          Demo.provider).1 = Ok tt)
   \/ (~ valid "BTC/BTC"%string Demo.day
       /\ TimeoutDeltaProvider.setTimeout "L-BTC" Demo.getPairId
            Demo.splitPairId Demo.stringify "BTC/BTC" Demo.day Demo.provider
          = (Throw INVALID_TIMEOUT_BLOCK_DELTA, Demo.provider)))
  /\ Forall (fun p => exists d,
                 Types.timeoutDelta p = Some d
                 /\ valid (Demo.getPairId p)
                      (TimeoutDeltaProvider.expandLegacy d))
       (Types.pairs (TimeoutDeltaProvider.config Demo.provider)).
Proof.
  intros valid.
  pose proof (timeout_deltas_are_whole_blocks "L-BTC" Demo.getPairId
                Demo.splitPairId Demo.stringify Demo.provider)
    as (_ & _ & _ & Hinit & _ & Hset).
  split.
  - apply Hset. eexists. vm_compute. reflexivity.
  - eapply Hinit. vm_compute. reflexivity.
Defined.

(** C9 (as the code has it).  For an unknown pair [setTimeout] fails with
    [PAIR_NOT_FOUND] and changes neither the map, the configuration nor
    the file system.  For a known pair with valid deltas it sets the
    pair's entry of the map, changes in the configuration only the
    [timeoutDelta] of the first entry of that pair (every other entry and
    field stays), and writes the serialized configuration to the config
    path with one [writeFileSync]: the log of the file system grows by
    that single write, with no temporary file and no rename. *)
Theorem setTimeout_changes_one_pair_and_writes_in_place
    (E : string) (getPairId : Types.PairConfig -> string)
    (splitPairId : string -> string * string) {Others : Type}
    (toml_stringify : Types.ConfigType Others -> string)
    (w : TimeoutDeltaProvider.World Others)
    (pairId : string) (d : Types.PairTimeoutBlocksDelta) :
  let run :=
    TimeoutDeltaProvider.setTimeout E getPairId splitPairId toml_stringify
      pairId d w in
  (TimeoutDeltaProvider.timeoutDeltas w !! pairId = None ->
   run = (Throw (PAIR_NOT_FOUND pairId), w))
  /\ (is_Some (TimeoutDeltaProvider.timeoutDeltas w !! pairId) ->
      forall blocks,
        TimeoutDeltaProvider.minutesToBlocks E splitPairId pairId d
        = Ok blocks ->
        exists w',
          run = (Ok tt, w')
          /\ TimeoutDeltaProvider.timeoutDeltas w'
             = <[pairId := blocks]> (TimeoutDeltaProvider.timeoutDeltas w)
          /\ TimeoutDeltaProvider.currencies w'
             = TimeoutDeltaProvider.currencies w
          /\ Types.configpath (TimeoutDeltaProvider.config w')
             = Types.configpath (TimeoutDeltaProvider.config w)
          /\ Types.others (TimeoutDeltaProvider.config w')
             = Types.others (TimeoutDeltaProvider.config w)
          /\ ((Forall (fun q => getPairId q <> pairId)
                 (Types.pairs (TimeoutDeltaProvider.config w))
               /\ Types.pairs (TimeoutDeltaProvider.config w')
                  = Types.pairs (TimeoutDeltaProvider.config w))
              \/ (exists pre p p' post,
                    Types.pairs (TimeoutDeltaProvider.config w)
                    = pre ++ p :: post
                    /\ Forall (fun q => getPairId q <> pairId) pre
                    /\ getPairId p = pairId
                    /\ Types.pairs (TimeoutDeltaProvider.config w')
                       = pre ++ p' :: post
                    /\ Types.base p' = Types.base p
                    /\ Types.quote p' = Types.quote p
                    /\ Types.rate p' = Types.rate p
                    /\ Types.fee p' = Types.fee p
                    /\ Types.timeoutDelta p' = Some (Types.DeltaTable d)))
          /\ Fs.log (TimeoutDeltaProvider.fs w')
             = Fs.log (TimeoutDeltaProvider.fs w)
               ++ [Fs.WriteFile
                     (Types.configpath (TimeoutDeltaProvider.config w))
                     (toml_stringify (TimeoutDeltaProvider.config w'))]
          /\ Fs.files (TimeoutDeltaProvider.fs w')
             = <[Types.configpath (TimeoutDeltaProvider.config w)
                 := toml_stringify (TimeoutDeltaProvider.config w')]>
                 (Fs.files (TimeoutDeltaProvider.fs w))).
Proof.
  intros run. subst run. rewrite setTimeout_run. split.
  - intros Hnone. rewrite bool_decide_eq_false_2; [reflexivity |].
    rewrite Hnone. intros [? ?]. discriminate.
  - intros Hknown blocks Eq.
    rewrite (bool_decide_eq_true_2 _ Hknown), Eq.
    eexists. split; [reflexivity |]. simpl.
    repeat (split; [reflexivity |]).
    split; [| split; reflexivity].
    destruct (setPairTimeout_spec getPairId pairId d
                (Types.pairs (TimeoutDeltaProvider.config w)))
      as [[Hall Eq'] | (pre & p & post & Eps & Hpre & Hp & Eq')].
    + left. split; assumption.
    + right. exists pre, p, (Types.setTimeoutDelta p d), post.
      repeat (split; [first [assumption | reflexivity] |]). reflexivity.
Qed.

(** The known pair of the example provider, with deltas of one day. *)
Lemma setTimeout_changes_one_pair_witness :
  exists w',
    TimeoutDeltaProvider.setTimeout "L-BTC" Demo.getPairId Demo.splitPairId
      Demo.stringify "BTC/BTC" Demo.day Demo.provider = (Ok tt, w')
    /\ Fs.log (TimeoutDeltaProvider.fs w')
       = [Fs.WriteFile "boltz.conf"
            (Demo.stringify (TimeoutDeltaProvider.config w'))].
Proof.
  destruct (setTimeout_changes_one_pair_and_writes_in_place "L-BTC"
              Demo.getPairId Demo.splitPairId Demo.stringify Demo.provider
              "BTC/BTC" Demo.day) as [_ H].
  edestruct H as (w' & Erun & _ & _ & _ & _ & _ & Hlog & _).
  - eexists. vm_compute. reflexivity.
  - vm_compute. reflexivity.
  - exists w'. split; [exact Erun | exact Hlog].
Defined.

(** C9 as stated fails: the rewrite of the config file is one write to the
    config path itself; no temporary file is written and nothing is
    renamed. *)
Lemma setTimeout_does_not_rename :
  let w' :=
    (TimeoutDeltaProvider.setTimeout "L-BTC" Demo.getPairId Demo.splitPairId
       Demo.stringify "BTC/BTC" Demo.day Demo.provider).2 in
  Fs.log (TimeoutDeltaProvider.fs w')
  = [Fs.WriteFile "boltz.conf" "LTC/BTC:number;BTC/BTC:table;"]
  /\ ~ exists data,
         rewrittenAtomically (TimeoutDeltaProvider.fs Demo.provider)
           (TimeoutDeltaProvider.fs w') "boltz.conf" data.
Proof.
  intros w'.
  assert (Hlog : Fs.log (TimeoutDeltaProvider.fs w')
                 = [Fs.WriteFile "boltz.conf"
                      "LTC/BTC:number;BTC/BTC:table;"])
    by (vm_compute; reflexivity).
  split; [exact Hlog |].
  intros (data & tmp & _ & H). rewrite Hlog in H. discriminate H.
Qed.

(** ** TimeoutDeltaProvider: the timeout of a swap with an invoice *)

Lemma Math_max_Qmax (x y : Q) : (Js.Math_max x y == Qmax x y)%Q.
Proof.
  destruct (Math_max_spec x y) as [[H ->] | [H ->]].
  - symmetry. now apply Q.max_r.
  - symmetry. now apply Q.max_l.
Qed.

(** A timeout query for a submarine swap with an invoice is answered by
    [getTimeoutInvoice], with the deltas of the quote as those of the
    chain on a buy order and those of the base on a sell order. *)
Lemma getTimeout_with_invoice
    (E : string) (paymentMaxParts : Q)
    (splitPairId : string -> string * string)
    (getChainCurrency getLightningCurrency :
       string -> string -> OrderSide -> bool -> string)
    {Others : Type} (w : TimeoutDeltaProvider.World Others)
    (pairId invoice : string) (orderSide : OrderSide)
    (timeouts : TimeoutDeltaProvider.PairTimeoutBlockDeltas) :
  TimeoutDeltaProvider.timeoutDeltas w !! pairId = Some timeouts ->
  invoice <> EmptyString ->
  TimeoutDeltaProvider.getTimeout E paymentMaxParts splitPairId
    getChainCurrency getLightningCurrency w pairId orderSide false
    (Some invoice)
  = TimeoutDeltaProvider.getTimeoutInvoice E paymentMaxParts
      (TimeoutDeltaProvider.currencies w)
      (getChainCurrency (splitPairId pairId).1 (splitPairId pairId).2
         orderSide false)
      (getLightningCurrency (splitPairId pairId).1 (splitPairId pairId).2
         orderSide false)
      (if decide (orderSide = BUY) then TimeoutDeltaProvider.quote timeouts
       else TimeoutDeltaProvider.base timeouts)
      (if decide (orderSide = BUY) then TimeoutDeltaProvider.base timeouts
       else TimeoutDeltaProvider.quote timeouts)
      invoice.
Proof.
  intros Hp Hinv. unfold TimeoutDeltaProvider.getTimeout. rewrite Hp.
  destruct (splitPairId pairId) as [b q]. cbn [fst snd].
  unfold TimeoutDeltaProvider.truthy.
  apply String.eqb_neq in Hinv. rewrite Hinv. reflexivity.
Qed.

(** C5 (as the code has it).  A timeout query with an invoice that
    decodes awaits the routability check together with the chain info of
    the chain client of the lightning currency, and fails where that
    fails, whatever the check yields: with a [TypeError] when the
    currency has no chain client, with the error of [getBlockchainInfo]
    when it rejects.  When the chain info is there, with [routeTimeLock]
    what the routability check yields, the result is
    [(chainΔ.swapMaximal, false)] when that is the [noRoutes] sentinel;
    otherwise, with [routeDeltaBlocks = routeTimeLock - blocks],
    [finalExpiryMinutes = ceil (routeDeltaBlocks * blockTime ln) + 60] and
    [minTimeout = ceil (finalExpiryMinutes / blockTime chain)], it fails
    with [MIN_EXPIRY_TOO_BIG] iff [minTimeout > chainΔ.swapMaximal] and
    else returns [(max chainΔ.swapMinimal minTimeout, true)]. *)
Theorem getTimeoutInvoice_result
    (E : string) (paymentMaxParts : Q) (currs : gmap string Currency)
    (chainCurrency lightningCurrency invoice : string)
    (chainTimeout lightningTimeout : Types.PairTimeoutBlocksDelta)
    (cur : Currency) (lnd : Lnd.LndClient) (decodedInvoice : Lnd.PayReq) :
  currs !! lightningCurrency = Some cur ->
  lndClient cur = Some lnd ->
  Lnd.decodePayReqRawResponse lnd invoice = Ok decodedInvoice ->
  let blockTime := TimeoutDeltaProvider.getBlockTime E in
  let routeTimeLock :=
    TimeoutDeltaProvider.checkRoutability paymentMaxParts lnd decodedInvoice
      (Types.swapMaximal lightningTimeout) in
  let result :=
    TimeoutDeltaProvider.getTimeoutInvoice E paymentMaxParts currs
      chainCurrency lightningCurrency chainTimeout lightningTimeout invoice in
  (chainClient cur = None -> result = Throw TypeError)
  /\ (forall client e,
         chainClient cur = Some client ->
         getBlockchainInfo client = Throw e ->
         result = Throw e)
  /\ (forall client chainInfo,
         chainClient cur = Some client ->
         getBlockchainInfo client = Ok chainInfo ->
         let routeDeltaBlocks := (routeTimeLock - blocks chainInfo)%Q in
         let finalExpiryMinutes :=
           (Js.Math_ceil (routeDeltaBlocks * blockTime lightningCurrency)
            + 60)%Q in
         let minTimeout :=
           Js.Math_ceil (finalExpiryMinutes / blockTime chainCurrency) in
         ((routeTimeLock == TimeoutDeltaProvider.noRoutes)%Q ->
          result = Ok (Types.swapMaximal chainTimeout, false))
         /\ (~ (routeTimeLock == TimeoutDeltaProvider.noRoutes)%Q ->
             ((exists maxMinutes routeMinutes,
                  result = Throw (MIN_EXPIRY_TOO_BIG maxMinutes routeMinutes))
              <-> (Types.swapMaximal chainTimeout < minTimeout)%Q)
             /\ ((minTimeout <= Types.swapMaximal chainTimeout)%Q ->
                 exists cltv,
                   result = Ok (cltv, true)
                   /\ (cltv
                       == Qmax (Types.swapMinimal chainTimeout) minTimeout)%Q))).
Proof.
  intros Hcur Hlnd Hdec blockTime routeTimeLock result.
  assert (Hstart : result =
    bindR (deref (chainClient cur))
      (fun chain =>
         bindR (getBlockchainInfo chain)
           (fun chainInfo =>
              if Qeq_bool routeTimeLock TimeoutDeltaProvider.noRoutes
              then Ok (Types.swapMaximal chainTimeout, false)
              else
                let routeDeltaRelative :=
                  (routeTimeLock - blocks chainInfo)%Q in
                let routeDeltaMinutes :=
                  Js.Math_ceil
                    (routeDeltaRelative * blockTime lightningCurrency) in
                let minTimeout :=
                  Js.Math_ceil
                    ((routeDeltaMinutes + TimeoutDeltaProvider.routingOffset)
                     / blockTime chainCurrency) in
                if Js.gt minTimeout (Types.swapMaximal chainTimeout)
                then Throw (MIN_EXPIRY_TOO_BIG
                              (Js.Math_ceil (Types.swapMaximal chainTimeout
                                             * blockTime chainCurrency))
                              routeDeltaMinutes)
                else Ok (Js.Math_max (Types.swapMinimal chainTimeout)
                           minTimeout, true)))).
  { subst result. unfold TimeoutDeltaProvider.getTimeoutInvoice.
    rewrite Hcur. cbn. rewrite Hlnd. cbn. rewrite Hdec. cbn. reflexivity. }
  split; [| split].
  - intros Hnone. rewrite Hstart, Hnone. reflexivity.
  - intros client e Hchain Herr. rewrite Hstart, Hchain. cbn.
    rewrite Herr. reflexivity.
  - intros client chainInfo Hchain Hinfo routeDeltaBlocks finalExpiryMinutes
      minTimeout.
    assert (Hrun : result =
      if Qeq_bool routeTimeLock TimeoutDeltaProvider.noRoutes
      then Ok (Types.swapMaximal chainTimeout, false)
      else if Js.gt minTimeout (Types.swapMaximal chainTimeout)
      then Throw (MIN_EXPIRY_TOO_BIG
                    (Js.Math_ceil (Types.swapMaximal chainTimeout
                                   * blockTime chainCurrency))
                    (Js.Math_ceil (routeDeltaBlocks
                                   * blockTime lightningCurrency)))
      else Ok (Js.Math_max (Types.swapMinimal chainTimeout) minTimeout, true)).
    { rewrite Hstart, Hchain. cbn. rewrite Hinfo. cbn. reflexivity. }
    rewrite Hrun. split.
    + intros Hno. apply Qeq_bool_iff in Hno. rewrite Hno. reflexivity.
    + intros Hroutes.
      destruct (Qeq_bool routeTimeLock TimeoutDeltaProvider.noRoutes) eqn:Eq.
      { apply Qeq_bool_iff in Eq. contradiction. }
      destruct (Js.gt minTimeout (Types.swapMaximal chainTimeout)) eqn:Egt.
      * apply gt_spec in Egt. split.
        -- split; [intros _; exact Egt | intros _; eauto].
        -- intros Hle. lra.
      * apply gt_false in Egt. split.
        -- split; [intros (? & ? & ?); discriminate | intros Hlt; lra].
        -- intros _. eexists. split; [reflexivity | apply Math_max_Qmax].
Qed.

(** An invoice whose route needs 400 blocks of BTC, on a chain side that
    allows 144 at most. *)
Lemma getTimeoutInvoice_result_witness :
  exists maxMinutes routeMinutes,
    TimeoutDeltaProvider.getTimeoutInvoice "L-BTC" 4%Q
      (Demo.currencies (Some 800400%Q) (Throw TypeError))
      "BTC" "BTC" Demo.btcDeltas Demo.btcDeltas "lnbc1"
    = Throw (MIN_EXPIRY_TOO_BIG maxMinutes routeMinutes).
Proof.
  pose proof (getTimeoutInvoice_result "L-BTC" 4%Q
                (Demo.currencies (Some 800400%Q) (Throw TypeError))
                "BTC" "BTC" "lnbc1" Demo.btcDeltas Demo.btcDeltas
                (Demo.btc (Some 800400%Q) (Throw TypeError))
                (Demo.lnd (Some 800400%Q) (Throw TypeError))
                Demo.payReq
                ltac:(vm_compute; reflexivity) eq_refl eq_refl)
    as (_ & _ & Hinfo).
  destruct (Hinfo Demo.chain {| blocks := 800000%Q |} eq_refl eq_refl)
    as [_ H].
  apply H.
  - vm_compute. discriminate.
  - vm_compute. reflexivity.
Defined.

(** C5 as stated fails: when no route is found and the chain client
    cannot be reached, the query fails with the error of
    [getBlockchainInfo]; it does not return the maximal timeout. *)
Lemma getTimeoutInvoice_no_routes_chain_unreachable :
  let routeTimeLock :=
    TimeoutDeltaProvider.checkRoutability 4%Q
      (Demo.lnd None (Throw TypeError)) Demo.payReq
      (Types.swapMaximal Demo.btcDeltas) in
  let result :=
    TimeoutDeltaProvider.getTimeoutInvoice "L-BTC" 4%Q
      Demo.unreachableCurrencies "BTC" "BTC" Demo.btcDeltas Demo.btcDeltas
      "lnbc1" in
  (routeTimeLock == TimeoutDeltaProvider.noRoutes)%Q
  /\ result = Throw (Rejected "connection refused")
  /\ ~ noRoutesGivesMaximal routeTimeLock Demo.btcDeltas result.
Proof.
  intros routeTimeLock result.
  assert (Hno : (routeTimeLock == TimeoutDeltaProvider.noRoutes)%Q)
    by (vm_compute; reflexivity).
  assert (Hres : result = Throw (Rejected "connection refused"))
    by (vm_compute; reflexivity).
  split; [exact Hno |]. split; [exact Hres |].
  intros H. specialize (H Hno). rewrite Hres in H. discriminate H.
Qed.

(** The same query evaluated: 1440 minutes are the most the chain side
    allows, 4000 are needed to route. *)
Example getTimeoutInvoice_expiry_too_big :
  TimeoutDeltaProvider.getTimeoutInvoice "L-BTC" 4%Q
    (Demo.currencies (Some 800400%Q) (Throw TypeError))
    "BTC" "BTC" Demo.btcDeltas Demo.btcDeltas "lnbc1"
  = Throw (MIN_EXPIRY_TOO_BIG 1440%Q 4000%Q).
Proof. vm_compute. reflexivity. Qed.

(** With no route the swap is accepted with the maximal timeout and
    flagged. *)
Example getTimeoutInvoice_no_routes :
  TimeoutDeltaProvider.getTimeoutInvoice "L-BTC" 4%Q
    (Demo.currencies None (Throw TypeError))
    "BTC" "BTC" Demo.btcDeltas Demo.btcDeltas "lnbc1"
  = Ok (144%Q, false).
Proof. vm_compute. reflexivity. Qed.

(** ** Service: verifyAmount *)

Section VerifyAmountFacts.

Import Js Service.
Local Open Scope Q_scope.

Context (splitPairId : string -> string * string).
Context (pairs : gmap string PairType).

Lemma verifyAmount_run (pairId : string) (p : PairType) (lim : Limits)
    (rate amount : number) (side : OrderSide) (type : SwapType) :
  pairs !! pairId = Some p ->
  limits p = Some lim ->
  verifyAmount splitPairId pairs pairId rate amount side type =
    let a := normalize rate amount side type in
    if gt (Math_floor a) (maximal lim)
    then Throw (EXCEED_MAXIMAL_AMOUNT a (maximal lim))
    else if lt (Math_ceil a) (minimal lim)
    then Throw (BENEATH_MINIMAL_AMOUNT a (minimal lim))
    else Ok tt.
Proof.
  intros Hp Hlim. unfold verifyAmount, getPair.
  destruct (splitPairId pairId) as [b q]. rewrite Hp. cbn. rewrite Hlim.
  reflexivity.
Qed.

Lemma converts_spec (side : OrderSide) (type : SwapType) :
  converts side type = true
  <-> (type <> ReverseSubmarine /\ side = BUY)
      \/ (type = ReverseSubmarine /\ side = SELL).
Proof.
  unfold converts.
  rewrite orb_true_iff, !andb_true_iff, negb_true_iff, !bool_decide_eq_true,
    bool_decide_eq_false.
  tauto.
Qed.

Lemma floor_ceil_integer (a : number) (k : Z) :
  a == inject_Z k -> Math_floor a == a /\ Math_ceil a == a.
Proof.
  intros E. unfold Math_floor, Math_ceil.
  rewrite (Qfloor_comp _ _ E), (Qceiling_comp _ _ E), Qfloor_Z, Qceiling_Z.
  split; symmetry; exact E.
Qed.

End VerifyAmountFacts.

(** C3 (as the code has it).  For a pair with limits, [verifyAmount]
    replaces the amount by [floor (amount * rate)] exactly when
    (kind ≠ ReverseSubmarine and side = BUY) or (kind = ReverseSubmarine
    and side = SELL).  With [a] the amount after that step, it fails with
    [EXCEED_MAXIMAL_AMOUNT] iff [floor a > maximal], fails with
    [BENEATH_MINIMAL_AMOUNT] iff [floor a <= maximal] and
    [ceil a < minimal], and accepts iff [floor a <= maximal] and
    [ceil a >= minimal].  When [a] is an integer, as it is after the
    conversion, it accepts iff [minimal <= a <= maximal]. *)
Theorem verifyAmount_checks_rounded_amount
    (splitPairId : string -> string * string)
    (pairs : gmap string Service.PairType) (pairId : string)
    (p : Service.PairType) (lim : Service.Limits) (rate amount : Q)
    (side : OrderSide) (type : SwapType) :
  pairs !! pairId = Some p ->
  Service.limits p = Some lim ->
  let converted :=
    (type <> ReverseSubmarine /\ side = BUY)
    \/ (type = ReverseSubmarine /\ side = SELL) in
  let a := Service.normalize rate amount side type in
  let result :=
    Service.verifyAmount splitPairId pairs pairId rate amount side type in
  ((converted -> a = Js.Math_floor (amount * rate))
   /\ (~ converted -> a = amount)
   /\ (result = Throw (EXCEED_MAXIMAL_AMOUNT a (Service.maximal lim))
       <-> Service.maximal lim < Js.Math_floor a)
   /\ (result = Throw (BENEATH_MINIMAL_AMOUNT a (Service.minimal lim))
       <-> Js.Math_floor a <= Service.maximal lim
           /\ Js.Math_ceil a < Service.minimal lim)
   /\ (result = Ok tt
       <-> Js.Math_floor a <= Service.maximal lim
           /\ Service.minimal lim <= Js.Math_ceil a)
   /\ ((exists k : Z, a == inject_Z k) ->
       acceptsIffWithinLimits result a lim)
   /\ (converted -> acceptsIffWithinLimits result a lim))%Q.
Proof.
  intros Hp Hlim converted a result.
  assert (Hrun := verifyAmount_run splitPairId pairs pairId p lim rate amount
                    side type Hp Hlim).
  fold result in Hrun. cbn zeta in Hrun. fold a in Hrun.
  assert (Hconv : Service.converts side type = true <-> converted)
    by apply converts_spec.
  assert (Hacc : (result = Ok tt
                  <-> Js.Math_floor a <= Service.maximal lim
                      /\ Service.minimal lim <= Js.Math_ceil a)%Q).
  { rewrite Hrun.
    destruct (Js.gt (Js.Math_floor a) (Service.maximal lim)) eqn:Egt.
    - apply gt_spec in Egt. split; [discriminate | intros [H _]; lra].
    - apply gt_false in Egt.
      destruct (Js.lt (Js.Math_ceil a) (Service.minimal lim)) eqn:Elt.
      + apply lt_spec in Elt. split; [discriminate | intros [_ H]; lra].
      + apply lt_false in Elt. split; [intros _; tauto | reflexivity]. }
  assert (Hint : (exists k : Z, (a == inject_Z k)%Q) ->
                 acceptsIffWithinLimits result a lim).
  { intros [k Hk]. unfold acceptsIffWithinLimits. rewrite Hacc.
    destruct (floor_ceil_integer a k Hk) as [-> ->]. tauto. }
  repeat match goal with |- _ /\ _ => split end.
  - intros Hc. apply Hconv in Hc. subst a. unfold Service.normalize.
    rewrite Hc. reflexivity.
  - intros Hc. subst a. unfold Service.normalize.
    destruct (Service.converts side type) eqn:Ec; [| reflexivity].
    apply converts_spec in Ec. contradiction.
  - rewrite Hrun.
    destruct (Js.gt (Js.Math_floor a) (Service.maximal lim)) eqn:Egt.
    + apply gt_spec in Egt. tauto.
    + apply gt_false in Egt.
      split; [| intros H; lra].
      destruct (Js.lt _ _); discriminate.
  - rewrite Hrun.
    destruct (Js.gt (Js.Math_floor a) (Service.maximal lim)) eqn:Egt.
    + apply gt_spec in Egt. split; [discriminate | intros [H _]; lra].
    + apply gt_false in Egt.
      destruct (Js.lt (Js.Math_ceil a) (Service.minimal lim)) eqn:Elt.
      * apply lt_spec in Elt. tauto.
      * apply lt_false in Elt. split; [discriminate | intros [_ H]; lra].
  - exact Hacc.
  - exact Hint.
  - intros Hc. apply Hint. apply Hconv in Hc. subst a.
    unfold Service.normalize. rewrite Hc.
    exists (Qfloor (amount * rate)). reflexivity.
Qed.

(** A buy order of a submarine swap for 100 000 at rate 1, within limits
    of 10 000 to 1 000 000. *)
Lemma verifyAmount_checks_rounded_amount_witness :
  acceptsIffWithinLimits
    (Service.verifyAmount Demo.splitPairId Demo.pairs "BTC/BTC" 1%Q 100000%Q
       BUY Submarine)
    (Service.normalize 1%Q 100000%Q BUY Submarine)
    {| Service.minimal := 10000%Q; Service.maximal := 1000000%Q |}.
Proof.
  apply (verifyAmount_checks_rounded_amount Demo.splitPairId Demo.pairs
           "BTC/BTC"
           {| Service.rate := 1%Q;
              Service.limits := Demo.limits 10000%Q 1000000%Q |}
           {| Service.minimal := 10000%Q; Service.maximal := 1000000%Q |}
           1%Q 100000%Q BUY Submarine).
  - vm_compute. reflexivity.
  - reflexivity.
  - left. split; [discriminate | reflexivity].
Defined.

(** C3 as stated fails twice.  An amount that is not converted and not an
    integer is accepted above the maximal: 10.5 with limits of 1 to 10.
    And with a minimal above the maximal, an amount between the two fails
    with [EXCEED_MAXIMAL_AMOUNT] although its ceiling is below the
    minimal: 50 with a maximal of 10 and a minimal of 100. *)
Lemma verifyAmount_limits_not_exact :
  ~ acceptsIffWithinLimits
      (Service.verifyAmount Demo.splitPairId Demo.smallPairs "BTC/BTC" 1%Q
         (21 # 2)%Q BUY ReverseSubmarine)
      (Service.normalize 1%Q (21 # 2)%Q BUY ReverseSubmarine)
      {| Service.minimal := 1%Q; Service.maximal := 10%Q |}
  /\ ~ beneathIffCeilingBelow
         (Service.verifyAmount Demo.splitPairId Demo.smallPairs "LTC/BTC" 1%Q
            50%Q BUY ReverseSubmarine)
         (Service.normalize 1%Q 50%Q BUY ReverseSubmarine)
         {| Service.minimal := 100%Q; Service.maximal := 10%Q |}.
Proof.
  split.
  - intros [H _].
    assert (E : Service.verifyAmount Demo.splitPairId Demo.smallPairs
                  "BTC/BTC" 1%Q (21 # 2)%Q BUY ReverseSubmarine = Ok tt)
      by (vm_compute; reflexivity).
    destruct (H E) as [_ Hmax]. vm_compute in Hmax. apply Hmax. reflexivity.
  - intros [_ H].
    assert (E : Service.verifyAmount Demo.splitPairId Demo.smallPairs
                  "LTC/BTC" 1%Q 50%Q BUY ReverseSubmarine
                = Throw (EXCEED_MAXIMAL_AMOUNT 50%Q 10%Q))
      by (vm_compute; reflexivity).
    destruct H as (a & m & H); [vm_compute; reflexivity |].
    rewrite E in H. discriminate H.
Qed.

(** ** Service: creation of swaps *)

Lemma app_singleton_neq {A} (l : list A) (x : A) : l ++ [x] <> l.
Proof.
  intros H. apply (f_equal length) in H. rewrite length_app in H.
  simpl in H. lia.
Qed.

Section CreationFacts.

Import Js Service.
Local Open Scope Q_scope.

Context (splitPairId : string -> string * string).
Context (getChainCurrency getLightningCurrency :
           string -> string -> OrderSide -> bool -> string).
Context (getInvoiceAmt : string -> Res number).
Context (getRate : number -> OrderSide -> SwapType -> number).
Context (getSwapMemo : string -> SwapType -> string).
Context (encodeBip21 : string -> string -> number -> string -> string).
Context (pairs : gmap string PairType).
Context (rateProvider_acceptZeroConf : string -> number -> bool).
Context (feeProvider_getFees :
           string -> number -> OrderSide -> number -> SwapType -> Res Fees).
Context (timeoutDeltaProvider_getTimeout :
           string -> OrderSide -> SwapType -> Res number).
Context (wallets : gmap string Wallet).
Context (swapManager_createSwap : CreateSwapArgs -> Res SwapDetails).
Context (swapManager_createReverseSwap :
           CreateReverseSwapArgs -> Res ReverseSwapDetails).
Context (idSource : nat -> string).

Local Abbreviation getPair := (getPair splitPairId pairs).
Local Abbreviation verifyAmount := (verifyAmount splitPairId pairs).
Local Abbreviation createSwap :=
  (createSwap splitPairId getChainCurrency getLightningCurrency
     getInvoiceAmt getRate getSwapMemo encodeBip21 pairs
     rateProvider_acceptZeroConf feeProvider_getFees
     timeoutDeltaProvider_getTimeout wallets swapManager_createSwap
     idSource).
Local Abbreviation createReverseSwap :=
  (createReverseSwap splitPairId getChainCurrency getRate pairs
     feeProvider_getFees timeoutDeltaProvider_getTimeout wallets
     swapManager_createReverseSwap idSource).

Lemma getSwapOutputType_error (chainCurrency : string) (isReverse : bool)
    (e : Error) :
  getSwapOutputType wallets chainCurrency isReverse = Throw e ->
  e = CURRENCY_NOT_FOUND chainCurrency.
Proof using Type.
  unfold getSwapOutputType.
  destruct (wallets !! chainCurrency) as [wallet |]; [| congruence].
  destruct (negb (supportsSegwit wallet)); discriminate.
Qed.

(** C4.  A reverse swap whose creation passes the amount verification
    (and the steps before it, and gets its fees): with
    [onchainAmount = floor (invoiceAmount * rate) - (baseFee + percentageFee)],
    creation fails with [ONCHAIN_AMOUNT_TOO_LOW], before anything is
    written or the swap manager is called, iff [onchainAmount < 1].  Every
    reverse swap created is returned, handed to the swap manager and
    persisted with that [onchainAmount], which is at least 1, and
    [onchainAmount + baseFee + percentageFee <= invoiceAmount * rate]. *)
Theorem createReverseSwap_onchainAmount
    (w : World) (pairId orderSide : string) (invoiceAmount : number)
    (claimPublicKey : Buffer) (b q : string) (p : PairType)
    (side : OrderSide) (delta : number) (fees : Fees) :
  allowReverseSwaps w = true ->
  getPair pairId = Ok (b, q, p) ->
  getOrderSide orderSide = Ok side ->
  let rate := getRate (Service.rate p) side ReverseSubmarine in
  timeoutDeltaProvider_getTimeout pairId side ReverseSubmarine = Ok delta ->
  verifyAmount pairId rate invoiceAmount side ReverseSubmarine = Ok tt ->
  feeProvider_getFees pairId rate side invoiceAmount ReverseSubmarine
  = Ok fees ->
  let onchainAmount :=
    Math_floor (invoiceAmount * rate) - (baseFee fees + percentageFee fees) in
  let run :=
    createReverseSwap pairId orderSide invoiceAmount claimPublicKey w in
  (run = (Throw ONCHAIN_AMOUNT_TOO_LOW, w) <-> onchainAmount < 1)
  /\ (forall r w',
         run = (Ok r, w') ->
         v_onchainAmount r = onchainAmount
         /\ 1 <= onchainAmount
         /\ onchainAmount + baseFee fees + percentageFee fees
            <= invoiceAmount * rate
         /\ (exists args,
                managerCalls w'
                = managerCalls w ++ [CreateReverseSwapCall args]
                /\ cr_onchainAmount args = onchainAmount)
         /\ (exists row,
                reverseSwapRepository w' = reverseSwapRepository w ++ [row]
                /\ r_onchainAmount row = onchainAmount
                /\ r_fee row = percentageFee fees
                /\ r_status row = Some TransactionMempool)).
Proof using Type.
  clear getLightningCurrency getInvoiceAmt getSwapMemo encodeBip21
    rateProvider_acceptZeroConf swapManager_createSwap.
  intros Hallow Hpair Hside rate Hdelta Hverify Hfees onchainAmount run.
  assert (Hrun : run =
    if lt onchainAmount 1 then (Throw ONCHAIN_AMOUNT_TOO_LOW, w)
    else
      match getSwapOutputType wallets (getChainCurrency b q side true) true
      with
      | Throw e => (Throw e, w)
      | Ok outputType =>
          let args :=
            {| cr_base := b; cr_quote := q; cr_side := side;
               cr_invoiceAmount := invoiceAmount;
               cr_onchainAmount := onchainAmount;
               cr_claimPublicKey := claimPublicKey;
               cr_outputType := outputType;
               cr_timeoutBlockDelta := delta |} in
          bindM (callManager (CreateReverseSwapCall args)
                   (swapManager_createReverseSwap args))
            (fun d =>
               bindM (generateId idSource)
                 (fun id =>
                    bindM (addReverseSwap
                             {| r_id := id; r_invoice := rd_invoice d;
                                r_minerFee := rd_minerFee d;
                                r_keyIndex := rd_keyIndex d;
                                r_redeemScript := rd_redeemScript d;
                                r_onchainAmount := onchainAmount;
                                r_timeoutBlockHeight :=
                                  rd_timeoutBlockHeight d;
                                r_pair := pairId; r_orderSide := side;
                                r_fee := percentageFee fees;
                                r_transactionId := rd_lockupTransactionId d;
                                r_status := Some TransactionMempool |})
                      (fun _ =>
                         retM {| v_id := id; v_invoice := rd_invoice d;
                                 v_redeemScript := rd_redeemScript d;
                                 v_onchainAmount := onchainAmount;
                                 v_lockupTransaction :=
                                   rd_lockupTransaction d;
                                 v_timeoutBlockHeight :=
                                   rd_timeoutBlockHeight d;
                                 v_lockupTransactionId :=
                                   rd_lockupTransactionId d |}))) w
      end).
  { subst run. unfold Service.createReverseSwap.
    unfold mbind, M_bind, mret, M_ret. unfold bindM at 1. unfold getsM at 1.
    rewrite Hallow. cbn [negb].
    unfold bindM at 1. unfold liftR at 1. rewrite Hpair.
    unfold bindM at 1. unfold liftR at 1. rewrite Hside.
    unfold bindM at 1. unfold liftR at 1. fold rate. rewrite Hdelta.
    unfold bindM at 1. unfold liftR at 1. rewrite Hverify.
    unfold bindM at 1. unfold liftR at 1. rewrite Hfees.
    fold onchainAmount.
    destruct (lt onchainAmount 1); [reflexivity |].
    unfold bindM at 1. unfold liftR at 1.
    destruct (getSwapOutputType wallets (getChainCurrency b q side true) true);
      reflexivity. }
  assert (Hfloor : onchainAmount + baseFee fees + percentageFee fees
                   <= invoiceAmount * rate).
  { subst onchainAmount.
    pose proof (Math_floor_le (invoiceAmount * rate)). lra. }
  split.
  - rewrite Hrun. destruct (lt onchainAmount 1) eqn:Elt.
    + apply lt_spec in Elt. tauto.
    + apply lt_false in Elt. split; [| intros H; lra].
      intros H. exfalso.
      destruct (getSwapOutputType wallets _ true) as [outputType | e] eqn:Eo;
        [| apply getSwapOutputType_error in Eo; subst e; discriminate].
      cbn zeta in H. unfold bindM, callManager in H.
      destruct (swapManager_createReverseSwap _) as [d | e].
      * discriminate.
      * injection H as _ H. apply (f_equal managerCalls) in H. simpl in H.
        exact (app_singleton_neq _ _ H).
  - intros r w' H. rewrite Hrun in H.
    destruct (lt onchainAmount 1) eqn:Elt; [discriminate |].
    apply lt_false in Elt.
    destruct (getSwapOutputType wallets _ true) as [outputType | e];
      [| discriminate].
    cbn zeta in H.
    unfold bindM, callManager, generateId, addReverseSwap, modifyM, retM in H.
    destruct (swapManager_createReverseSwap _) as [d | e]; [| discriminate].
    injection H as <- <-. simpl.
    repeat match goal with |- _ /\ _ => split end;
      first [reflexivity | assumption | idtac].
    + eexists. split; reflexivity.
    + eexists. repeat split; reflexivity.
Qed.

(** C7 (as the code has it).  Where [createSwap] returns, the expected
    amount it returns and hands to the swap manager is
    [ceil (invoiceAmount * rate) + baseFee + percentageFee], which is
    101 500 for an invoice of 100 000 at rate 1 with fees of 500 and
    1000; the row it persists carries the percentage fee and no expected
    amount. *)
Theorem createSwap_expectedAmount
    (w w' : World) (pairId orderSide inv : string) (refundPublicKey : Buffer)
    (r : CreatedSwap) :
  createSwap pairId orderSide inv refundPublicKey w = (Ok r, w') ->
  exists b q p side invoiceAmount fees,
    getPair pairId = Ok (b, q, p)
    /\ getOrderSide orderSide = Ok side
    /\ getInvoiceAmt inv = Ok invoiceAmount
    /\ let rate := getRate (Service.rate p) side Submarine in
       let expected :=
         Math_ceil (invoiceAmount * rate) + baseFee fees
         + percentageFee fees in
       verifyAmount pairId rate invoiceAmount side Submarine = Ok tt
       /\ feeProvider_getFees pairId rate side invoiceAmount Submarine
          = Ok fees
       /\ c_expectedAmount r = expected
       /\ (exists args,
              managerCalls w' = managerCalls w ++ [CreateSwapCall args]
              /\ cs_expectedAmount args = expected)
       /\ (exists row,
              swapRepository w' = swapRepository w ++ [row]
              /\ id row = c_id r
              /\ fee row = percentageFee fees
              /\ expectedAmount row = None)
       /\ (invoiceAmount == 100000 -> rate == 1 -> baseFee fees == 500 ->
           percentageFee fees == 1000 -> c_expectedAmount r == 101500).
Proof using Type.
  clear swapManager_createReverseSwap.
  intros H. unfold Service.createSwap in H.
  unfold mbind, M_bind, mret, M_ret, bindM, getsM, liftR, throwM,
    generateId, callManager, addSwap, modifyM, retM in H.
  destruct (getSwapByInvoice inv w); [discriminate |].
  destruct (getPair pairId) as [[[b q] p] | e] eqn:Hpair; [| discriminate].
  destruct (getOrderSide orderSide) as [side | e] eqn:Hside; [| discriminate].
  destruct (timeoutDeltaProvider_getTimeout pairId side Submarine)
    as [delta | e]; [| discriminate].
  destruct (getInvoiceAmt inv) as [invoiceAmount | e] eqn:Hamt;
    [| discriminate].
  destruct (verifyAmount pairId _ invoiceAmount side Submarine)
    as [[] | e] eqn:Hverify; [| discriminate].
  destruct (feeProvider_getFees pairId _ side invoiceAmount Submarine)
    as [fees | e] eqn:Hfees; [| discriminate].
  destruct (getSwapOutputType wallets _ false) as [outputType | e];
    [| discriminate].
  destruct (swapManager_createSwap _) as [d | e]; [| discriminate].
  injection H as <- <-.
  exists b, q, p, side, invoiceAmount, fees.
  do 3 (split; [reflexivity |]). cbn zeta.
  repeat match goal with |- _ /\ _ => split end; try reflexivity.
  - exact Hverify.
  - exact Hfees.
  - eexists. split; reflexivity.
  - eexists. repeat split; reflexivity.
  - simpl. intros Ha Hr Hb Hp.
    assert (E : invoiceAmount * getRate (Service.rate p) side Submarine
                == inject_Z 100000)
      by (rewrite Ha, Hr; reflexivity).
    unfold Math_ceil. rewrite (Qceiling_comp _ _ E), Qceiling_Z, Hb, Hp.
    reflexivity.
Qed.

End CreationFacts.

(** A reverse swap of 100 000 at rate 0.99 with fees of 500 and 1000 is
    created with an onchain amount of 97 500. *)
Lemma createReverseSwap_onchainAmount_witness :
  exists r w',
    Demo.createReverseSwap "LTC/BTC" "buy" 100000%Q [] Demo.service
    = (Ok r, w')
    /\ Service.v_onchainAmount r
       = (Js.Math_floor (100000 * (99 # 100)) - (500 + 1000))%Q.
Proof.
  destruct (Demo.createReverseSwap "LTC/BTC" "buy" 100000%Q [] Demo.service)
    as [[r | e] w'] eqn:Erun; [| vm_compute in Erun; discriminate Erun].
  exists r, w'. split; [reflexivity |].
  eapply (createReverseSwap_onchainAmount Demo.splitPairId
            Demo.getChainCurrency Demo.getRate Demo.pairs Demo.getFees
            Demo.getTimeout Demo.wallets Demo.managerCreateReverseSwap
            Demo.idSource Demo.service "LTC/BTC" "buy" 100000%Q []
            "LTC" "BTC"
            {| Service.rate := (99 # 100)%Q;
               Service.limits := Demo.limits 10000%Q 1000000%Q |}
            BUY 144%Q
            {| Service.baseFee := 500%Q; Service.percentageFee := 1000%Q |}).
  - reflexivity.
  - vm_compute. reflexivity.
  - vm_compute. reflexivity.
  - reflexivity.
  - vm_compute. reflexivity.
  - reflexivity.
  - exact Erun.
Defined.

(** The two runs of the spec's scenarios: 97 500 is created, and an
    invoice of 1000 with fees of 500 and 600 is too low. *)
Example createReverseSwap_floor :
  (Demo.createReverseSwap "LTC/BTC" "buy" 100000%Q [] Demo.service).1
  = Ok {| Service.v_id := "swap0"; Service.v_invoice := "lnbc1";
          Service.v_redeemScript := "a914";
          Service.v_onchainAmount := 97500%Q;
          Service.v_lockupTransaction := "0200";
          Service.v_timeoutBlockHeight := 800144%Q;
          Service.v_lockupTransactionId := "f00d" |}.
Proof. vm_compute. reflexivity. Qed.

Example createReverseSwap_too_low :
  Service.createReverseSwap Demo.splitPairId Demo.getChainCurrency
    Demo.getRate Demo.lowPairs
    (fun _ _ _ _ _ =>
       Ok {| Service.baseFee := 500%Q; Service.percentageFee := 600%Q |})
    Demo.getTimeout Demo.wallets Demo.managerCreateReverseSwap Demo.idSource
    "BTC/BTC" "buy" 1000%Q [] Demo.service
  = (Throw ONCHAIN_AMOUNT_TOO_LOW, Demo.service).
Proof. vm_compute. reflexivity. Qed.

(** The submarine swap of the spec's first scenario. *)
Lemma createSwap_expectedAmount_witness :
  exists r w',
    Demo.createSwap "BTC/BTC" "buy" "lnbc1" [] Demo.service = (Ok r, w')
    /\ (Service.c_expectedAmount r == 101500)%Q.
Proof.
  destruct (Demo.createSwap "BTC/BTC" "buy" "lnbc1" [] Demo.service)
    as [[r | e] w'] eqn:Erun; [| vm_compute in Erun; discriminate Erun].
  exists r, w'. split; [reflexivity |].
  destruct (createSwap_expectedAmount _ _ _ _ _ _ _ _ _ _ _ _ _ _ _ _ _ _ _ _ _
              Erun)
    as (b & q & p & side & invoiceAmount & fees & Hpair & Hside & Hamt & H).
  cbn zeta in H. destruct H as (_ & Hfees & _ & _ & _ & H).
  vm_compute in Hpair. injection Hpair as <- <- <-.
  vm_compute in Hside. injection Hside as <-.
  vm_compute in Hamt. injection Hamt as <-.
  vm_compute in Hfees. injection Hfees as <-.
  apply H; reflexivity.
Defined.

(** C7 as stated fails: after the creation of the spec's first scenario
    the row persisted carries no expected amount. *)
Lemma createSwap_persists_no_expectedAmount :
  let run := Demo.createSwap "BTC/BTC" "buy" "lnbc1" [] Demo.service in
  (exists r, run.1 = Ok r /\ (Service.c_expectedAmount r == 101500)%Q)
  /\ ~ persistedExpectedAmount run.2 101500%Q.
Proof.
  intros run. split.
  - eexists. split; [vm_compute; reflexivity | reflexivity].
  - intros (row & e & Hlast & He & _).
    vm_compute in Hlast. injection Hlast as <-. discriminate He.
Qed.

(** ** MusigSigner *)

Section SignerFacts.

Import Js MusigSigner.

Context (splitPairId : string -> string * string).
Context (getChainCurrency getLightningCurrency :
           string -> string -> OrderSide -> bool -> string).
Context (getHexBuffer : string -> Buffer).
Context (getHexString : Buffer -> string).
Context (sha256 : Buffer -> Buffer).
Context (currencies : gmap string Currency).
Context {Wallet SwapTree Nursery : Type}.
Context (wallets : gmap string Wallet).
Context (deserializeSwapTree : string -> Res SwapTree).
Context (createPartialSignature :
           option Currency -> option Wallet -> SwapTree -> number ->
           Buffer -> Buffer -> Buffer -> number -> Res PartialSignature).
Context (settleReverseSwapInvoice :
           ReverseSwap -> Buffer -> M (World Nursery) unit).

Local Abbreviation hasNonFailedLightningPayment :=
  (hasNonFailedLightningPayment getHexBuffer).
Local Abbreviation isEligibleForRefund := (isEligibleForRefund getHexBuffer).
Local Abbreviation signRefund :=
  (signRefund splitPairId getChainCurrency getLightningCurrency getHexBuffer
     currencies wallets deserializeSwapTree createPartialSignature
     (Nursery := Nursery)).
Local Abbreviation signClaimLocked :=
  (signClaimLocked splitPairId getChainCurrency getHexBuffer currencies
     wallets deserializeSwapTree createPartialSignature
     settleReverseSwapInvoice).
Local Abbreviation signReverseSwapClaim :=
  (signReverseSwapClaim splitPairId getChainCurrency getHexBuffer
     getHexString sha256 currencies wallets deserializeSwapTree
     createPartialSignature settleReverseSwapInvoice).

Lemma includes_spec `{EqDecision A} (l : list A) (x : A) :
  includes l x = true <-> x ∈ l.
Proof. unfold includes. apply bool_decide_eq_true. Qed.

(** What the second [try] of [hasNonFailedLightningPayment] comes to. *)
Lemma clnPaymentKnown_cases (currency : Currency) (swap : Swap) :
  catch (clnPaymentKnown currency swap) (fun _ => true) =
    match clnClient currency, invoice swap with
    | Some cln, Some inv =>
        match Cln.checkPayStatus cln inv with
        | Ok (Some _) => true
        | Ok None => false
        | Throw _ => true
        end
    | _, _ => false
    end.
Proof.
  unfold clnPaymentKnown.
  destruct (clnClient currency) as [cln |]; [| reflexivity].
  destruct (invoice swap) as [inv |]; [| reflexivity].
  destruct (Cln.checkPayStatus cln inv) as [[payment |] | e]; reflexivity.
Qed.

(** An error of CLN's [checkPayStatus] makes the payment count as there. *)
Lemma cln_error_fails_closed (currency : Currency) (swap : Swap)
    (cln : Cln.ClnClient) (inv : string) (e : Error) :
  type swap <> Chain ->
  clnClient currency = Some cln ->
  invoice swap = Some inv ->
  Cln.checkPayStatus cln inv = Throw e ->
  hasNonFailedLightningPayment currency swap = true.
Proof.
  intros Htype Hcln Hinv Herr. unfold MusigSigner.hasNonFailedLightningPayment.
  rewrite (bool_decide_eq_false_2 _ Htype).
  destruct (catch (lndPaymentNotFailed getHexBuffer currency swap) _);
    [reflexivity |].
  rewrite clnPaymentKnown_cases, Hcln, Hinv, Herr. reflexivity.
Qed.

(** An error of LND's [trackPayment] is dropped: the answer is that of the
    CLN check. *)
Lemma lnd_error_falls_through (currency : Currency) (swap : Swap)
    (lnd : Lnd.LndClient) (e : Error) :
  type swap <> Chain ->
  lndClient currency = Some lnd ->
  Lnd.trackPayment lnd (getHexBuffer (preimageHash swap)) = Throw e ->
  hasNonFailedLightningPayment currency swap
  = catch (clnPaymentKnown currency swap) (fun _ => true).
Proof.
  intros Htype Hlnd Herr. unfold MusigSigner.hasNonFailedLightningPayment.
  rewrite (bool_decide_eq_false_2 _ Htype).
  unfold lndPaymentNotFailed. rewrite Hlnd. cbn. rewrite Herr. cbn.
  destruct (catch (clnPaymentKnown currency swap) _); reflexivity.
Qed.

Lemma signRefund_run (w : World Nursery) (swapId : string)
    (theirNonce rawTransaction : Buffer) (index : number) (swap : Swap)
    (currency : Currency) :
  swaps w !! swapId = Some swap ->
  currencies
    !! getChainCurrency (splitPairId (pair swap)).1 (splitPairId (pair swap)).2
         (orderSide swap) false = Some currency ->
  chainClient currency <> None ->
  signRefund swapId theirNonce rawTransaction index w =
    if bool_decide (version swap ≠ Taproot)
       || negb (isEligibleForRefund swap
                  (currencies
                     !! getLightningCurrency (splitPairId (pair swap)).1
                          (splitPairId (pair swap)).2 (orderSide swap) false))
    then (Throw NOT_ELIGIBLE_FOR_COOPERATIVE_REFUND, w)
    else
      (bindR (deserializeSwapTree (redeemScript swap))
         (fun swapTree =>
            createPartialSignature (Some currency)
              (wallets !! symbol currency) swapTree (keyIndex swap)
              (getHexBuffer (refundPublicKey swap)) theirNonce rawTransaction
              index),
       w).
Proof.
  intros Hswap Hcur Hutxo. unfold MusigSigner.signRefund.
  unfold mbind, M_bind, bindM, getsM. rewrite Hswap.
  destruct (splitPairId (pair swap)) as [b q]. cbn [fst snd] in *.
  unfold liftR. rewrite Hcur. cbn [deref].
  rewrite (bool_decide_eq_false_2 _ Hutxo).
  destruct (bool_decide (version swap ≠ Taproot) || _); [reflexivity |].
  destruct (deserializeSwapTree (redeemScript swap)); reflexivity.
Qed.

(** C1.  [signRefund] on an existing swap whose chain currency has a UTXO
    chain client: a partial signature is produced only when the version is
    Taproot, the status is one of [FailedSwapUpdateEvents], and the swap
    has no Lightning currency or [hasNonFailedLightningPayment] is false
    for it; then the call is the signing of the refund, and in every
    other case it fails with [NOT_ELIGIBLE_FOR_COOPERATIVE_REFUND].  An
    error of CLN's [checkPayStatus] makes [hasNonFailedLightningPayment]
    true. *)
Theorem signRefund_eligibility
    (w : World Nursery) (swapId : string) (theirNonce rawTransaction : Buffer)
    (index : number) (swap : Swap) (currency : Currency) :
  swaps w !! swapId = Some swap ->
  let base := (splitPairId (pair swap)).1 in
  let quote := (splitPairId (pair swap)).2 in
  currencies !! getChainCurrency base quote (orderSide swap) false
  = Some currency ->
  chainClient currency <> None ->
  let lightning :=
    currencies !! getLightningCurrency base quote (orderSide swap) false in
  let eligible :=
    version swap = Taproot
    /\ status swap ∈ FailedSwapUpdateEvents
    /\ (lightning = None
        \/ exists c, lightning = Some c
                     /\ hasNonFailedLightningPayment c swap = false) in
  let run := signRefund swapId theirNonce rawTransaction index w in
  (forall sig w', run = (Ok sig, w') -> eligible)
  /\ (eligible ->
      run = (bindR (deserializeSwapTree (redeemScript swap))
               (fun swapTree =>
                  createPartialSignature (Some currency)
                    (wallets !! symbol currency) swapTree (keyIndex swap)
                    (getHexBuffer (refundPublicKey swap)) theirNonce
                    rawTransaction index),
             w))
  /\ (~ eligible -> run = (Throw NOT_ELIGIBLE_FOR_COOPERATIVE_REFUND, w))
  /\ (forall c cln inv e,
         type swap <> Chain ->
         clnClient c = Some cln ->
         invoice swap = Some inv ->
         Cln.checkPayStatus cln inv = Throw e ->
         hasNonFailedLightningPayment c swap = true
         /\ isEligibleForRefund swap (Some c) = false).
Proof using Type.
  clear getHexString sha256 settleReverseSwapInvoice.
  intros Hswap base quote Hcur Hutxo lightning eligible run.
  assert (Hrun := signRefund_run w swapId theirNonce rawTransaction index
                    swap currency Hswap Hcur Hutxo).
  fold base quote lightning run in Hrun.
  assert (Helig : eligible
                  <-> (bool_decide (version swap ≠ Taproot)
                       || negb (isEligibleForRefund swap lightning)) = false).
  { subst eligible. unfold MusigSigner.isEligibleForRefund.
    rewrite orb_false_iff, negb_false_iff, andb_true_iff, includes_spec.
    rewrite bool_decide_eq_false.
    destruct lightning as [c |].
    - rewrite negb_true_iff. split.
      + intros (Hv & Hs & [Hl | (c' & Hl & Hp)]); [discriminate |].
        injection Hl as <-. split; [intros Hn; contradiction | tauto].
      + intros (Hv & Hs & Hp).
        split; [destruct (decide (version swap = Taproot)); tauto |].
        split; [exact Hs | right; eauto].
    - split.
      + intros (Hv & Hs & _). split; [intros Hn; contradiction | tauto].
      + intros (Hv & Hs & _).
        split; [destruct (decide (version swap = Taproot)); tauto |].
        split; [exact Hs | left; reflexivity]. }
  destruct (bool_decide (version swap ≠ Taproot)
            || negb (isEligibleForRefund swap lightning)) eqn:Eb.
  - assert (Hne : ~ eligible) by (rewrite Helig; discriminate).
    repeat match goal with |- _ /\ _ => split end.
    + intros sig w' H. rewrite Hrun in H. discriminate H.
    + intros H. contradiction.
    + intros _. exact Hrun.
    + intros c cln inv e Htype Hcln Hinv Herr.
      pose proof (cln_error_fails_closed c swap cln inv e Htype Hcln Hinv Herr)
        as Hp.
      split; [exact Hp |]. unfold MusigSigner.isEligibleForRefund.
      rewrite Hp. apply andb_false_r.
  - assert (He : eligible) by (rewrite Helig; reflexivity).
    repeat match goal with |- _ /\ _ => split end.
    + intros _ _ _. exact He.
    + intros _. exact Hrun.
    + intros H. contradiction.
    + intros c cln inv e Htype Hcln Hinv Herr.
      pose proof (cln_error_fails_closed c swap cln inv e Htype Hcln Hinv Herr)
        as Hp.
      split; [exact Hp |]. unfold MusigSigner.isEligibleForRefund.
      rewrite Hp. apply andb_false_r.
Qed.

(** C10.  In [hasNonFailedLightningPayment] an error of LND's
    [trackPayment] is dropped and taken as no pending LND payment: the
    answer is then that of the CLN check, false without a CLN client or
    an invoice, false when [checkPayStatus] knows no payment, true when
    it knows one and true when it fails.  So for a currency with only an
    LND client, a failing [trackPayment] leaves a swap of a failed status
    eligible for a cooperative refund. *)
Theorem lnd_trackPayment_error_is_swallowed
    (currency : Currency) (swap : Swap) (lnd : Lnd.LndClient) (e : Error) :
  type swap <> Chain ->
  lndClient currency = Some lnd ->
  Lnd.trackPayment lnd (getHexBuffer (preimageHash swap)) = Throw e ->
  hasNonFailedLightningPayment currency swap
  = match clnClient currency, invoice swap with
    | Some cln, Some inv =>
        match Cln.checkPayStatus cln inv with
        | Ok (Some _) => true
        | Ok None => false
        | Throw _ => true
        end
    | _, _ => false
    end
  /\ (clnClient currency = None ->
      hasNonFailedLightningPayment currency swap = false
      /\ isEligibleForRefund swap (Some currency)
         = includes FailedSwapUpdateEvents (status swap)
      /\ (status swap ∈ FailedSwapUpdateEvents ->
          isEligibleForRefund swap (Some currency) = true)).
Proof.
  intros Htype Hlnd Herr.
  pose proof (lnd_error_falls_through currency swap lnd e Htype Hlnd Herr)
    as Hfall.
  rewrite clnPaymentKnown_cases in Hfall.
  split; [exact Hfall |].
  intros Hcln. rewrite Hcln in Hfall.
  assert (Helig : isEligibleForRefund swap (Some currency)
                  = includes FailedSwapUpdateEvents (status swap)).
  { unfold MusigSigner.isEligibleForRefund. rewrite Hfall.
    apply andb_true_r. }
  repeat split; [exact Hfall | exact Helig |].
  intros Hs. rewrite Helig. now apply includes_spec.
Qed.

Lemma signReverseSwapClaim_run (w : World Nursery) (swapId : string)
    (preimage theirNonce rawTransaction : Buffer) (index : number)
    (swap : ReverseSwap) :
  reverseSwaps w !! swapId = Some swap ->
  signReverseSwapClaim swapId preimage theirNonce rawTransaction index w =
    if bool_decide (r_version swap ≠ Taproot)
       || negb (includes
                  [TransactionMempool; TransactionConfirmed; InvoiceSettled]
                  (r_status swap))
    then (Throw NOT_ELIGIBLE_FOR_COOPERATIVE_CLAIM, w)
    else if negb (isPreimageValid getHexString sha256 swap preimage)
    then (Throw INCORRECT_PREIMAGE, w)
    else
      signClaimLocked swap preimage theirNonce rawTransaction index
        {| swaps := swaps w;
           reverseSwaps :=
             <[r_id swap := withPreimage getHexString swap preimage]>
               (reverseSwaps w);
           nursery := nursery w |}.
Proof.
  intros Hswap. unfold MusigSigner.signReverseSwapClaim.
  unfold mbind, M_bind. unfold bindM at 1. unfold getsM. rewrite Hswap.
  destruct (bool_decide (r_version swap ≠ Taproot) || _); [reflexivity |].
  destruct (negb (isPreimageValid getHexString sha256 swap preimage));
    reflexivity.
Qed.

(** C2.  [signReverseSwapClaim] on an existing reverse swap: when the
    version is not Taproot or the status is none of [TransactionMempool],
    [TransactionConfirmed] and [InvoiceSettled], it fails with
    [NOT_ELIGIBLE_FOR_COOPERATIVE_CLAIM]; when those checks pass and the
    SHA-256 of the preimage is not the preimage hash of the swap, it
    fails with [INCORRECT_PREIMAGE]; neither failure changes the state.
    When the preimage is the right one it is persisted in the row of the
    swap, and the callback under the lock runs on that state.  So the
    state changes only after the preimage was found valid. *)
Theorem signReverseSwapClaim_guards
    (w : World Nursery) (swapId : string)
    (preimage theirNonce rawTransaction : Buffer) (index : number)
    (swap : ReverseSwap) :
  reverseSwaps w !! swapId = Some swap ->
  let eligible :=
    r_version swap = Taproot
    /\ r_status swap
       ∈ [TransactionMempool; TransactionConfirmed; InvoiceSettled] in
  let valid := getHexString (sha256 preimage) = r_preimageHash swap in
  let run :=
    signReverseSwapClaim swapId preimage theirNonce rawTransaction index w in
  (~ eligible -> run = (Throw NOT_ELIGIBLE_FOR_COOPERATIVE_CLAIM, w))
  /\ (eligible -> ~ valid -> run = (Throw INCORRECT_PREIMAGE, w))
  /\ (eligible -> valid ->
      exists w1,
        setPreimage getHexString swap preimage w = (Ok tt, w1)
        /\ reverseSwaps w1 !! r_id swap
           = Some (withPreimage getHexString swap preimage)
        /\ r_preimage (withPreimage getHexString swap preimage)
           = Some (getHexString preimage)
        /\ swaps w1 = swaps w
        /\ nursery w1 = nursery w
        /\ run = signClaimLocked swap preimage theirNonce rawTransaction
                   index w1)
  /\ (run.2 <> w -> eligible /\ valid).
Proof using Type.
  clear getLightningCurrency.
  intros Hswap eligible valid run.
  assert (Hrun := signReverseSwapClaim_run w swapId preimage theirNonce
                    rawTransaction index swap Hswap).
  fold run in Hrun.
  assert (Helig : eligible
                  <-> (bool_decide (r_version swap ≠ Taproot)
                       || negb (includes
                                  [TransactionMempool; TransactionConfirmed;
                                   InvoiceSettled] (r_status swap))) = false).
  { subst eligible.
    rewrite orb_false_iff, negb_false_iff, includes_spec, bool_decide_eq_false.
    split; intros [Hv Hs]; (split; [| exact Hs]).
    - intros Hn. contradiction.
    - destruct (decide (r_version swap = Taproot)); tauto. }
  assert (Hvalid : valid
                   <-> negb (isPreimageValid getHexString sha256 swap preimage)
                       = false).
  { subst valid. unfold isPreimageValid.
    rewrite negb_false_iff. symmetry. apply String.eqb_eq. }
  destruct (bool_decide (r_version swap ≠ Taproot) || _) eqn:Eb.
  - assert (Hne : ~ eligible) by (rewrite Helig; discriminate).
    repeat match goal with |- _ /\ _ => split end; try tauto.
    intros H. rewrite Hrun in H. contradiction H. reflexivity.
  - assert (He : eligible) by (rewrite Helig; reflexivity).
    destruct (negb (isPreimageValid getHexString sha256 swap preimage))
      eqn:Ev.
    + assert (Hnv : ~ valid) by (rewrite Hvalid; discriminate).
      repeat match goal with |- _ /\ _ => split end; try tauto.
      intros H. rewrite Hrun in H. contradiction H. reflexivity.
    + assert (Hv : valid) by (rewrite Hvalid; reflexivity).
      repeat match goal with |- _ /\ _ => split end; try tauto.
      intros _ _. eexists. split; [reflexivity |]. cbn.
      split; [apply lookup_insert_eq |].
      repeat split. exact Hrun.
Qed.

End SignerFacts.

(** The expired Taproot swap of the examples, whose payment LND reports as
    failed: the refund is signed. *)
Lemma signRefund_eligibility_witness :
  Demo.signRefund (Ok {| Lnd.status := Lnd.FAILED |}) "sub1" [] [] 0%Q
    Demo.signerWorld
  = (Ok {| MusigSigner.pubNonce := []; MusigSigner.signature := [] |},
     Demo.signerWorld).
Proof.
  pose proof (signRefund_eligibility Demo.splitPairId Demo.getChainCurrency
                Demo.getLightningCurrency Demo.getHexBuffer
                (Demo.currencies None (Ok {| Lnd.status := Lnd.FAILED |}))
                Demo.signerWallets Demo.deserializeSwapTree
                Demo.createPartialSignature Demo.signerWorld "sub1" [] [] 0%Q
                Demo.expiredSwap
                (Demo.btc None (Ok {| Lnd.status := Lnd.FAILED |}))
                ltac:(vm_compute; reflexivity) ltac:(vm_compute; reflexivity)
                ltac:(discriminate))
    as (_ & H & _).
  etransitivity; [apply H | vm_compute; reflexivity].
  split; [reflexivity |]. split; [set_solver |].
  right. eexists. split; vm_compute; reflexivity.
Defined.

(** The same swap while LND reports the payment as in flight: the refund
    is refused. *)
Example signRefund_in_flight :
  Demo.signRefund (Ok {| Lnd.status := Lnd.IN_FLIGHT |}) "sub1" [] [] 0%Q
    Demo.signerWorld
  = (Throw NOT_ELIGIBLE_FOR_COOPERATIVE_REFUND, Demo.signerWorld).
Proof. vm_compute. reflexivity. Qed.

(** The same swap when [trackPayment] fails and the currency has no CLN
    client: the swap counts as eligible. *)
Lemma lnd_trackPayment_error_is_swallowed_witness :
  MusigSigner.isEligibleForRefund Demo.getHexBuffer Demo.expiredSwap
    (Some (Demo.btc None (Throw (Rejected "unavailable"))))
  = true.
Proof.
  apply (lnd_trackPayment_error_is_swallowed Demo.getHexBuffer
           (Demo.btc None (Throw (Rejected "unavailable"))) Demo.expiredSwap
           (Demo.lnd None (Throw (Rejected "unavailable")))
           (Rejected "unavailable")).
  - discriminate.
  - reflexivity.
  - reflexivity.
  - reflexivity.
  - set_solver.
Defined.

(** The reverse swap of the examples with a preimage of the wrong hash:
    the claim is refused and nothing is persisted. *)
Lemma signReverseSwapClaim_guards_witness :
  Demo.signReverseSwapClaim "rev1" (Demo.getHexBuffer "zz") [] [] 0%Q
    Demo.signerWorld
  = (Throw INCORRECT_PREIMAGE, Demo.signerWorld).
Proof.
  apply (signReverseSwapClaim_guards Demo.splitPairId Demo.getChainCurrency
           Demo.getHexBuffer Demo.getHexString Demo.digest
           (Demo.currencies None (Throw TypeError)) Demo.signerWallets
           Demo.deserializeSwapTree Demo.createPartialSignature
           Demo.settleReverseSwapInvoice Demo.signerWorld "rev1"
           (Demo.getHexBuffer "zz") [] [] 0%Q Demo.mempoolReverseSwap).
  - vm_compute. reflexivity.
  - split; [reflexivity | set_solver].
  - vm_compute. discriminate.
Defined.

(** With the right preimage the claim is signed, the preimage is in the
    row of the swap and the invoice was settled. *)
Example signReverseSwapClaim_valid :
  let run :=
    Demo.signReverseSwapClaim "rev1" (Demo.getHexBuffer "ab") [] [] 0%Q
      Demo.signerWorld in
  run.1 = Ok {| MusigSigner.pubNonce := []; MusigSigner.signature := [] |}
  /\ MusigSigner.r_preimage
       <$> (MusigSigner.reverseSwaps run.2 !! "rev1"%string)
     = Some (Some "ab"%string)
  /\ MusigSigner.nursery run.2 = ["rev1"%string].
Proof. vm_compute. repeat split; reflexivity. Qed.

(** * Further properties *)

(** ** TimeoutDeltaProvider: block times and conversions *)

Section QFacts.

Local Open Scope Q_scope.

Lemma Qdiv_le_compat_r (x y t : Q) : 0 < t -> x <= y -> x / t <= y / t.
Proof.
  intros Ht H. apply Qle_shift_div_l; [exact Ht |].
  assert (E : x / t * t == x) by (field; lra). rewrite E. exact H.
Qed.

Lemma Qdiv_mult_cancel (x t : Q) : 0 < t -> x / t * t == x.
Proof. intros Ht. field. lra. Qed.

Lemma Math_ceil_mono (x y : Q) : x <= y -> Js.Math_ceil x <= Js.Math_ceil y.
Proof.
  intros H. unfold Js.Math_ceil. rewrite <- Zle_Qle.
  now apply Qceiling_resp_le.
Qed.

Lemma Math_floor_mono (x y : Q) : x <= y -> Js.Math_floor x <= Js.Math_floor y.
Proof.
  intros H. unfold Js.Math_floor. rewrite <- Zle_Qle.
  now apply Qfloor_resp_le.
Qed.

Lemma Math_ceil_comp (x y : Q) : x == y -> Js.Math_ceil x = Js.Math_ceil y.
Proof. intros H. unfold Js.Math_ceil. now rewrite (Qceiling_comp _ _ H). Qed.

Lemma Math_ceil_pred_lt (x : Q) : Js.Math_ceil x - 1 < x.
Proof.
  pose proof (Qceiling_lt x) as H. unfold Js.Math_ceil.
  unfold Z.sub in H. rewrite inject_Z_plus, inject_Z_opp in H.
  change (inject_Z 1) with 1 in H. lra.
Qed.

End QFacts.



(** X2.  [convertBlocks] never shortens: converting a number of blocks to
    another chain and back gives at least the blocks one started with.
    It is monotone in the number of blocks, and between a chain and
    itself it leaves a whole number of blocks as it is (stated for BTC,
    LTC and the symbol of Elements, whose block times a double holds
    exactly). *)
Theorem convertBlocks_there_and_back (E c l : string) (b b' : Q) :
  let conv := TimeoutDeltaProvider.convertBlocks E in
  (b <= conv l c (conv c l b)
   /\ (b <= b' -> conv c l b <= conv c l b')
   /\ forall k : Z,
        c ∈ ["BTC"%string; "LTC"%string; E] ->
        conv c c (inject_Z k) = inject_Z k)%Q.
Proof.
  intros conv. subst conv. unfold TimeoutDeltaProvider.convertBlocks.
  pose proof (getBlockTime_pos E c) as Hc.
  pose proof (getBlockTime_pos E l) as Hl.
  set (tc := TimeoutDeltaProvider.getBlockTime E c) in *.
  set (tl := TimeoutDeltaProvider.getBlockTime E l) in *.
  cbn zeta. split; [| split].
  - set (r := Js.Math_ceil (b * tc / tl)).
    assert (H1 : (b * tc / tl <= r)%Q) by apply Math_ceil_ge.
    assert (H2 : (r * tl / tc <= Js.Math_ceil (r * tl / tc))%Q)
      by apply Math_ceil_ge.
    apply (Qmult_le_compat_r _ _ tl) in H1; [| lra].
    rewrite (Qdiv_mult_cancel (b * tc) tl Hl) in H1.
    apply (Qdiv_le_compat_r _ _ tc Hc) in H1.
    assert (E1 : (b * tc / tc == b)%Q) by (field; lra).
    rewrite E1 in H1. lra.
  - intros Hb. apply Math_ceil_mono. apply Qdiv_le_compat_r; [exact Hl |].
    apply Qmult_le_compat_r; lra.
  - intros k _.
    assert (E1 : (inject_Z k * tc / tc == inject_Z k)%Q) by (field; lra).
    rewrite (Math_ceil_comp _ _ E1). unfold Js.Math_ceil.
    now rewrite Qceiling_Z.
Qed.

(** X3.  Where [minutesToBlocks] returns, nothing of the time is lost:
    each number of blocks, times the block time of its side, is the
    number of minutes configured; each is a whole number of at least one
    block; and a minimal that is not above the maximal in minutes is not
    above it in blocks. *)
Theorem minutesToBlocks_round_trip
    (E : string) (splitPairId : string -> string * string) (pairId : string)
    (d : Types.PairTimeoutBlocksDelta)
    (r : TimeoutDeltaProvider.PairTimeoutBlockDeltas) :
  TimeoutDeltaProvider.minutesToBlocks E splitPairId pairId d = Ok r ->
  let sides :=
    [(TimeoutDeltaProvider.base r, (splitPairId pairId).1);
     (TimeoutDeltaProvider.quote r, (splitPairId pairId).2)] in
  Forall (fun '(blocks, symbol) =>
            let t := TimeoutDeltaProvider.getBlockTime E symbol in
            (Types.reverse blocks * t == Types.reverse d
             /\ Types.swapMinimal blocks * t == Types.swapMinimal d
             /\ Types.swapMaximal blocks * t == Types.swapMaximal d
             /\ (exists k : Z, (1 <= k)%Z
                               /\ Types.reverse blocks == inject_Z k)
             /\ (exists k : Z, (1 <= k)%Z
                               /\ Types.swapMinimal blocks == inject_Z k)
             /\ (exists k : Z, (1 <= k)%Z
                               /\ Types.swapMaximal blocks == inject_Z k)
             /\ (Types.swapMinimal d <= Types.swapMaximal d ->
                 Types.swapMinimal blocks <= Types.swapMaximal blocks))%Q)
         sides.
Proof.
  intros H sides.
  destruct (minutesToBlocks_spec E splitPairId pairId d)
    as [[[Hb Hq] Eq] | [_ Eq]]; rewrite Eq in H; [| discriminate].
  injection H as <-. subst sides. cbn.
  assert (Hside : forall symbol,
             wholeDeltas E d symbol ->
             let t := TimeoutDeltaProvider.getBlockTime E symbol in
             let blocks := blocksOf E d symbol in
             (Types.reverse blocks * t == Types.reverse d
              /\ Types.swapMinimal blocks * t == Types.swapMinimal d
              /\ Types.swapMaximal blocks * t == Types.swapMaximal d
              /\ (exists k : Z, (1 <= k)%Z
                                /\ Types.reverse blocks == inject_Z k)
              /\ (exists k : Z, (1 <= k)%Z
                                /\ Types.swapMinimal blocks == inject_Z k)
              /\ (exists k : Z, (1 <= k)%Z
                                /\ Types.swapMaximal blocks == inject_Z k)
              /\ (Types.swapMinimal d <= Types.swapMaximal d ->
                  Types.swapMinimal blocks <= Types.swapMaximal blocks))%Q).
  { intros symbol (H1 & H2 & H3) t blocks.
    pose proof (getBlockTime_pos E symbol) as Ht. fold t in Ht.
    subst blocks. unfold blocksOf. cbn. fold t.
    repeat match goal with |- _ /\ _ => split end;
      try (apply Qdiv_mult_cancel; exact Ht); try assumption.
    intros Hle. apply Qdiv_le_compat_r; assumption. }
  repeat constructor; apply Hside; assumption.
Qed.

(** Deltas of one day for BTC/BTC. *)
Lemma minutesToBlocks_round_trip_witness :
  exists r,
    TimeoutDeltaProvider.minutesToBlocks "L-BTC" Demo.splitPairId "BTC/BTC"
      Demo.day = Ok r
    /\ (Types.swapMaximal (TimeoutDeltaProvider.base r) * 10
        == Types.swapMaximal Demo.day)%Q.
Proof.
  destruct (TimeoutDeltaProvider.minutesToBlocks "L-BTC" Demo.splitPairId
              "BTC/BTC" Demo.day) as [r | e] eqn:Erun;
    [| vm_compute in Erun; discriminate Erun].
  exists r. split; [reflexivity |].
  pose proof (minutesToBlocks_round_trip "L-BTC" Demo.splitPairId "BTC/BTC"
                Demo.day r Erun) as H.
  cbn zeta in H. apply Forall_cons in H as [(_ & _ & H & _) _].
  exact H.
Defined.

(** ** TimeoutDeltaProvider: getCltvLimit *)

(** X4.  Where [getCltvLimit] returns, the chain currency is known and its
    height was read from its chain client (or, when it has none, from the
    provider of the Ethereum manager).  The limit is a whole number; two
    blocks more than the limit are the least number of blocks of the
    lightning currency that last as long as the blocks left on the chain;
    and a swap whose timeout height is reached gets a limit of at most
    -2. *)
Theorem getCltvLimit_least_covering
    (E : string) (splitPairId : string -> string * string)
    (getChainCurrency getLightningCurrency :
       string -> string -> OrderSide -> bool -> string)
    (getBlockNumber : Res Js.number)
    (currs : gmap string Currency) (swap : TimeoutDeltaProvider.Swap.t)
    (limit : Js.number) :
  TimeoutDeltaProvider.getCltvLimit E splitPairId getChainCurrency
    getLightningCurrency getBlockNumber currs swap = Ok limit ->
  let b := (splitPairId (TimeoutDeltaProvider.Swap.pair swap)).1 in
  let q := (splitPairId (TimeoutDeltaProvider.Swap.pair swap)).2 in
  let side := TimeoutDeltaProvider.Swap.orderSide swap in
  exists (cur : Currency) (currentBlock : Js.number),
    currs !! getChainCurrency b q side false = Some cur
    /\ match chainClient cur with
       | Some client =>
           exists info, getBlockchainInfo client = Ok info
                        /\ currentBlock = blocks info
       | None => getBlockNumber = Ok currentBlock
       end
    /\ let left :=
         (TimeoutDeltaProvider.Swap.timeoutBlockHeight swap - currentBlock)%Q in
       let tc := TimeoutDeltaProvider.getBlockTime E (symbol cur) in
       let tl :=
         TimeoutDeltaProvider.getBlockTime E
           (getLightningCurrency b q side false) in
       ((exists k : Z, limit = inject_Z k)
        /\ left * tc <= (limit + 2) * tl
        /\ (limit + 1) * tl < left * tc
        /\ (left <= 0 -> limit <= -2))%Q.
Proof.
  intros H b q side. subst b q side.
  unfold TimeoutDeltaProvider.getCltvLimit in H.
  destruct (splitPairId (TimeoutDeltaProvider.Swap.pair swap)) as [b q].
  cbn [fst snd].
  destruct (currs !! getChainCurrency b q
                       (TimeoutDeltaProvider.Swap.orderSide swap) false)
    as [cur |] eqn:Hcur; [| discriminate H].
  cbn in H.
  assert (Hblock : exists currentBlock,
             match chainClient cur with
             | Some client =>
                 exists info, getBlockchainInfo client = Ok info
                              /\ currentBlock = blocks info
             | None => getBlockNumber = Ok currentBlock
             end
             /\ Ok (Js.Math_floor
                      (TimeoutDeltaProvider.convertBlocks E (symbol cur)
                         (getLightningCurrency b q
                            (TimeoutDeltaProvider.Swap.orderSide swap) false)
                         (TimeoutDeltaProvider.Swap.timeoutBlockHeight swap
                          - currentBlock) - 2)%Q) = Ok limit).
  { destruct (chainClient cur) as [client |].
    - destruct (getBlockchainInfo client) as [info | e] eqn:Hinfo;
        [| discriminate H].
      exists (blocks info). split; [eauto | exact H].
    - destruct getBlockNumber as [n | e]; [| discriminate H].
      exists n. split; [reflexivity | exact H]. }
  destruct Hblock as (currentBlock & Hread & Hlimit).
  exists cur, currentBlock. split; [reflexivity |]. split; [exact Hread |].
  injection Hlimit as <-. cbn zeta.
  set (left := (TimeoutDeltaProvider.Swap.timeoutBlockHeight swap
                - currentBlock)%Q).
  set (ln := getLightningCurrency b q
               (TimeoutDeltaProvider.Swap.orderSide swap) false).
  pose proof (getBlockTime_pos E (symbol cur)) as Hc.
  pose proof (getBlockTime_pos E ln) as Hl.
  unfold TimeoutDeltaProvider.convertBlocks.
  set (tc := TimeoutDeltaProvider.getBlockTime E (symbol cur)) in *.
  set (tl := TimeoutDeltaProvider.getBlockTime E ln) in *.
  set (x := (left * tc / tl)%Q).
  assert (Hfloor : (Js.Math_floor (Js.Math_ceil x - 2)
                    == Js.Math_ceil x - 2)%Q).
  { unfold Js.Math_floor, Js.Math_ceil.
    assert (E2 : (inject_Z (Qceiling x) - 2 == inject_Z (Qceiling x - 2))%Q).
    { unfold Z.sub. rewrite inject_Z_plus, inject_Z_opp. reflexivity. }
    rewrite (Qfloor_comp _ _ E2), Qfloor_Z. symmetry. exact E2. }
  assert (Hx : (x * tl == left * tc)%Q) by (apply Qdiv_mult_cancel; exact Hl).
  pose proof (Math_ceil_ge x) as Hge.
  pose proof (Math_ceil_pred_lt x) as Hlt.
  repeat match goal with |- _ /\ _ => split end.
  - eexists. reflexivity.
  - rewrite Hfloor, <- Hx. apply Qmult_le_compat_r; lra.
  - rewrite Hfloor, <- Hx. apply Qmult_lt_compat_r; lra.
  - intros Hleft. rewrite Hfloor.
    assert (Hx0 : (x <= 0)%Q).
    { unfold x. apply Qle_shift_div_r; [exact Hl |].
      assert (E0 : (0 * tl == 0)%Q) by ring. rewrite E0.
      assert (Hm : (left * tc <= 0 * tc)%Q)
        by (apply Qmult_le_compat_r; lra).
      lra. }
    apply Math_ceil_mono in Hx0.
    change (Js.Math_ceil 0) with 0%Q in Hx0. lra.
Qed.

(** A swap of BTC/BTC with 144 blocks left. *)
Lemma getCltvLimit_least_covering_witness :
  exists limit,
    TimeoutDeltaProvider.getCltvLimit "L-BTC" Demo.splitPairId
      Demo.getChainCurrency Demo.getLightningCurrency (Throw TypeError)
      (Demo.currencies None (Throw TypeError))
      {| TimeoutDeltaProvider.Swap.pair := "BTC/BTC";
         TimeoutDeltaProvider.Swap.orderSide := BUY;
         TimeoutDeltaProvider.Swap.timeoutBlockHeight := 800144%Q |}
    = Ok limit
    /\ exists k : Z, limit = inject_Z k.
Proof.
  destruct (TimeoutDeltaProvider.getCltvLimit "L-BTC" Demo.splitPairId
              Demo.getChainCurrency Demo.getLightningCurrency (Throw TypeError)
              (Demo.currencies None (Throw TypeError))
              {| TimeoutDeltaProvider.Swap.pair := "BTC/BTC";
                 TimeoutDeltaProvider.Swap.orderSide := BUY;
                 TimeoutDeltaProvider.Swap.timeoutBlockHeight := 800144%Q |})
    as [limit | e] eqn:Erun; [| vm_compute in Erun; discriminate Erun].
  exists limit. split; [reflexivity |].
  destruct (getCltvLimit_least_covering _ _ _ _ _ _ _ _ Erun)
    as (cur & currentBlock & _ & _ & Hk & _).
  exact Hk.
Defined.

(** ** TimeoutDeltaProvider: checkRoutability *)

Lemma highest_lock_fold (routes : list Lnd.Route) (init : Js.number) :
  let result :=
    foldl (fun highest r =>
             if Js.gt highest (Lnd.totalTimeLock r)
             then highest else Lnd.totalTimeLock r) init routes in
  (init <= result)%Q
  /\ Forall (fun r => (Lnd.totalTimeLock r <= result)%Q) routes
  /\ (result = init \/ Exists (fun r => result = Lnd.totalTimeLock r) routes).
Proof.
  revert init. induction routes as [| r routes IH]; intros init; cbn.
  - split; [lra |]. split; [constructor | now left].
  - destruct (Js.gt init (Lnd.totalTimeLock r)) eqn:Egt.
    + apply gt_spec in Egt.
      destruct (IH init) as (H1 & H2 & H3). cbn zeta in *.
      split; [exact H1 |]. split.
      * constructor; [lra | exact H2].
      * destruct H3 as [H3 | H3]; [now left | right; now constructor 2].
    + apply gt_false in Egt.
      destruct (IH (Lnd.totalTimeLock r)) as (H1 & H2 & H3). cbn zeta in *.
      split; [lra |]. split.
      * constructor; [exact H1 | exact H2].
      * right. destruct H3 as [H3 | H3];
          [now constructor 1 | now constructor 2].
Qed.

(** X5.  [checkRoutability] never queries a route for less than one
    satoshi.  It answers [noRoutes] when [queryRoutes] rejects and when it
    finds no route; otherwise its answer is the time lock of one of the
    routes found (or [noRoutes], when none is above it) and no route has
    a higher one. *)
Theorem checkRoutability_highest_time_lock
    (paymentMaxParts : Js.number) (lnd : Lnd.LndClient)
    (decodedInvoice : Lnd.PayReq) (cltvLimit : Js.number) :
  let amountToQuery :=
    Js.Math_max
      (if TimeoutDeltaProvider.supportsMpp decodedInvoice
       then Js.Math_ceil (Lnd.getNumSatoshis decodedInvoice / paymentMaxParts)
       else Lnd.getNumSatoshis decodedInvoice) 1 in
  let answer :=
    Lnd.queryRoutes lnd (Lnd.getDestination decodedInvoice) amountToQuery
      cltvLimit (Lnd.getCltvExpiry decodedInvoice)
      (Lnd.getRouteHintsList decodedInvoice) in
  let result :=
    TimeoutDeltaProvider.checkRoutability paymentMaxParts lnd decodedInvoice
      cltvLimit in
  (1 <= amountToQuery)%Q
  /\ (forall e, answer = Throw e -> result = TimeoutDeltaProvider.noRoutes)
  /\ (forall routes, answer = Ok routes ->
        (TimeoutDeltaProvider.noRoutes <= result)%Q
        /\ Forall (fun r => (Lnd.totalTimeLock r <= result)%Q)
                  (Lnd.routesList routes)
        /\ (result = TimeoutDeltaProvider.noRoutes
            \/ Exists (fun r => result = Lnd.totalTimeLock r)
                      (Lnd.routesList routes))
        /\ (Lnd.routesList routes = [] ->
            result = TimeoutDeltaProvider.noRoutes)).
Proof.
  intros amountToQuery answer result.
  split; [| split].
  - subst amountToQuery. rewrite Math_max_Qmax. apply Q.le_max_r.
  - intros e He. subst result. unfold TimeoutDeltaProvider.checkRoutability.
    fold amountToQuery. fold answer. rewrite He. reflexivity.
  - intros routes Hr. subst result.
    unfold TimeoutDeltaProvider.checkRoutability.
    fold amountToQuery. fold answer. rewrite Hr.
    destruct (highest_lock_fold (Lnd.routesList routes)
                TimeoutDeltaProvider.noRoutes) as (H1 & H2 & H3).
    cbn zeta in *. repeat match goal with |- _ /\ _ => split end;
      [exact H1 | exact H2 | exact H3 |].
    intros Hnil. rewrite Hnil. reflexivity.
Qed.

(** ** TimeoutDeltaProvider: getTimeoutInvoice *)

(** X6.  Where [getTimeoutInvoice] returns a timeout flagged as routable,
    the timeout is at least the minimal of the chain side and lasts, in
    minutes, at least as long as the route needs on the lightning side
    plus the routing offset of 60 minutes; it is not above the maximal of
    the chain side unless the minimal is.  Where it returns a timeout not
    flagged, no route was found and the timeout is the maximal of the
    chain side. *)
Theorem getTimeoutInvoice_timeout_covers_route
    (E : string) (paymentMaxParts : Q) (currs : gmap string Currency)
    (chainCurrency lightningCurrency invoice : string)
    (chainTimeout lightningTimeout : Types.PairTimeoutBlocksDelta)
    (timeout : Js.number) (routable : bool) :
  TimeoutDeltaProvider.getTimeoutInvoice E paymentMaxParts currs
    chainCurrency lightningCurrency chainTimeout lightningTimeout invoice
  = Ok (timeout, routable) ->
  exists cur lnd decodedInvoice client chainInfo,
    currs !! lightningCurrency = Some cur
    /\ lndClient cur = Some lnd
    /\ Lnd.decodePayReqRawResponse lnd invoice = Ok decodedInvoice
    /\ chainClient cur = Some client
    /\ getBlockchainInfo client = Ok chainInfo
    /\ let blockTime := TimeoutDeltaProvider.getBlockTime E in
       let routeTimeLock :=
         TimeoutDeltaProvider.checkRoutability paymentMaxParts lnd
           decodedInvoice (Types.swapMaximal lightningTimeout) in
       ((routable = false ->
         routeTimeLock == TimeoutDeltaProvider.noRoutes
         /\ timeout = Types.swapMaximal chainTimeout)
        /\ (routable = true ->
            ~ routeTimeLock == TimeoutDeltaProvider.noRoutes
            /\ Types.swapMinimal chainTimeout <= timeout
            /\ (routeTimeLock - blocks chainInfo) * blockTime lightningCurrency
               + TimeoutDeltaProvider.routingOffset
               <= timeout * blockTime chainCurrency
            /\ (Types.swapMinimal chainTimeout
                <= Types.swapMaximal chainTimeout ->
                timeout <= Types.swapMaximal chainTimeout)))%Q.
Proof.
  intros H. unfold TimeoutDeltaProvider.getTimeoutInvoice in H.
  destruct (currs !! lightningCurrency) as [cur |] eqn:Hcur;
    [| discriminate H]. cbn in H.
  destruct (lndClient cur) as [lnd |] eqn:Hlnd; [| discriminate H].
  cbn in H.
  destruct (Lnd.decodePayReqRawResponse lnd invoice)
    as [decodedInvoice | e] eqn:Hdec; [| discriminate H]. cbn in H.
  destruct (chainClient cur) as [client |] eqn:Hchain; [| discriminate H].
  cbn in H.
  destruct (getBlockchainInfo client) as [chainInfo | e] eqn:Hinfo;
    [| discriminate H]. cbn in H.
  exists cur, lnd, decodedInvoice, client, chainInfo.
  repeat match goal with |- _ /\ _ => split end; try reflexivity;
    try assumption.
  cbn zeta.
  set (routeTimeLock :=
         TimeoutDeltaProvider.checkRoutability paymentMaxParts lnd
           decodedInvoice (Types.swapMaximal lightningTimeout)) in *.
  pose proof (getBlockTime_pos E chainCurrency) as Hc.
  set (tc := TimeoutDeltaProvider.getBlockTime E chainCurrency) in *.
  set (tl := TimeoutDeltaProvider.getBlockTime E lightningCurrency) in *.
  destruct (Qeq_bool routeTimeLock TimeoutDeltaProvider.noRoutes) eqn:Eq.
  - injection H as <- <-. apply Qeq_bool_iff in Eq.
    split; [intros _; split; [exact Eq | reflexivity] | discriminate].
  - assert (Hneq : ~ (routeTimeLock == TimeoutDeltaProvider.noRoutes)%Q).
    { intros Heq. apply Qeq_bool_iff in Heq. congruence. }
    set (minutes := Js.Math_ceil ((routeTimeLock - blocks chainInfo) * tl)%Q)
      in *.
    set (minTimeout :=
           Js.Math_ceil ((minutes + TimeoutDeltaProvider.routingOffset) / tc)%Q)
      in *.
    destruct (Js.gt minTimeout (Types.swapMaximal chainTimeout)) eqn:Egt;
      [discriminate H |].
    apply gt_false in Egt. injection H as <- <-.
    split; [discriminate |]. intros _.
    rewrite Math_max_Qmax.
    pose proof (Q.le_max_l (Types.swapMinimal chainTimeout) minTimeout) as Hl.
    pose proof (Q.le_max_r (Types.swapMinimal chainTimeout) minTimeout) as Hr.
    repeat match goal with |- _ /\ _ => split end.
    + exact Hneq.
    + exact Hl.
    + pose proof (Math_ceil_ge ((routeTimeLock - blocks chainInfo) * tl)%Q)
        as Hm. fold minutes in Hm.
      pose proof (Math_ceil_ge
                    ((minutes + TimeoutDeltaProvider.routingOffset) / tc)%Q)
        as Ht. fold minTimeout in Ht.
      apply (Qmult_le_compat_r _ _ tc) in Ht; [| lra].
      rewrite (Qdiv_mult_cancel _ tc Hc) in Ht.
      assert (Hmax : (minTimeout * tc
                      <= Qmax (Types.swapMinimal chainTimeout) minTimeout
                         * tc)%Q)
        by (apply Qmult_le_compat_r; lra).
      lra.
    + intros Hle. apply Q.max_lub; assumption.
Qed.

(** An invoice whose route needs 40 blocks of BTC: 460 minutes, 46 blocks,
    below the minimal of 144. *)
Lemma getTimeoutInvoice_timeout_covers_route_witness :
  exists timeout,
    TimeoutDeltaProvider.getTimeoutInvoice "L-BTC" 4%Q
      (Demo.currencies (Some 800040%Q) (Throw TypeError))
      "BTC" "BTC" Demo.btcDeltas Demo.btcDeltas "lnbc1"
    = Ok (timeout, true)
    /\ (Types.swapMinimal Demo.btcDeltas <= timeout)%Q.
Proof.
  destruct (TimeoutDeltaProvider.getTimeoutInvoice "L-BTC" 4%Q
              (Demo.currencies (Some 800040%Q) (Throw TypeError))
              "BTC" "BTC" Demo.btcDeltas Demo.btcDeltas "lnbc1")
    as [[timeout routable] | e] eqn:Erun;
    [| vm_compute in Erun; discriminate Erun].
  assert (Hr : routable = true).
  { vm_compute in Erun. injection Erun as _ <-. reflexivity. }
  subst routable. exists timeout. split; [reflexivity |].
  destruct (getTimeoutInvoice_timeout_covers_route _ _ _ _ _ _ _ _ _ _ Erun)
    as (cur & lnd & dec & client & info & _ & _ & _ & _ & _ & _ & H).
  destruct (H eq_refl) as (_ & Hmin & _). exact Hmin.
Defined.

(** ** TimeoutDeltaProvider: init, setTimeout and getTimeout together *)

Section ProviderRuns.

Import Js TimeoutDeltaProvider.
Local Open Scope Q_scope.

Context (E : string).
Context (getPairId : PairConfig -> string).
Context (splitPairId : string -> string * string).
Context {Others : Type}.

Local Abbreviation minutesToBlocks := (minutesToBlocks E splitPairId).
Local Abbreviation initPair := (initPair E getPairId splitPairId).
Local Abbreviation init := (init E getPairId splitPairId).

(** [init] touches neither the currencies nor the files. *)
Lemma init_frame (ps : list PairConfig) (w w' : World Others)
    (r : Res (list PairConfig)) :
  init ps w = (r, w') ->
  currencies w' = currencies w /\ fs w' = fs w.
Proof.
  revert w w' r. induction ps as [| p rest IH]; intros w w' r H.
  - injection H as <- <-. auto.
  - rewrite init_cons, initPair_run in H.
    destruct (Types.timeoutDelta p) as [d |];
      [| injection H as <- <-; auto].
    destruct (minutesToBlocks (getPairId p) (expandLegacy d)) as [blocks | e];
      [| injection H as <- <-; auto].
    destruct (init rest (setDeltas (getPairId p) blocks w))
      as [[rest' | e] w2] eqn:Er;
      injection H as <- <-; apply IH in Er; exact Er.
Qed.

(** [init] leaves the deltas of an id that no entry has. *)
Lemma init_other (ps : list PairConfig) (w w' : World Others)
    (r : Res (list PairConfig)) (id : string) :
  init ps w = (r, w') ->
  Forall (fun p => getPairId p <> id) ps ->
  timeoutDeltas w' !! id = timeoutDeltas w !! id.
Proof.
  revert w w' r. induction ps as [| p rest IH]; intros w w' r H Hall.
  - injection H as <- <-. reflexivity.
  - apply Forall_cons in Hall as [Hp Hrest].
    rewrite init_cons, initPair_run in H.
    destruct (Types.timeoutDelta p) as [d |];
      [| injection H as <- <-; reflexivity].
    destruct (minutesToBlocks (getPairId p) (expandLegacy d)) as [blocks | e];
      [| injection H as <- <-; reflexivity].
    destruct (init rest (setDeltas (getPairId p) blocks w))
      as [[rest' | e] w2] eqn:Er;
      injection H as <- <-; rewrite (IH _ _ _ Er Hrest); cbn;
      apply lookup_insert_ne; exact Hp.
Qed.

(** A pair that is known stays known through [init]. *)
Lemma init_keeps_known (ps : list PairConfig) (w w' : World Others)
    (r : Res (list PairConfig)) (id : string) :
  init ps w = (r, w') ->
  is_Some (timeoutDeltas w !! id) ->
  is_Some (timeoutDeltas w' !! id).
Proof.
  revert w w' r. induction ps as [| p rest IH]; intros w w' r H Hknown.
  - injection H as <- <-. exact Hknown.
  - rewrite init_cons, initPair_run in H.
    destruct (Types.timeoutDelta p) as [d |];
      [| injection H as <- <-; exact Hknown].
    destruct (minutesToBlocks (getPairId p) (expandLegacy d)) as [blocks | e];
      [| injection H as <- <-; exact Hknown].
    assert (Hk : is_Some (timeoutDeltas (setDeltas (getPairId p) blocks w)
                            !! id)).
    { cbn. destruct (decide (getPairId p = id)) as [-> | Hne].
      - rewrite lookup_insert_eq. eauto.
      - rewrite lookup_insert_ne by exact Hne. exact Hknown. }
    destruct (init rest (setDeltas (getPairId p) blocks w))
      as [[rest' | e] w2] eqn:Er;
      injection H as <- <-; exact (IH _ _ _ Er Hk).
Qed.

Lemma init_known (ps ps' : list PairConfig) (w w' : World Others) :
  init ps w = (Ok ps', w') ->
  Forall (fun p => is_Some (timeoutDeltas w' !! getPairId p)) ps.
Proof.
  revert w w' ps'. induction ps as [| p rest IH]; intros w w' ps' H.
  - constructor.
  - rewrite init_cons, initPair_run in H.
    destruct (Types.timeoutDelta p) as [d |]; [| discriminate H].
    destruct (minutesToBlocks (getPairId p) (expandLegacy d)) as [blocks | e];
      [| discriminate H].
    destruct (init rest (setDeltas (getPairId p) blocks w))
      as [[rest' | e] w2] eqn:Er; [| discriminate H].
    injection H as <- <-. constructor.
    + eapply init_keeps_known; [exact Er |]. cbn.
      rewrite lookup_insert_eq. eauto.
    + eapply IH. exact Er.
Qed.

End ProviderRuns.

(** X7.  Where [init] returns, each pair of the list is known with the
    blocks of its last entry in the list; an id that no entry has keeps
    what it had; the currencies and the files are not touched; and each
    entry handed over is left as it was but for its deltas, which are a
    table: that of the entry, or the three equal values of its legacy
    number.  The entries are the caller's objects; what that makes of a
    configuration that holds them is not stated here. *)
Theorem init_sets_the_deltas_of_every_pair
    (E : string) (getPairId : Types.PairConfig -> string)
    (splitPairId : string -> string * string) {Others : Type}
    (ps ps' : list Types.PairConfig)
    (w w' : TimeoutDeltaProvider.World Others) :
  TimeoutDeltaProvider.init E getPairId splitPairId ps w = (Ok ps', w') ->
  (forall pre p post,
      ps = pre ++ p :: post ->
      Forall (fun q => getPairId q <> getPairId p) post ->
      exists d blocks,
        Types.timeoutDelta p = Some d
        /\ TimeoutDeltaProvider.minutesToBlocks E splitPairId (getPairId p)
             (TimeoutDeltaProvider.expandLegacy d) = Ok blocks
        /\ TimeoutDeltaProvider.timeoutDeltas w' !! getPairId p = Some blocks)
  /\ (forall id,
         Forall (fun p => getPairId p <> id) ps ->
         TimeoutDeltaProvider.timeoutDeltas w' !! id
         = TimeoutDeltaProvider.timeoutDeltas w !! id)
  /\ TimeoutDeltaProvider.currencies w' = TimeoutDeltaProvider.currencies w
  /\ TimeoutDeltaProvider.fs w' = TimeoutDeltaProvider.fs w
  /\ Forall2 (fun p p' =>
                exists d,
                  Types.timeoutDelta p = Some d
                  /\ Types.base p' = Types.base p
                  /\ Types.quote p' = Types.quote p
                  /\ Types.rate p' = Types.rate p
                  /\ Types.fee p' = Types.fee p
                  /\ Types.timeoutDelta p'
                     = Some (Types.DeltaTable
                               (TimeoutDeltaProvider.expandLegacy d)))
             ps ps'.
Proof.
  intros H.
  destruct (init_frame E getPairId splitPairId ps w w' _ H)
    as (Hcur & Hfs).
  repeat match goal with |- _ /\ _ => split end; try assumption.
  - intros pre p post -> Hpost. clear Hcur Hfs. revert w ps' H.
    induction pre as [| q pre IH]; intros w ps' H.
    + cbn [app] in H. rewrite init_cons, initPair_run in H.
      destruct (Types.timeoutDelta p) as [d |]; [| discriminate H].
      destruct (TimeoutDeltaProvider.minutesToBlocks E splitPairId
                  (getPairId p) (TimeoutDeltaProvider.expandLegacy d))
        as [blocks | e] eqn:Eb; [| discriminate H].
      destruct (TimeoutDeltaProvider.init E getPairId splitPairId post _)
        as [[rest' | e] w2] eqn:Er; [| discriminate H].
      injection H as <- <-. exists d, blocks.
      split; [reflexivity |]. split; [exact Eb |].
      rewrite (init_other E getPairId splitPairId post _ _ _ (getPairId p)
                 Er Hpost).
      cbn. apply lookup_insert_eq.
    + cbn [app] in H. rewrite init_cons, initPair_run in H.
      destruct (Types.timeoutDelta q) as [dq |]; [| discriminate H].
      destruct (TimeoutDeltaProvider.minutesToBlocks E splitPairId
                  (getPairId q) (TimeoutDeltaProvider.expandLegacy dq))
        as [bq | e]; [| discriminate H].
      destruct (TimeoutDeltaProvider.init E getPairId splitPairId
                  (pre ++ p :: post) _) as [[rest' | e] w2] eqn:Er;
        [| discriminate H].
      injection H as <- <-. exact (IH _ _ Er).
  - intros id Hall.
    exact (init_other E getPairId splitPairId ps w w' _ id H Hall).
  - clear Hcur Hfs. revert w ps' H.
    induction ps as [| p rest IH]; intros w ps' H.
    + injection H as <- <-. constructor.
    + rewrite init_cons, initPair_run in H.
      destruct (Types.timeoutDelta p) as [d |] eqn:Ed; [| discriminate H].
      destruct (TimeoutDeltaProvider.minutesToBlocks E splitPairId
                  (getPairId p) (TimeoutDeltaProvider.expandLegacy d))
        as [blocks | e]; [| discriminate H].
      destruct (TimeoutDeltaProvider.init E getPairId splitPairId rest _)
        as [[rest' | e] w2] eqn:Er; [| discriminate H].
      injection H as <- <-.
      constructor; [| exact (IH _ _ Er)].
      exists d. split; [exact Ed |]. cbn. repeat split; reflexivity.
Qed.

(** Two pairs with legacy deltas handed to a provider that knows
    BTC/BTC: LTC/BTC is known afterwards, with 24 blocks of Litecoin and
    6 of Bitcoin. *)
Lemma init_sets_the_deltas_of_every_pair_witness :
  exists ps' w' blocks,
    TimeoutDeltaProvider.init "L-BTC" Demo.getPairId Demo.splitPairId
      [Demo.btcPair (Some (Types.LegacyMinutes 2880%Q));
       Demo.ltcPair (Some (Types.LegacyMinutes 60%Q))]
      Demo.provider
    = (Ok ps', w')
    /\ TimeoutDeltaProvider.minutesToBlocks "L-BTC" Demo.splitPairId
         "LTC/BTC"
         (TimeoutDeltaProvider.expandLegacy (Types.LegacyMinutes 60%Q))
       = Ok blocks
    /\ TimeoutDeltaProvider.timeoutDeltas w' !! "LTC/BTC"%string
       = Some blocks.
Proof.
  destruct (TimeoutDeltaProvider.init "L-BTC" Demo.getPairId Demo.splitPairId
              [Demo.btcPair (Some (Types.LegacyMinutes 2880%Q));
               Demo.ltcPair (Some (Types.LegacyMinutes 60%Q))]
              Demo.provider)
    as [[ps' | e] w'] eqn:Erun; [| vm_compute in Erun; discriminate Erun].
  destruct (init_sets_the_deltas_of_every_pair _ _ _ _ _ _ _ Erun)
    as (Hlast & _).
  destruct (Hlast [Demo.btcPair (Some (Types.LegacyMinutes 2880%Q))]
              (Demo.ltcPair (Some (Types.LegacyMinutes 60%Q))) []
              eq_refl ltac:(constructor))
    as (d & blocks & Hd & Hblocks & Hlookup).
  injection Hd as <-.
  exists ps', w', blocks. split; [reflexivity |]. split; assumption.
Defined.

(** X8.  [init] stops at the first entry that has no timeout delta with
    [NO_TIMEOUT_DELTA] of that pair.  The entries after it are not looked
    at, and what the entries before it set stays set: those pairs are
    known to the provider although [init] failed. *)
Theorem init_stops_at_missing_delta
    (E : string) (getPairId : Types.PairConfig -> string)
    (splitPairId : string -> string * string) {Others : Type}
    (pre pre' post : list Types.PairConfig) (p : Types.PairConfig)
    (w w1 : TimeoutDeltaProvider.World Others) :
  TimeoutDeltaProvider.init E getPairId splitPairId pre w = (Ok pre', w1) ->
  Types.timeoutDelta p = None ->
  TimeoutDeltaProvider.init E getPairId splitPairId (pre ++ p :: post) w
  = (Throw (NO_TIMEOUT_DELTA (getPairId p)), w1)
  /\ Forall (fun q =>
               is_Some (TimeoutDeltaProvider.timeoutDeltas w1 !! getPairId q))
            pre.
Proof.
  intros Hpre Hnone. split.
  - revert pre' w w1 Hpre. induction pre as [| q pre IH]; intros pre' w w1 H.
    + injection H as <- <-. cbn [app].
      rewrite init_cons, initPair_run, Hnone. reflexivity.
    + cbn [app]. rewrite init_cons in H |- *.
      destruct (TimeoutDeltaProvider.initPair E getPairId splitPairId q w)
        as [[q' | e] w0]; [| discriminate H].
      destruct (TimeoutDeltaProvider.init E getPairId splitPairId pre w0)
        as [[pre0 | e] w2] eqn:Ep; [| discriminate H].
      injection H as _ <-. rewrite (IH pre0 w0 w2 Ep). reflexivity.
  - exact (init_known E getPairId splitPairId pre pre' w w1 Hpre).
Qed.

(** A list of three pairs whose second has no delta. *)
Lemma init_stops_at_missing_delta_witness :
  exists w1,
    TimeoutDeltaProvider.init "L-BTC" Demo.getPairId Demo.splitPairId
      ([Demo.btcPair (Some (Types.LegacyMinutes 1440%Q))]
       ++ Demo.ltcPair None
       :: [Demo.btcPair (Some (Types.LegacyMinutes 7%Q))])
      Demo.provider
    = (Throw (NO_TIMEOUT_DELTA "LTC/BTC"), w1)
    /\ is_Some (TimeoutDeltaProvider.timeoutDeltas w1 !! "BTC/BTC"%string).
Proof.
  destruct (TimeoutDeltaProvider.init "L-BTC" Demo.getPairId Demo.splitPairId
              [Demo.btcPair (Some (Types.LegacyMinutes 1440%Q))] Demo.provider)
    as [[pre' | e] w1] eqn:Epre; [| vm_compute in Epre; discriminate Epre].
  exists w1.
  destruct (init_stops_at_missing_delta "L-BTC" Demo.getPairId
              Demo.splitPairId
              [Demo.btcPair (Some (Types.LegacyMinutes 1440%Q))] pre'
              [Demo.btcPair (Some (Types.LegacyMinutes 7%Q))]
              (Demo.ltcPair None) Demo.provider w1 Epre eq_refl)
    as [Hrun Hknown].
  split; [exact Hrun |].
  apply Forall_cons in Hknown as [Hk _]. exact Hk.
Defined.

(** X9.  After [setTimeout] returned, [getTimeout] answers for that pair
    with the new deltas in blocks: for a reverse swap the [reverse] value
    over the block time of the base (buy) or of the quote (sell), never
    flagged; for a swap without invoice the [swapMinimal] value over the
    block time of the chain side, flagged.  For every other pair its
    answers are what they were. *)
Theorem setTimeout_then_getTimeout
    (E : string) (paymentMaxParts : Q)
    (getPairId : Types.PairConfig -> string)
    (splitPairId : string -> string * string)
    (getChainCurrency getLightningCurrency :
       string -> string -> OrderSide -> bool -> string)
    {Others : Type} (toml_stringify : Types.ConfigType Others -> string)
    (w w' : TimeoutDeltaProvider.World Others)
    (pairId : string) (d : Types.PairTimeoutBlocksDelta) :
  TimeoutDeltaProvider.setTimeout E getPairId splitPairId toml_stringify
    pairId d w = (Ok tt, w') ->
  let getTimeout :=
    TimeoutDeltaProvider.getTimeout E paymentMaxParts splitPairId
      getChainCurrency getLightningCurrency in
  let blockTime := TimeoutDeltaProvider.getBlockTime E in
  let b := (splitPairId pairId).1 in
  let q := (splitPairId pairId).2 in
  (forall side invoice,
      getTimeout w' pairId side true invoice
      = Ok ((Types.reverse d
             / blockTime (if decide (side = BUY) then b else q))%Q, false))
  /\ (forall side,
         getTimeout w' pairId side false None
         = Ok ((Types.swapMinimal d
                / blockTime (if decide (side = BUY) then q else b))%Q, true))
  /\ (forall other side isReverse invoice,
         other <> pairId ->
         getTimeout w' other side isReverse invoice
         = getTimeout w other side isReverse invoice).
Proof.
  intros H getTimeout blockTime b q. rewrite setTimeout_run in H.
  destruct (bool_decide (is_Some (TimeoutDeltaProvider.timeoutDeltas w
                                    !! pairId))); [| discriminate H].
  destruct (minutesToBlocks_spec E splitPairId pairId d)
    as [[_ Eq] | [_ Eq]]; rewrite Eq in H; [| discriminate H].
  cbn zeta in H. injection H as <-. subst getTimeout.
  repeat match goal with |- _ /\ _ => split end.
  - intros side invoice. unfold TimeoutDeltaProvider.getTimeout. cbn.
    rewrite lookup_insert_eq. destruct (decide (side = BUY)); reflexivity.
  - intros side. unfold TimeoutDeltaProvider.getTimeout. cbn.
    rewrite lookup_insert_eq. subst b q.
    destruct (splitPairId pairId) as [b q]. cbn.
    destruct (decide (side = BUY)); reflexivity.
  - intros other side isReverse invoice Hne.
    unfold TimeoutDeltaProvider.getTimeout. cbn.
    rewrite lookup_insert_ne by congruence. reflexivity.
Qed.

(** The pair of the example provider set to deltas of one day. *)
Lemma setTimeout_then_getTimeout_witness :
  exists w',
    TimeoutDeltaProvider.setTimeout "L-BTC" Demo.getPairId Demo.splitPairId
      Demo.stringify "BTC/BTC" Demo.day Demo.provider = (Ok tt, w')
    /\ TimeoutDeltaProvider.getTimeout "L-BTC" 4%Q Demo.splitPairId
         Demo.getChainCurrency Demo.getLightningCurrency w' "BTC/BTC" SELL
         false None
       = Ok ((Types.swapMinimal Demo.day
              / TimeoutDeltaProvider.getBlockTime "L-BTC" "BTC")%Q, true).
Proof.
  destruct (TimeoutDeltaProvider.setTimeout "L-BTC" Demo.getPairId
              Demo.splitPairId Demo.stringify "BTC/BTC" Demo.day
              Demo.provider) as [[[] | e] w'] eqn:Erun;
    [| vm_compute in Erun; discriminate Erun].
  exists w'. split; [reflexivity |].
  destruct (setTimeout_then_getTimeout "L-BTC" 4%Q Demo.getPairId
              Demo.splitPairId Demo.getChainCurrency
              Demo.getLightningCurrency Demo.stringify Demo.provider w'
              "BTC/BTC" Demo.day Erun) as (_ & H & _).
  exact (H SELL).
Defined.

(** ** Service: the limits of an amount *)

(** X10.  For a rate that is not negative, [verifyAmount] is monotone in
    the amount: an amount between two accepted amounts is accepted; when
    an amount exceeds the maximal, so does every higher one; and when an
    amount is beneath the minimal, so is every lower one. *)
Theorem verifyAmount_accepts_an_interval
    (splitPairId : string -> string * string)
    (pairs : gmap string Service.PairType) (pairId : string)
    (rate lo amount hi : Q) (side : OrderSide) (type : SwapType) :
  (0 <= rate)%Q -> (lo <= amount)%Q -> (amount <= hi)%Q ->
  let verify amount :=
    Service.verifyAmount splitPairId pairs pairId rate amount side type in
  (verify lo = Ok tt -> verify hi = Ok tt -> verify amount = Ok tt)
  /\ (forall a m,
         verify amount = Throw (EXCEED_MAXIMAL_AMOUNT a m) ->
         exists a', verify hi = Throw (EXCEED_MAXIMAL_AMOUNT a' m))
  /\ (forall a m,
         verify amount = Throw (BENEATH_MINIMAL_AMOUNT a m) ->
         exists a', verify lo = Throw (BENEATH_MINIMAL_AMOUNT a' m)).
Proof.
  intros Hrate Hlo Hhi verify. subst verify. cbn beta.
  destruct (pairs !! pairId) as [p |] eqn:Hp.
  2:{ unfold Service.verifyAmount, Service.getPair.
      destruct (splitPairId pairId) as [b q]. rewrite Hp. cbn.
      repeat split; intros; discriminate. }
  destruct (Service.limits p) as [lim |] eqn:Hlim.
  2:{ unfold Service.verifyAmount, Service.getPair.
      destruct (splitPairId pairId) as [b q]. rewrite Hp. cbn. rewrite Hlim.
      repeat split; intros; discriminate. }
  rewrite !(verifyAmount_run splitPairId pairs pairId p lim rate _ side type
              Hp Hlim). cbn zeta.
  set (n := fun x => Service.normalize rate x side type).
  change (Service.normalize rate lo side type) with (n lo).
  change (Service.normalize rate amount side type) with (n amount).
  change (Service.normalize rate hi side type) with (n hi).
  assert (Hn : forall x y, (x <= y)%Q -> (n x <= n y)%Q).
  { intros x y Hxy. subst n. cbn beta. unfold Service.normalize.
    destruct (Service.converts side type); [| exact Hxy].
    apply Math_floor_mono. apply Qmult_le_compat_r; assumption. }
  pose proof (Math_floor_mono _ _ (Hn _ _ Hlo)) as Hf1.
  pose proof (Math_floor_mono _ _ (Hn _ _ Hhi)) as Hf2.
  pose proof (Math_ceil_mono _ _ (Hn _ _ Hlo)) as Hc1.
  pose proof (Math_ceil_mono _ _ (Hn _ _ Hhi)) as Hc2.
  destruct (Js.gt (Js.Math_floor (n lo)) (Service.maximal lim)) eqn:G1;
    [apply gt_spec in G1 | apply gt_false in G1];
  destruct (Js.gt (Js.Math_floor (n amount)) (Service.maximal lim)) eqn:G2;
    [apply gt_spec in G2 | apply gt_false in G2 |
     apply gt_spec in G2 | apply gt_false in G2];
  destruct (Js.gt (Js.Math_floor (n hi)) (Service.maximal lim)) eqn:G3;
    try (apply gt_spec in G3); try (apply gt_false in G3);
  destruct (Js.lt (Js.Math_ceil (n lo)) (Service.minimal lim)) eqn:L1;
    try (apply lt_spec in L1); try (apply lt_false in L1);
  destruct (Js.lt (Js.Math_ceil (n amount)) (Service.minimal lim)) eqn:L2;
    try (apply lt_spec in L2); try (apply lt_false in L2);
  destruct (Js.lt (Js.Math_ceil (n hi)) (Service.minimal lim)) eqn:L3;
    try (apply lt_spec in L3); try (apply lt_false in L3);
  try (exfalso; lra);
  (split; [| split]);
  first [ intros; discriminate
        | intros _ _; reflexivity
        | intros a m Ha; injection Ha as _ <-; eexists; reflexivity
        | idtac ].
Qed.

(** Amounts of 10 000, 50 000 and 1 000 000 within limits of 10 000 to
    1 000 000. *)
Lemma verifyAmount_accepts_an_interval_witness :
  Service.verifyAmount Demo.splitPairId Demo.pairs "BTC/BTC" 1%Q 50000%Q BUY
    Submarine = Ok tt.
Proof.
  apply (verifyAmount_accepts_an_interval Demo.splitPairId Demo.pairs
           "BTC/BTC" 1%Q 10000%Q 50000%Q 1000000%Q BUY Submarine).
  - vm_compute. discriminate.
  - vm_compute. discriminate.
  - vm_compute. discriminate.
  - vm_compute. reflexivity.
  - vm_compute. reflexivity.
Defined.

(** ** Service: what a creation writes *)

Lemma find_app_last {A} (f : A -> bool) (l : list A) (x : A) :
  f x = true -> exists y, find f (l ++ [x]) = Some y /\ f y = true.
Proof.
  intros Hx. induction l as [| a l IH]; cbn.
  - rewrite Hx. eauto.
  - destruct (f a) eqn:Ea; [eauto | exact IH].
Qed.

Lemma lowerAscii_idempotent (c : ascii) :
  Service.lowerAscii (Service.lowerAscii c) = Service.lowerAscii c.
Proof. destruct c as [[] [] [] [] [] [] [] []]; vm_compute; reflexivity. Qed.

Lemma toLowerCase_idempotent (s : string) :
  Service.toLowerCase (Service.toLowerCase s) = Service.toLowerCase s.
Proof.
  induction s as [| c s IH]; cbn; [reflexivity |].
  now rewrite lowerAscii_idempotent, IH.
Qed.

(** A step of a creation that failed before the swap manager was called:
    the result is the error and nothing was written. *)
Ltac creation_failed H :=
  injection H as <- <-; cbn;
  repeat match goal with |- _ /\ _ => split end;
  first [ reflexivity
        | assumption
        | intros Hoff; discriminate Hoff
        | intros ? ?; split; [reflexivity | left; reflexivity]
        | intros ? ?; split; [reflexivity |];
          split; [reflexivity | left; reflexivity]
        | intros ? Hok; discriminate Hok ].

Section CreationRuns.

Import Js Service.
Local Open Scope Q_scope.

Context (splitPairId : string -> string * string).
Context (getChainCurrency getLightningCurrency :
           string -> string -> OrderSide -> bool -> string).
Context (getInvoiceAmt : string -> Res number).
Context (getRate : number -> OrderSide -> SwapType -> number).
Context (getSwapMemo : string -> SwapType -> string).
Context (encodeBip21 : string -> string -> number -> string -> string).
Context (pairs : gmap string PairType).
Context (rateProvider_acceptZeroConf : string -> number -> bool).
Context (feeProvider_getFees :
           string -> number -> OrderSide -> number -> SwapType -> Res Fees).
Context (timeoutDeltaProvider_getTimeout :
           string -> OrderSide -> SwapType -> Res number).
Context (wallets : gmap string Wallet).
Context (swapManager_createSwap : CreateSwapArgs -> Res SwapDetails).
Context (swapManager_createReverseSwap :
           CreateReverseSwapArgs -> Res ReverseSwapDetails).
Context (idSource : nat -> string).

Local Abbreviation createSwap :=
  (createSwap splitPairId getChainCurrency getLightningCurrency
     getInvoiceAmt getRate getSwapMemo encodeBip21 pairs
     rateProvider_acceptZeroConf feeProvider_getFees
     timeoutDeltaProvider_getTimeout wallets swapManager_createSwap
     idSource).
Local Abbreviation createReverseSwap :=
  (createReverseSwap splitPairId getChainCurrency getRate pairs
     feeProvider_getFees timeoutDeltaProvider_getTimeout wallets
     swapManager_createReverseSwap idSource).

(** The output type of a wallet that is there. *)
Lemma getSwapOutputType_ok (chainCurrency : string) (isReverse : bool)
    (t : OutputType.t) :
  getSwapOutputType wallets chainCurrency isReverse = Ok t ->
  exists wallet,
    wallets !! chainCurrency = Some wallet
    /\ t = if supportsSegwit wallet
           then (if isReverse then OutputType.Bech32
                 else OutputType.Compatibility)
           else OutputType.Legacy.
Proof using Type.
  unfold getSwapOutputType.
  destruct (wallets !! chainCurrency) as [wallet |]; [| discriminate].
  intros H. exists wallet. split; [reflexivity |].
  destruct (supportsSegwit wallet); cbn in H; congruence.
Qed.

(** A creation that returns had found no swap of that invoice and has
    added a row of it. *)
Lemma createSwap_ok_row (w w' : World) (pairId orderSide inv : string)
    (refundPublicKey : Buffer) (r : CreatedSwap) :
  createSwap pairId orderSide inv refundPublicKey w = (Ok r, w') ->
  getSwapByInvoice inv w = None
  /\ exists row,
       swapRepository w' = swapRepository w ++ [row] /\ invoice row = inv.
Proof using Type.
  clear swapManager_createReverseSwap.
  intros H. unfold Service.createSwap in H.
  unfold mbind, M_bind, mret, M_ret, bindM, getsM, liftR, throwM,
    generateId, callManager, addSwap, modifyM, retM in H.
  destruct (getSwapByInvoice inv w); [discriminate |].
  destruct (getPair splitPairId pairs pairId) as [[[b q] p] | e];
    [| discriminate].
  destruct (getOrderSide orderSide) as [side | e]; [| discriminate].
  destruct (timeoutDeltaProvider_getTimeout pairId side Submarine)
    as [delta | e]; [| discriminate].
  destruct (getInvoiceAmt inv) as [invoiceAmount | e]; [| discriminate].
  destruct (verifyAmount splitPairId pairs pairId _ invoiceAmount side
              Submarine) as [[] | e]; [| discriminate].
  destruct (feeProvider_getFees pairId _ side invoiceAmount Submarine)
    as [fees | e]; [| discriminate].
  destruct (getSwapOutputType wallets _ false) as [outputType | e];
    [| discriminate].
  destruct (swapManager_createSwap _) as [d | e]; [| discriminate].
  injection H as <- <-. split; [reflexivity |].
  eexists. split; reflexivity.
Qed.

(** X11.  An invoice is used by one swap only.  Where [createSwap]
    returns, no swap of that invoice was there before; every later
    creation with the same invoice, for whatever pair, side and key,
    fails with [SWAP_WITH_INVOICE_EXISTS] and writes nothing; and when the
    invoices of the rows were pairwise different before, they still
    are. *)
Theorem createSwap_invoice_is_used_once
    (w w' : World) (pairId orderSide inv : string) (refundPublicKey : Buffer)
    (r : CreatedSwap) :
  createSwap pairId orderSide inv refundPublicKey w = (Ok r, w') ->
  getSwapByInvoice inv w = None
  /\ (forall pairId' orderSide' refundPublicKey',
         createSwap pairId' orderSide' inv refundPublicKey' w'
         = (Throw SWAP_WITH_INVOICE_EXISTS, w'))
  /\ (NoDup (map invoice (swapRepository w)) ->
      NoDup (map invoice (swapRepository w'))).
Proof using Type.
  clear swapManager_createReverseSwap.
  intros H. apply createSwap_ok_row in H as (Hnone & row & Hrepo & Hinv).
  split; [exact Hnone |]. split.
  - intros pairId' orderSide' refundPublicKey'.
    unfold Service.createSwap.
    unfold mbind, M_bind, bindM at 1. unfold getsM at 1.
    unfold getSwapByInvoice. rewrite Hrepo.
    destruct (find_app_last (fun row0 => String.eqb (invoice row0) inv)
                (swapRepository w) row) as (y & -> & _);
      [subst inv; apply String.eqb_refl | reflexivity].
  - intros Hnd. rewrite Hrepo, map_app. apply NoDup_app.
    split; [exact Hnd |]. split; [| cbn; apply NoDup_singleton].
    intros x Hx Hx'. cbn in Hx'. apply list_elem_of_singleton in Hx'.
    subst x. rewrite Hinv in Hx. apply list_elem_of_fmap in Hx
      as (row0 & Hrow0 & Hin).
    apply list_elem_of_In in Hin.
    pose proof (find_none _ _ Hnone row0 Hin) as Hf. cbn in Hf.
    apply String.eqb_neq in Hf. congruence.
Qed.

(** X12.  [createSwap] writes a row only when it returns.  A creation
    that fails leaves the rows as they were: either the swap manager was
    not called, or it was called once and the error is its own.  A
    creation that returns has drawn one id, called the swap manager once
    and added one row; the row, the call and the result carry that id
    and agree on the invoice, the address, the redeem script and the
    timeout height; and the output type asked for is never Bech32.  The
    reverse swaps are not touched. *)
Theorem createSwap_writes_only_on_success
    (w : World) (pairId orderSide inv : string) (refundPublicKey : Buffer) :
  let run := createSwap pairId orderSide inv refundPublicKey w in
  allowReverseSwaps run.2 = allowReverseSwaps w
  /\ reverseSwapRepository run.2 = reverseSwapRepository w
  /\ (forall e,
         run.1 = Throw e ->
         swapRepository run.2 = swapRepository w
         /\ (managerCalls run.2 = managerCalls w
             \/ exists args,
                  managerCalls run.2 = managerCalls w ++ [CreateSwapCall args]
                  /\ swapManager_createSwap args = Throw e))
  /\ (forall r,
         run.1 = Ok r ->
         idsDrawn run.2 = S (idsDrawn w)
         /\ c_id r = idSource (idsDrawn w)
         /\ exists row args,
              swapRepository run.2 = swapRepository w ++ [row]
              /\ managerCalls run.2 = managerCalls w ++ [CreateSwapCall args]
              /\ id row = c_id r
              /\ cs_id args = c_id r
              /\ invoice row = inv
              /\ cs_invoice args = inv
              /\ pair row = pairId
              /\ lockupAddress row = c_address r
              /\ redeemScript row = c_redeemScript r
              /\ timeoutBlockHeight row = c_timeoutBlockHeight r
              /\ acceptZeroConf row = c_acceptZeroConf r
              /\ cs_acceptZeroConf args = c_acceptZeroConf r
              /\ cs_expectedAmount args = c_expectedAmount r
              /\ cs_outputType args <> OutputType.Bech32).
Proof using Type.
  clear swapManager_createReverseSwap.
  intros run. destruct run as [res w'] eqn:H. subst run. cbn [fst snd].
  unfold Service.createSwap in H.
  unfold mbind, M_bind, mret, M_ret, bindM, getsM, liftR, throwM,
    generateId, callManager, addSwap, modifyM, retM in H.
  destruct (getSwapByInvoice inv w); [creation_failed H |].
  destruct (getPair splitPairId pairs pairId) as [[[b q] p] | e];
    [| creation_failed H].
  destruct (getOrderSide orderSide) as [side | e]; [| creation_failed H].
  destruct (timeoutDeltaProvider_getTimeout pairId side Submarine)
    as [delta | e]; [| creation_failed H].
  destruct (getInvoiceAmt inv) as [invoiceAmount | e];
    [| creation_failed H].
  destruct (verifyAmount splitPairId pairs pairId _ invoiceAmount side
              Submarine) as [[] | e]; [| creation_failed H].
  destruct (feeProvider_getFees pairId _ side invoiceAmount Submarine)
    as [fees | e]; [| creation_failed H].
  destruct (getSwapOutputType wallets _ false) as [outputType | e] eqn:Eo;
    [| creation_failed H].
  destruct (swapManager_createSwap _) as [d | e] eqn:Em.
  - injection H as <- <-. cbn.
    repeat match goal with |- _ /\ _ => split end; try reflexivity.
    + intros e He. discriminate He.
    + intros r Hr. injection Hr as <-. cbn.
      split; [reflexivity |]. split; [reflexivity |].
      eexists. eexists.
      repeat match goal with |- _ /\ _ => split end; try reflexivity.
      cbn. apply getSwapOutputType_ok in Eo as (wallet & _ & ->).
      destruct (supportsSegwit wallet); discriminate.
  - injection H as <- <-. cbn.
    repeat match goal with |- _ /\ _ => split end; try reflexivity.
    + intros e' He'. injection He' as <-. split; [reflexivity |].
      right. eexists. split; [reflexivity | exact Em].
    + intros r Hr. discriminate Hr.
Qed.

(** X13.  [createReverseSwap] fails with [REVERSE_SWAPS_DISABLED],
    whatever its arguments, while reverse swaps are not allowed.  A
    creation that fails has added no row and drawn no id: either the
    swap manager was not called, or it was called once and the error is
    its own.  A creation that returns has called the swap manager once,
    drawn one id after that and added one row of status
    [TransactionMempool]; the row and the result carry that id and agree
    on the invoice, the onchain amount, the redeem script, the lockup
    transaction and the timeout height; and the output type asked for is
    never Compatibility.  The submarine swaps are not touched. *)
Theorem createReverseSwap_writes_only_on_success
    (w : World) (pairId orderSide : string) (invoiceAmount : number)
    (claimPublicKey : Buffer) :
  let run :=
    createReverseSwap pairId orderSide invoiceAmount claimPublicKey w in
  (allowReverseSwaps w = false -> run = (Throw REVERSE_SWAPS_DISABLED, w))
  /\ allowReverseSwaps run.2 = allowReverseSwaps w
  /\ swapRepository run.2 = swapRepository w
  /\ (forall e,
         run.1 = Throw e ->
         reverseSwapRepository run.2 = reverseSwapRepository w
         /\ idsDrawn run.2 = idsDrawn w
         /\ (managerCalls run.2 = managerCalls w
             \/ exists args,
                  managerCalls run.2
                  = managerCalls w ++ [CreateReverseSwapCall args]
                  /\ swapManager_createReverseSwap args = Throw e))
  /\ (forall r,
         run.1 = Ok r ->
         allowReverseSwaps w = true
         /\ idsDrawn run.2 = S (idsDrawn w)
         /\ v_id r = idSource (idsDrawn w)
         /\ exists row args,
              reverseSwapRepository run.2 = reverseSwapRepository w ++ [row]
              /\ managerCalls run.2
                 = managerCalls w ++ [CreateReverseSwapCall args]
              /\ r_id row = v_id r
              /\ r_pair row = pairId
              /\ r_status row = Some TransactionMempool
              /\ r_invoice row = v_invoice r
              /\ r_onchainAmount row = v_onchainAmount r
              /\ cr_onchainAmount args = v_onchainAmount r
              /\ cr_invoiceAmount args = invoiceAmount
              /\ r_redeemScript row = v_redeemScript r
              /\ r_transactionId row = v_lockupTransactionId r
              /\ r_timeoutBlockHeight row = v_timeoutBlockHeight r
              /\ cr_outputType args <> OutputType.Compatibility).
Proof using Type.
  clear getLightningCurrency getInvoiceAmt getSwapMemo encodeBip21
    rateProvider_acceptZeroConf swapManager_createSwap.
  intros run. destruct run as [res w'] eqn:H. subst run. cbn [fst snd].
  unfold Service.createReverseSwap in H.
  unfold mbind, M_bind, mret, M_ret, bindM, getsM, liftR, throwM,
    generateId, callManager, addReverseSwap, modifyM, retM in H.
  destruct (allowReverseSwaps w) eqn:Hallow; cbn [negb] in H.
  2:{ injection H as <- <-. cbn.
      repeat match goal with |- _ /\ _ => split end; try reflexivity.
      - exact Hallow.
      - intros e _. split; [reflexivity |].
        split; [reflexivity | left; reflexivity].
      - intros r Hr. discriminate Hr. }
  destruct (getPair splitPairId pairs pairId) as [[[b q] p] | e];
    [| creation_failed H].
  destruct (getOrderSide orderSide) as [side | e]; [| creation_failed H].
  destruct (timeoutDeltaProvider_getTimeout pairId side ReverseSubmarine)
    as [delta | e]; [| creation_failed H].
  destruct (verifyAmount splitPairId pairs pairId _ invoiceAmount side
              ReverseSubmarine) as [[] | e]; [| creation_failed H].
  destruct (feeProvider_getFees pairId _ side invoiceAmount ReverseSubmarine)
    as [fees | e]; [| creation_failed H].
  destruct (lt _ 1); [creation_failed H |].
  destruct (getSwapOutputType wallets _ true) as [outputType | e] eqn:Eo;
    [| creation_failed H].
  destruct (swapManager_createReverseSwap _) as [d | e] eqn:Em.
  - injection H as <- <-. cbn.
    repeat match goal with |- _ /\ _ => split end;
      try reflexivity; try assumption.
    + intros Hoff. discriminate Hoff.
    + intros e He. discriminate He.
    + intros r Hr. injection Hr as <-. cbn.
      do 3 (split; [reflexivity |]).
      eexists. eexists.
      repeat match goal with |- _ /\ _ => split end; try reflexivity.
      cbn. apply getSwapOutputType_ok in Eo as (wallet & _ & ->).
      destruct (supportsSegwit wallet); discriminate.
  - injection H as <- <-. cbn.
    repeat match goal with |- _ /\ _ => split end;
      try reflexivity; try assumption.
    + intros Hoff. discriminate Hoff.
    + intros e' He'. injection He' as <-. split; [reflexivity |].
      split; [reflexivity |].
      right. eexists. split; [reflexivity | exact Em].
    + intros r Hr. discriminate Hr.
Qed.

End CreationRuns.

(** The swap of the examples, and a second creation with its invoice. *)
Lemma createSwap_invoice_is_used_once_witness :
  exists r w',
    Demo.createSwap "BTC/BTC" "buy" "lnbc1" [] Demo.service = (Ok r, w')
    /\ Demo.createSwap "LTC/BTC" "sell" "lnbc1" [] w'
       = (Throw SWAP_WITH_INVOICE_EXISTS, w').
Proof.
  destruct (Demo.createSwap "BTC/BTC" "buy" "lnbc1" [] Demo.service)
    as [[r | e] w'] eqn:Erun; [| vm_compute in Erun; discriminate Erun].
  exists r, w'. split; [reflexivity |].
  destruct (createSwap_invoice_is_used_once Demo.splitPairId
              Demo.getChainCurrency Demo.getLightningCurrency
              Demo.getInvoiceAmt Demo.getRate Demo.getSwapMemo
              Demo.encodeBip21 Demo.pairs Demo.acceptZeroConf Demo.getFees
              Demo.getTimeout Demo.wallets Demo.managerCreateSwap
              Demo.idSource Demo.service w' "BTC/BTC" "buy" "lnbc1" [] r
              Erun) as (_ & H & _).
  apply H.
Defined.

(** X14.  [getOrderSide] looks at the lower-cased string only: two
    strings that differ in the case of their letters get the same side,
    and a string gets the side of its lower-cased form.  The sides come
    from the words buy and sell alone, and the error names the string as
    it was given. *)
Theorem getOrderSide_ignores_case (side : string) :
  (forall other result,
      Service.toLowerCase other = Service.toLowerCase side ->
      Service.getOrderSide other = Ok result
      <-> Service.getOrderSide side = Ok result)
  /\ (forall result,
         Service.getOrderSide (Service.toLowerCase side) = Ok result
         <-> Service.getOrderSide side = Ok result)
  /\ (Service.getOrderSide side = Ok BUY
      <-> Service.toLowerCase side = "buy"%string)
  /\ (Service.getOrderSide side = Ok SELL
      <-> Service.toLowerCase side = "sell"%string)
  /\ (forall e,
         Service.getOrderSide side = Throw e -> e = ORDER_SIDE_NOT_FOUND side).
Proof.
  assert (Hcase : forall other result,
             Service.toLowerCase other = Service.toLowerCase side ->
             Service.getOrderSide other = Ok result
             <-> Service.getOrderSide side = Ok result).
  { intros other result Heq. unfold Service.getOrderSide. cbn zeta.
    rewrite Heq.
    destruct (String.eqb (Service.toLowerCase side) "buy"); [reflexivity |].
    destruct (String.eqb (Service.toLowerCase side) "sell"); [reflexivity |].
    split; discriminate. }
  split; [exact Hcase |]. split.
  - intros result. apply Hcase. apply toLowerCase_idempotent.
  - unfold Service.getOrderSide. cbn zeta.
    destruct (String.eqb (Service.toLowerCase side) "buy") eqn:Eb.
    + apply String.eqb_eq in Eb. rewrite Eb.
      repeat split; try discriminate; try reflexivity.
    + apply String.eqb_neq in Eb.
      destruct (String.eqb (Service.toLowerCase side) "sell") eqn:Es.
      * apply String.eqb_eq in Es. rewrite Es.
        repeat split; try discriminate; try reflexivity.
      * apply String.eqb_neq in Es.
        repeat split; try discriminate; try contradiction.
        intros e He. injection He as <-. reflexivity.
Qed.

(** ** MusigSigner: what the signer reads and writes *)

Section SignerRuns.

Import Js MusigSigner.

Context (splitPairId : string -> string * string).
Context (getChainCurrency getLightningCurrency :
           string -> string -> OrderSide -> bool -> string).
Context (getHexBuffer : string -> Buffer).
Context (getHexString : Buffer -> string).
Context (sha256 : Buffer -> Buffer).
Context (currencies : gmap string Currency).
Context {Wallet SwapTree Nursery : Type}.
Context (wallets : gmap string Wallet).
Context (deserializeSwapTree : string -> Res SwapTree).
Context (createPartialSignature :
           option Currency -> option Wallet -> SwapTree -> number ->
           Buffer -> Buffer -> Buffer -> number -> Res PartialSignature).
Context (settleReverseSwapInvoice :
           ReverseSwap -> Buffer -> M (World Nursery) unit).

Local Abbreviation hasNonFailedLightningPayment :=
  (hasNonFailedLightningPayment getHexBuffer).
Local Abbreviation signRefund :=
  (signRefund splitPairId getChainCurrency getLightningCurrency getHexBuffer
     currencies wallets deserializeSwapTree createPartialSignature
     (Nursery := Nursery)).
Local Abbreviation signReverseSwapClaim :=
  (signReverseSwapClaim splitPairId getChainCurrency getHexBuffer
     getHexString sha256 currencies wallets deserializeSwapTree
     createPartialSignature settleReverseSwapInvoice).

(** X15.  [signRefund] writes nothing: whatever it answers, the swaps and
    the nursery are as they were.  It fails with [SWAP_NOT_FOUND] for an
    id that has no swap and, before it looks at the version or the status
    of the swap, with [CURRENCY_NOT_UTXO_BASED] when the chain currency
    has no chain client; a chain currency that is not there makes it fail
    with a [TypeError]. *)
Theorem signRefund_writes_nothing
    (w : World Nursery) (swapId : string) (theirNonce rawTransaction : Buffer)
    (index : number) :
  let run := signRefund swapId theirNonce rawTransaction index w in
  run.2 = w
  /\ (swaps w !! swapId = None -> run.1 = Throw (SWAP_NOT_FOUND swapId))
  /\ (forall swap,
         swaps w !! swapId = Some swap ->
         let chain :=
           currencies
             !! getChainCurrency (splitPairId (pair swap)).1
                  (splitPairId (pair swap)).2 (orderSide swap) false in
         (chain = None -> run.1 = Throw TypeError)
         /\ (forall currency,
                chain = Some currency ->
                chainClient currency = None ->
                run.1 = Throw CURRENCY_NOT_UTXO_BASED)).
Proof using Type.
  clear getHexString sha256 settleReverseSwapInvoice.
  intros run. subst run. unfold MusigSigner.signRefund.
  unfold mbind, M_bind, bindM, getsM, liftR, throwM.
  destruct (swaps w !! swapId) as [swap |] eqn:Hswap.
  2:{ cbn. split; [reflexivity |]. split; [reflexivity |].
      intros swap Hs. discriminate Hs. }
  destruct (splitPairId (pair swap)) as [b q] eqn:Hsplit.
  destruct (currencies !! getChainCurrency b q (orderSide swap) false)
    as [currency |] eqn:Hcur; cbn [deref].
  2:{ cbn. split; [reflexivity |]. split; [discriminate |].
      intros swap' Hs. injection Hs as <-. rewrite Hsplit. cbn [fst snd].
      rewrite Hcur. split; [reflexivity | discriminate]. }
  destruct (bool_decide (chainClient currency = None)) eqn:Hutxo.
  - cbn. split; [reflexivity |]. split; [discriminate |].
    intros swap' Hs. injection Hs as <-. rewrite Hsplit. cbn [fst snd].
    rewrite Hcur. split; [discriminate | reflexivity].
  - apply bool_decide_eq_false in Hutxo.
    assert (Hrest : forall X : Res PartialSignature * World Nursery,
               X.2 = w ->
               X.2 = w
               /\ (Some swap = None -> X.1 = Throw (SWAP_NOT_FOUND swapId))
               /\ (forall swap0,
                      Some swap = Some swap0 ->
                      let chain :=
                        currencies
                          !! getChainCurrency (splitPairId (pair swap0)).1
                               (splitPairId (pair swap0)).2 (orderSide swap0)
                               false in
                      (chain = None -> X.1 = Throw TypeError)
                      /\ (forall currency0,
                             chain = Some currency0 ->
                             chainClient currency0 = None ->
                             X.1 = Throw CURRENCY_NOT_UTXO_BASED))).
    { intros X HX. split; [exact HX |]. split; [discriminate |].
      intros swap' Hs. injection Hs as <-. rewrite Hsplit. cbn [fst snd].
      rewrite Hcur. cbn zeta. split; [discriminate |].
      intros currency0 Hc0 Hnone. injection Hc0 as <-. contradiction. }
    apply Hrest.
    destruct (bool_decide (version swap ≠ Taproot) || _); [reflexivity |].
    destruct (deserializeSwapTree (redeemScript swap)); reflexivity.
Qed.

(** X16.  [hasNonFailedLightningPayment] is true in two cases only, and
    never for a chain swap: LND tracks the payment of the preimage hash
    with a status that is not [FAILED], or the swap has an invoice for
    which the [checkPayStatus] of CLN answers anything but that it knows
    no payment, its failure included. *)
Theorem hasNonFailedLightningPayment_cases
    (currency : Currency) (swap : Swap) :
  hasNonFailedLightningPayment currency swap = true
  <-> type swap <> Chain
      /\ ((exists lnd payment,
              lndClient currency = Some lnd
              /\ Lnd.trackPayment lnd (getHexBuffer (preimageHash swap))
                 = Ok payment
              /\ Lnd.status payment <> Lnd.FAILED)
          \/ (exists cln inv,
                 clnClient currency = Some cln
                 /\ invoice swap = Some inv
                 /\ Cln.checkPayStatus cln inv <> Ok None)).
Proof.
  unfold MusigSigner.hasNonFailedLightningPayment.
  destruct (bool_decide (type swap = Chain)) eqn:Ht.
  { apply bool_decide_eq_true in Ht. split; [discriminate | tauto]. }
  apply bool_decide_eq_false in Ht.
  assert (Hlnd : catch (lndPaymentNotFailed getHexBuffer currency swap)
                   (fun _ => false) = true
                 <-> exists lnd payment,
                       lndClient currency = Some lnd
                       /\ Lnd.trackPayment lnd
                            (getHexBuffer (preimageHash swap)) = Ok payment
                       /\ Lnd.status payment <> Lnd.FAILED).
  { unfold lndPaymentNotFailed.
    destruct (lndClient currency) as [lnd |]; cbn.
    - destruct (Lnd.trackPayment lnd (getHexBuffer (preimageHash swap)))
        as [payment | e] eqn:Et; cbn.
      + rewrite bool_decide_eq_true. split.
        * intros Hs. exists lnd, payment. auto.
        * intros (lnd' & payment' & Hl & Hp & Hs).
          injection Hl as <-. rewrite Et in Hp. injection Hp as <-. exact Hs.
      + split; [discriminate |].
        intros (lnd' & payment' & Hl & Hp & _).
        injection Hl as <-. rewrite Et in Hp. discriminate Hp.
    - split; [discriminate |].
      intros (lnd' & payment' & Hl & _). discriminate Hl. }
  assert (Hcln : catch (clnPaymentKnown currency swap) (fun _ => true) = true
                 <-> exists cln inv,
                       clnClient currency = Some cln
                       /\ invoice swap = Some inv
                       /\ Cln.checkPayStatus cln inv <> Ok None).
  { rewrite clnPaymentKnown_cases.
    destruct (clnClient currency) as [cln |].
    - destruct (invoice swap) as [inv |].
      + destruct (Cln.checkPayStatus cln inv) as [[payment |] | e] eqn:Ec.
        * split; [| reflexivity]. intros _. exists cln, inv.
          rewrite Ec. repeat split. discriminate.
        * split; [discriminate |].
          intros (cln' & inv' & Hc & Hi & Hn).
          injection Hc as <-. injection Hi as <-. contradiction.
        * split; [| reflexivity]. intros _. exists cln, inv.
          rewrite Ec. repeat split. discriminate.
      + split; [discriminate |].
        intros (cln' & inv' & _ & Hi & _). discriminate Hi.
    - split; [discriminate |].
      intros (cln' & inv' & Hc & _). discriminate Hc. }
  destruct (catch (lndPaymentNotFailed getHexBuffer currency swap) _).
  - split; [| reflexivity]. intros _. split; [exact Ht |].
    left. apply Hlnd. reflexivity.
  - destruct (catch (clnPaymentKnown currency swap) _).
    + split; [| reflexivity]. intros _. split; [exact Ht |].
      right. apply Hcln. reflexivity.
    + split; [discriminate |]. intros [_ [H | H]].
      * apply Hlnd in H. discriminate H.
      * apply Hcln in H. discriminate H.
Qed.

(** X17.  A claim that passes the checks of [signReverseSwapClaim]
    settles the invoice exactly when the status of the swap is not
    [InvoiceSettled].  A settled swap is signed for on the state that has
    only the preimage written; for another one the nursery settles first,
    and when that fails the claim fails with its error and nothing is
    signed.  An id that has no reverse swap fails with [SWAP_NOT_FOUND]
    and writes nothing. *)
Theorem signReverseSwapClaim_settles_before_signing
    (w : World Nursery) (swapId : string)
    (preimage theirNonce rawTransaction : Buffer) (index : number)
    (swap : ReverseSwap) :
  reverseSwaps w !! swapId = Some swap ->
  r_version swap = Taproot ->
  r_status swap ∈ [TransactionMempool; TransactionConfirmed; InvoiceSettled] ->
  getHexString (sha256 preimage) = r_preimageHash swap ->
  let w1 :=
    {| swaps := swaps w;
       reverseSwaps :=
         <[r_id swap := withPreimage getHexString swap preimage]>
           (reverseSwaps w);
       nursery := nursery w |} in
  let chain :=
    getChainCurrency (splitPairId (r_pair swap)).1
      (splitPairId (r_pair swap)).2 (r_orderSide swap) true in
  let sign :=
    bindR (deserializeSwapTree (r_redeemScript swap))
      (fun swapTree =>
         createPartialSignature (currencies !! chain) (wallets !! chain)
           swapTree (r_keyIndex swap) (getHexBuffer (r_claimPublicKey swap))
           theirNonce rawTransaction index) in
  let run :=
    signReverseSwapClaim swapId preimage theirNonce rawTransaction index w in
  (r_status swap = InvoiceSettled -> run = (sign, w1))
  /\ (r_status swap <> InvoiceSettled ->
      (forall e w2,
          settleReverseSwapInvoice swap preimage w1 = (Throw e, w2) ->
          run = (Throw e, w2))
      /\ (forall w2,
             settleReverseSwapInvoice swap preimage w1 = (Ok tt, w2) ->
             run = (sign, w2)))
  /\ (forall other,
         reverseSwaps w !! other = None ->
         signReverseSwapClaim other preimage theirNonce rawTransaction index w
         = (Throw (SWAP_NOT_FOUND other), w)).
Proof using Type.
  clear getLightningCurrency.
  intros Hswap Hversion Hstatus Hvalid w1 chain sign run.
  assert (Hrun : run
                 = signClaimLocked splitPairId getChainCurrency getHexBuffer
                     currencies wallets deserializeSwapTree
                     createPartialSignature settleReverseSwapInvoice swap
                     preimage theirNonce rawTransaction index w1).
  { subst run.
    rewrite (signReverseSwapClaim_run splitPairId getChainCurrency
               getHexBuffer getHexString sha256 currencies wallets
               deserializeSwapTree createPartialSignature
               settleReverseSwapInvoice w swapId preimage theirNonce
               rawTransaction index swap Hswap).
    rewrite Hversion.
    assert (Hinc : includes
                     [TransactionMempool; TransactionConfirmed; InvoiceSettled]
                     (r_status swap) = true)
      by (apply includes_spec; exact Hstatus).
    rewrite Hinc.
    rewrite bool_decide_eq_false_2 by (intros Hn; apply Hn; reflexivity).
    cbn [orb negb]. unfold isPreimageValid. rewrite Hvalid, String.eqb_refl.
    reflexivity. }
  rewrite Hrun. unfold signClaimLocked.
  unfold mbind, M_bind, mret, M_ret, bindM, retM, liftR.
  subst sign chain.
  destruct (splitPairId (r_pair swap)) as [b q]. cbn [fst snd].
  repeat match goal with |- _ /\ _ => split end.
  - intros Hs. rewrite bool_decide_eq_false_2 by (intros Hn; contradiction).
    unfold bindR.
    destruct (deserializeSwapTree (r_redeemScript swap)); reflexivity.
  - intros Hne. rewrite bool_decide_eq_true_2 by assumption. split.
    + intros e w2 Hsettle. rewrite Hsettle. reflexivity.
    + intros w2 Hsettle. rewrite Hsettle. unfold bindR.
      destruct (deserializeSwapTree (r_redeemScript swap)); reflexivity.
  - intros other Hnone. unfold MusigSigner.signReverseSwapClaim.
    unfold mbind, M_bind, bindM, getsM. rewrite Hnone. reflexivity.
Qed.

End SignerRuns.

(** The reverse swap of the examples, whose lockup is in the mempool, with
    the right preimage: the nursery settles, then the claim is signed. *)
Lemma signReverseSwapClaim_settles_before_signing_witness :
  exists sig w2,
    Demo.signReverseSwapClaim "rev1" (Demo.getHexBuffer "ab") [] [] 0%Q
      Demo.signerWorld
    = (sig, w2)
    /\ MusigSigner.nursery w2 = ["rev1"%string].
Proof.
  destruct (signReverseSwapClaim_settles_before_signing Demo.splitPairId
              Demo.getChainCurrency Demo.getHexBuffer Demo.getHexString
              Demo.digest (Demo.currencies None (Throw TypeError))
              Demo.signerWallets Demo.deserializeSwapTree
              Demo.createPartialSignature Demo.settleReverseSwapInvoice
              Demo.signerWorld "rev1" (Demo.getHexBuffer "ab") [] [] 0%Q
              Demo.mempoolReverseSwap)
    as (_ & H & _).
  - vm_compute. reflexivity.
  - reflexivity.
  - set_solver.
  - vm_compute. reflexivity.
  - destruct H as [_ H]; [discriminate |].
    eexists. eexists. split; [apply H; vm_compute; reflexivity |].
    reflexivity.
Defined.

(** ** Service: init *)

Section InitRuns.

Import Service.

Context (getPairId : Types.PairConfig -> string).
Context (currencies : gmap string Currency).
Context {Providers : Type}.
Context (timeoutDeltaProvider_init feeProvider_init rateProvider_init :
           list Types.PairConfig -> M Providers unit).

Local Abbreviation addConfigPairs :=
  (addConfigPairs getPairId currencies (Providers := Providers)).
Local Abbreviation init :=
  (init getPairId currencies timeoutDeltaProvider_init feeProvider_init
     rateProvider_init).

Local Abbreviation knownCurrencies := (knownCurrencies currencies).
Local Abbreviation missingRows := (missingRows getPairId).

Lemma missingRows_cons (ids : list string) (p : Types.PairConfig)
    (ps : list Types.PairConfig) :
  missingRows ids (p :: ps)
  = (if bool_decide (getPairId p ∈ ids) then []
     else [{| pr_id := getPairId p; pr_config := p |}])
    ++ missingRows ids ps.
Proof.
  unfold missingRows. rewrite filter_cons.
  destruct (decide (getPairId p ∉ ids)) as [Hn | Hn].
  - rewrite bool_decide_eq_false_2 by exact Hn. reflexivity.
  - rewrite bool_decide_eq_true_2; [reflexivity |].
    destruct (decide (getPairId p ∈ ids)); tauto.
Qed.

Lemma addConfigPairs_ok (ids : list string) (ps : list Types.PairConfig)
    (w : InitWorld Providers) :
  Forall knownCurrencies ps ->
  addConfigPairs (list_to_set ids) ps w
  = (Ok tt,
     {| pairRepository := pairRepository w ++ missingRows ids ps;
        providers := providers w |}).
Proof.
  revert w. induction ps as [| p ps IH]; intros w Hall.
  - cbn. unfold missingRows. cbn. rewrite app_nil_r. destruct w; reflexivity.
  - apply Forall_cons in Hall as [[Hb Hq] Hrest].
    cbn [Service.addConfigPairs].
    unfold mbind, M_bind, mret, M_ret, bindM, liftR, checkCurrency, retM.
    rewrite (bool_decide_eq_true_2 _ Hb), (bool_decide_eq_true_2 _ Hq).
    rewrite missingRows_cons.
    rewrite (bool_decide_ext (getPairId p ∈ (list_to_set ids : gset string))
               (getPairId p ∈ ids)) by apply elem_of_list_to_set.
    destruct (bool_decide (getPairId p ∈ ids)).
    + rewrite (IH w Hrest). reflexivity.
    + unfold addPair, modifyM. rewrite (IH _ Hrest). cbn.
      rewrite <- app_assoc. reflexivity.
Qed.

Lemma addConfigPairs_unknown (ids : list string)
    (pre post : list Types.PairConfig) (p : Types.PairConfig)
    (w : InitWorld Providers) :
  Forall knownCurrencies pre ->
  ~ knownCurrencies p ->
  addConfigPairs (list_to_set ids) (pre ++ p :: post) w
  = (Throw (CURRENCY_NOT_FOUND
              (if bool_decide (is_Some (currencies !! Types.base p))
               then Types.quote p else Types.base p)),
     {| pairRepository := pairRepository w ++ missingRows ids pre;
        providers := providers w |}).
Proof.
  revert w. induction pre as [| q pre IH]; intros w Hall Hp.
  - cbn [app Service.addConfigPairs].
    unfold mbind, M_bind, mret, M_ret, bindM, liftR, checkCurrency, retM.
    unfold missingRows. cbn. rewrite app_nil_r.
    destruct (bool_decide (is_Some (currencies !! Types.base p))) eqn:Eb.
    + apply bool_decide_eq_true in Eb.
      rewrite bool_decide_eq_false_2; [destruct w; reflexivity |].
      intros Hq. apply Hp. split; assumption.
    + destruct w; reflexivity.
  - apply Forall_cons in Hall as [[Hb Hq] Hrest].
    cbn [app Service.addConfigPairs].
    unfold mbind, M_bind, mret, M_ret, bindM, liftR, checkCurrency, retM.
    rewrite (bool_decide_eq_true_2 _ Hb), (bool_decide_eq_true_2 _ Hq).
    rewrite missingRows_cons.
    rewrite (bool_decide_ext (getPairId q ∈ (list_to_set ids : gset string))
               (getPairId q ∈ ids)) by apply elem_of_list_to_set.
    destruct (bool_decide (getPairId q ∈ ids)).
    + rewrite (IH w Hrest Hp). reflexivity.
    + unfold addPair, modifyM. rewrite (IH _ Hrest Hp). cbn.
      rewrite <- app_assoc. reflexivity.
Qed.

(** X18.  When the currencies of every configured pair are known, [init]
    adds to the database a row for each configured pair whose id was not
    in it when [init] started, in the order of the list, and nothing
    else: rows are neither removed nor changed, and a pair that was there
    is not added again.  After that every configured pair is in the
    database, whatever the providers answer; the providers are
    initialized in the order timeout deltas, fees, rates, and the result
    of [init] is theirs. *)
Theorem init_adds_the_missing_pairs
    (configPairs : list Types.PairConfig) (w : InitWorld Providers) :
  Forall knownCurrencies configPairs ->
  let run := init configPairs w in
  let ids := map pr_id (pairRepository w) in
  let inits :=
    bindM (timeoutDeltaProvider_init configPairs)
      (fun _ => bindM (feeProvider_init configPairs)
                  (fun _ => rateProvider_init configPairs)) in
  pairRepository run.2 = pairRepository w ++ missingRows ids configPairs
  /\ Forall (fun p => getPairId p ∈ map pr_id (pairRepository run.2))
            configPairs
  /\ run.1 = (inits (providers w)).1
  /\ providers run.2 = (inits (providers w)).2.
Proof.
  intros Hall run ids inits.
  assert (Hrun : run
                 = ((inits (providers w)).1,
                    {| pairRepository :=
                         pairRepository w ++ missingRows ids configPairs;
                       providers := (inits (providers w)).2 |})).
  { subst run inits ids. unfold Service.init.
    unfold mbind, M_bind, bindM, getsM.
    rewrite (addConfigPairs_ok (map pr_id (pairRepository w)) configPairs w
               Hall).
    unfold onProviders. cbn.
    destruct (timeoutDeltaProvider_init configPairs (providers w))
      as [[[] | e] p1]; cbn; [| reflexivity].
    destruct (feeProvider_init configPairs p1) as [[[] | e] p2]; cbn;
      [| reflexivity].
    destruct (rateProvider_init configPairs p2) as [r p3]; reflexivity. }
  rewrite Hrun. cbn [fst snd pairRepository providers].
  repeat match goal with |- _ /\ _ => split end; try reflexivity.
  rewrite map_app. apply Forall_forall. intros p Hp.
  apply elem_of_app.
  destruct (decide (getPairId p ∈ ids)) as [Hin | Hnin]; [left; exact Hin |].
  right. unfold missingRows. rewrite map_map. cbn.
  apply list_elem_of_fmap. exists p. split; [reflexivity |].
  apply list_elem_of_filter. split; assumption.
Qed.

(** X19.  [init] stops at the first configured pair that has a currency
    the service does not know, with [CURRENCY_NOT_FOUND] of its base or,
    when the base is known, of its quote.  No provider is initialized;
    the rows of the pairs before it that were missing have been added
    and stay. *)
Theorem init_stops_at_unknown_currency
    (pre post : list Types.PairConfig) (p : Types.PairConfig)
    (w : InitWorld Providers) :
  Forall knownCurrencies pre ->
  ~ knownCurrencies p ->
  init (pre ++ p :: post) w
  = (Throw (CURRENCY_NOT_FOUND
              (if bool_decide (is_Some (currencies !! Types.base p))
               then Types.quote p else Types.base p)),
     {| pairRepository :=
          pairRepository w ++ missingRows (map pr_id (pairRepository w)) pre;
        providers := providers w |}).
Proof.
  intros Hall Hp. unfold Service.init.
  unfold mbind, M_bind. unfold bindM at 1. unfold getsM.
  unfold bindM at 1.
  rewrite (addConfigPairs_unknown (map pr_id (pairRepository w)) pre post p w
             Hall Hp).
  reflexivity.
Qed.

End InitRuns.

(** A service that knows BTC only, with an empty database and providers
    without state: BTC/BTC is added. *)
Lemma init_adds_the_missing_pairs_witness :
  let run :=
    Service.init Demo.getPairId (Demo.currencies None (Throw TypeError))
      (fun _ => mret tt) (fun _ => mret tt) (fun _ => mret tt)
      [Demo.btcPair None]
      {| Service.pairRepository := []; Service.providers := tt |} in
  Service.pairRepository run.2
  = [] ++ missingRows Demo.getPairId [] [Demo.btcPair None]
  /\ run.1 = Ok tt.
Proof.
  intros run.
  destruct (init_adds_the_missing_pairs Demo.getPairId
              (Demo.currencies None (Throw TypeError))
              (fun _ => mret tt) (fun _ => mret tt) (fun _ => mret tt)
              [Demo.btcPair None]
              {| Service.pairRepository := []; Service.providers := tt |})
    as (Hrepo & _ & Hres & _).
  - repeat constructor; eexists; vm_compute; reflexivity.
  - split; [exact Hrepo | exact Hres].
Defined.

(** The same service with BTC/BTC and LTC/BTC configured: LTC is not
    known, and BTC/BTC has been added. *)
Lemma init_stops_at_unknown_currency_witness :
  Service.init Demo.getPairId (Demo.currencies None (Throw TypeError))
    (fun _ => mret tt) (fun _ => mret tt) (fun _ => mret tt)
    ([Demo.btcPair None] ++ Demo.ltcPair None :: [])
    {| Service.pairRepository := []; Service.providers := tt |}
  = (Throw (CURRENCY_NOT_FOUND "LTC"),
     {| Service.pairRepository :=
          [{| Service.pr_id := "BTC/BTC";
              Service.pr_config := Demo.btcPair None |}];
        Service.providers := tt |}).
Proof.
  etransitivity.
  - apply (init_stops_at_unknown_currency Demo.getPairId
             (Demo.currencies None (Throw TypeError))
             (fun _ => mret tt) (fun _ => mret tt) (fun _ => mret tt)
             [Demo.btcPair None] [] (Demo.ltcPair None)
             {| Service.pairRepository := []; Service.providers := tt |}).
    + repeat constructor; eexists; vm_compute; reflexivity.
    + intros [[x Hx] _]. vm_compute in Hx. discriminate Hx.
  - vm_compute. reflexivity.
Defined.

(** ** Service: chain to chain swaps *)

(** A step of a creation that failed before the swap manager was called. *)
Ltac chain_creation_failed H :=
  injection H as <- <-; cbn;
  repeat match goal with |- _ /\ _ => split end;
  first [ reflexivity
        | let Hn := fresh in intros Hn; exfalso; apply Hn; assumption
        | intros ? ?; split; [reflexivity | left; reflexivity]
        | intros ? Hok; discriminate Hok ].

Section ChainRuns.

Import Js ChainToChain.
Local Open Scope Q_scope.

Context (splitPairId : string -> string * string).
Context (getSendingReceivingCurrency :
           string -> string -> OrderSide -> string * string).
Context (getRate : number -> OrderSide -> SwapType -> number).
Context (getSwapMemo : string -> SwapType -> string).
Context (encodeBip21 : string -> string -> number -> string -> string).
Context (getHexString : Buffer -> string).
Context (pairs : gmap string Service.PairType).
Context (rateProvider_acceptZeroConf : string -> number -> bool).
Context (feeProvider_getFees :
           string -> number -> OrderSide -> number -> SwapType ->
           Res Service.Fees).
Context (timeoutDeltaProvider_getTimeouts : string -> Res Timeouts).
Context (wallets : gmap string Wallet).
Context (swapManager_createChainToChainSwap : CreateArgs -> Res SwapDetails).
Context (idSource : nat -> string).

Local Abbreviation createChainToChainSwap :=
  (createChainToChainSwap splitPairId getSendingReceivingCurrency getRate
     getSwapMemo encodeBip21 getHexString pairs rateProvider_acceptZeroConf
     feeProvider_getFees timeoutDeltaProvider_getTimeouts wallets
     swapManager_createChainToChainSwap idSource).

(** What a creation that returns went through. *)
Lemma createChainToChainSwap_returned
    (w w' : World) (pairId orderSide : string) (amount : number)
    (preimageHash claimPublicKey refundPublicKey : Buffer) (r : Created) :
  createChainToChainSwap pairId orderSide amount preimageHash claimPublicKey
    refundPublicKey w = (Returned r, w') ->
  length preimageHash = 32%nat
  /\ getChainToChainSwap (getHexString preimageHash) w = None
  /\ exists b q p side timeouts fees wallet balance d,
       Service.getPair splitPairId pairs pairId = Ok (b, q, p)
       /\ Service.getOrderSide orderSide = Ok side
       /\ timeoutDeltaProvider_getTimeouts pairId = Ok timeouts
       /\ let rate := getRate (Service.rate p) side ChainToChain in
          let sending := (getSendingReceivingCurrency b q side).1 in
          let receiving := (getSendingReceivingCurrency b q side).2 in
          let expectedAmount :=
            Math_ceil (amount * rate
                       + (Service.baseFee fees + Service.percentageFee fees)) in
          let zeroConf :=
            rateProvider_acceptZeroConf receiving expectedAmount in
          let args :=
            {| a_id := idSource (idsDrawn w); a_base := b; a_quote := q;
               a_side := side; a_amount := amount;
               a_expectedAmount := expectedAmount;
               a_preimageHash := preimageHash;
               a_claimPublicKey := claimPublicKey;
               a_refundPublicKey := refundPublicKey;
               a_baseTimeout := t_base timeouts;
               a_quoteTimeout := t_quote timeouts;
               a_acceptZeroConf := zeroConf |} in
          Service.verifyAmount splitPairId pairs pairId rate amount side
            ChainToChain = Ok tt
          /\ feeProvider_getFees pairId rate side amount ChainToChain = Ok fees
          /\ wallets !! sending = Some wallet
          /\ getBalance wallet = Ok balance
          /\ Qle_bool (totalBalance balance) amount = false
          /\ swapManager_createChainToChainSwap args = Ok d
          /\ w' = {| chainToChainSwapRepository :=
                       chainToChainSwapRepository w
                       ++ [{| id := idSource (idsDrawn w);
                              acceptZeroConf := zeroConf;
                              sendingKeyIndex := d_sendingKeyIndex d;
                              sendingLockupAddress := d_sendingLockupAddress d;
                              sendingTimeoutBlockHeight :=
                                d_sendingTimeoutBlockHeight d;
                              receivingKeyIndex := d_receivingKeyIndex d;
                              receivingLockupAddress :=
                                d_receivingLockupAddress d;
                              receivingTimeoutBlockHeight :=
                                d_receivingTimeoutBlockHeight d;
                              pair := pairId; orderSide := side;
                              fee := Service.percentageFee fees;
                              preimageHash := getHexString preimageHash;
                              status := TransactionWaiting;
                              sendingAmount := amount;
                              sendingRedeemScript :=
                                getHexString (d_sendingRedeemScript d);
                              receivingAmount := expectedAmount;
                              receivingRedeemScript :=
                                getHexString (d_receivingRedeemScript d) |}];
                     managerCalls := managerCalls w ++ [args];
                     idsDrawn := S (idsDrawn w) |}
          /\ r = {| c_id := idSource (idsDrawn w);
                    c_acceptZeroConf := zeroConf;
                    sendingDetails :=
                      {| s_expectedAmount := expectedAmount;
                         s_lockupAddress := d_receivingLockupAddress d;
                         s_timeoutBlockHeight :=
                           d_receivingTimeoutBlockHeight d;
                         s_redeemScript :=
                           getHexString (d_receivingRedeemScript d);
                         s_bip21 :=
                           encodeBip21 receiving (d_receivingLockupAddress d)
                             expectedAmount
                             (getSwapMemo sending ChainToChain) |};
                    receivingDetails :=
                      {| v_timeoutBlockHeight := d_sendingTimeoutBlockHeight d;
                         v_redeemScript :=
                           getHexString (d_sendingRedeemScript d) |} |}.
Proof.
  intros H. unfold ChainToChain.createChainToChainSwap in H.
  destruct (length preimageHash =? 32)%nat eqn:Hlen; cbn [negb] in H;
    [| discriminate H].
  apply Nat.eqb_eq in Hlen.
  unfold mbind, C_bind, mret, C_ret, bindC, getsC, liftC, failC, generateId,
    callManager, addChainToChainSwap, modifyC, retC in H.
  destruct (getChainToChainSwap (getHexString preimageHash) w) eqn:Hdb;
    [discriminate H |].
  destruct (Service.getPair splitPairId pairs pairId) as [[[b q] p] | e]
    eqn:Hpair; [| discriminate H].
  destruct (Service.getOrderSide orderSide) as [side | e] eqn:Hside;
    [| discriminate H].
  destruct (timeoutDeltaProvider_getTimeouts pairId) as [timeouts | e]
    eqn:Ht; [| discriminate H].
  destruct (getSendingReceivingCurrency b q side) as [sending receiving]
    eqn:Hsr.
  destruct (Service.verifyAmount splitPairId pairs pairId _ amount side
              ChainToChain) as [[] | e] eqn:Hverify; [| discriminate H].
  destruct (feeProvider_getFees pairId _ side amount ChainToChain)
    as [fees | e] eqn:Hfees; [| discriminate H].
  destruct (wallets !! sending) as [wallet |] eqn:Hwallet;
    [| discriminate H]. cbn [deref] in H.
  destruct (getBalance wallet) as [balance | e] eqn:Hbal; [| discriminate H].
  destruct (Qle_bool (totalBalance balance) amount) eqn:Hle;
    [discriminate H |].
  cbn in H.
  destruct (swapManager_createChainToChainSwap _) as [d | e] eqn:Hm;
    [| discriminate H].
  injection H as <- <-.
  split; [exact Hlen |]. split; [reflexivity |].
  exists b, q, p, side, timeouts, fees, wallet, balance, d.
  rewrite Hsr. cbn [fst snd].
  repeat match goal with |- _ /\ _ => split end;
    first [reflexivity | assumption].
Qed.

(** X20.  [createChainToChainSwap] fails with [INVALID_PREIMAGE_HASH],
    before anything else, for a preimage hash that is not of 32 bytes.  A
    creation that fails leaves the rows as they were: either the swap
    manager was not called, or it was called once and the error is its
    own.  A creation that returns has drawn one id, called the swap
    manager once and added one row of status [TransactionWaiting]; row,
    call and result carry that id; the row has the hash hex-encoded, the
    amount as the sending amount and the expected amount as the receiving
    amount; and the sending details returned are the receiving lockup of
    the row, the receiving details its sending lockup. *)
Theorem createChainToChainSwap_writes_only_on_success
    (w : World) (pairId orderSide : string) (amount : number)
    (preimageHash claimPublicKey refundPublicKey : Buffer) :
  let run :=
    createChainToChainSwap pairId orderSide amount preimageHash
      claimPublicKey refundPublicKey w in
  (length preimageHash <> 32%nat -> run = (Failed INVALID_PREIMAGE_HASH, w))
  /\ (forall f,
         run.1 = Failed f ->
         chainToChainSwapRepository run.2 = chainToChainSwapRepository w
         /\ (managerCalls run.2 = managerCalls w
             \/ exists args e,
                  managerCalls run.2 = managerCalls w ++ [args]
                  /\ swapManager_createChainToChainSwap args = Throw e
                  /\ f = Thrown e))
  /\ (forall r,
         run.1 = Returned r ->
         length preimageHash = 32%nat
         /\ idsDrawn run.2 = S (idsDrawn w)
         /\ c_id r = idSource (idsDrawn w)
         /\ exists row args,
              chainToChainSwapRepository run.2
              = chainToChainSwapRepository w ++ [row]
              /\ managerCalls run.2 = managerCalls w ++ [args]
              /\ id row = c_id r
              /\ a_id args = c_id r
              /\ pair row = pairId
              /\ status row = TransactionWaiting
              /\ ChainToChain.preimageHash row = getHexString preimageHash
              /\ a_preimageHash args = preimageHash
              /\ sendingAmount row = amount
              /\ a_amount args = amount
              /\ receivingAmount row = s_expectedAmount (sendingDetails r)
              /\ a_expectedAmount args = s_expectedAmount (sendingDetails r)
              /\ acceptZeroConf row = c_acceptZeroConf r
              /\ s_lockupAddress (sendingDetails r)
                 = receivingLockupAddress row
              /\ s_timeoutBlockHeight (sendingDetails r)
                 = receivingTimeoutBlockHeight row
              /\ s_redeemScript (sendingDetails r) = receivingRedeemScript row
              /\ v_timeoutBlockHeight (receivingDetails r)
                 = sendingTimeoutBlockHeight row
              /\ v_redeemScript (receivingDetails r)
                 = sendingRedeemScript row).
Proof.
  intros run. destruct run as [res w'] eqn:H. subst run. cbn [fst snd].
  destruct res as [r | f].
  - apply createChainToChainSwap_returned in H
      as (Hlen & _ & b & q & p & side & timeouts & fees & wallet & balance
          & d & _ & _ & _ & H).
    cbn zeta in H. destruct H as (_ & _ & _ & _ & _ & _ & -> & ->).
    split; [intros Hn; contradiction |].
    split; [intros f Hf; discriminate Hf |].
    intros r Hr. injection Hr as <-. cbn.
    split; [exact Hlen |]. do 2 (split; [reflexivity |]).
    eexists. eexists.
    repeat match goal with |- _ /\ _ => split end; reflexivity.
  - unfold ChainToChain.createChainToChainSwap in H.
    destruct (length preimageHash =? 32)%nat eqn:Hlen; cbn [negb] in H.
    2:{ injection H as <- <-. cbn.
        repeat match goal with |- _ /\ _ => split end.
        - reflexivity.
        - intros f' _. split; [reflexivity | left; reflexivity].
        - intros r Hr. discriminate Hr. }
    apply Nat.eqb_eq in Hlen.
    unfold mbind, C_bind, mret, C_ret, bindC, getsC, liftC, failC,
      generateId, callManager, addChainToChainSwap, modifyC, retC in H.
    destruct (getChainToChainSwap (getHexString preimageHash) w);
      [chain_creation_failed H |].
    destruct (Service.getPair splitPairId pairs pairId) as [[[b q] p] | e];
      [| chain_creation_failed H].
    destruct (Service.getOrderSide orderSide) as [side | e];
      [| chain_creation_failed H].
    destruct (timeoutDeltaProvider_getTimeouts pairId) as [timeouts | e];
      [| chain_creation_failed H].
    destruct (getSendingReceivingCurrency b q side) as [sending receiving].
    destruct (Service.verifyAmount splitPairId pairs pairId _ amount side
                ChainToChain) as [[] | e]; [| chain_creation_failed H].
    destruct (feeProvider_getFees pairId _ side amount ChainToChain)
      as [fees | e]; [| chain_creation_failed H].
    destruct (wallets !! sending) as [wallet |]; cbn [deref] in H;
      [| chain_creation_failed H].
    destruct (getBalance wallet) as [balance | e];
      [| chain_creation_failed H].
    destruct (Qle_bool (totalBalance balance) amount);
      [chain_creation_failed H |].
    cbn in H.
    destruct (swapManager_createChainToChainSwap _) as [d | e] eqn:Hm;
      [discriminate H |].
    injection H as <- <-. cbn.
    repeat match goal with |- _ /\ _ => split end.
    + intros Hn. contradiction.
    + intros f' Hf. injection Hf as <-. split; [reflexivity |].
      right. eexists. eexists. split; [reflexivity |].
      split; [exact Hm | reflexivity].
    + intros r Hr. discriminate Hr.
Qed.


(** X22.  A preimage hash is used by one chain to chain swap only.  Where
    [createChainToChainSwap] returns, no swap of that hash was there
    before; every later creation with the same hash, for whatever pair,
    side, amount and keys, fails with [SWAP_WITH_PREIMAGE_EXISTS] and
    writes nothing; and when the hashes of the rows were pairwise
    different before, they still are. *)
Theorem createChainToChainSwap_preimage_hash_is_used_once
    (w w' : World) (pairId orderSide : string) (amount : number)
    (preimageHash claimPublicKey refundPublicKey : Buffer) (r : Created) :
  createChainToChainSwap pairId orderSide amount preimageHash claimPublicKey
    refundPublicKey w = (Returned r, w') ->
  getChainToChainSwap (getHexString preimageHash) w = None
  /\ (forall pairId' orderSide' amount' claimPublicKey' refundPublicKey',
         createChainToChainSwap pairId' orderSide' amount' preimageHash
           claimPublicKey' refundPublicKey' w'
         = (Failed SWAP_WITH_PREIMAGE_EXISTS, w'))
  /\ (NoDup (map ChainToChain.preimageHash (chainToChainSwapRepository w)) ->
      NoDup (map ChainToChain.preimageHash (chainToChainSwapRepository w'))).
Proof.
  intros H.
  apply createChainToChainSwap_returned in H
    as (Hlen & Hnone & b & q & p & side & timeouts & fees & wallet & balance
        & d & _ & _ & _ & H).
  cbn zeta in H. destruct H as (_ & _ & _ & _ & _ & _ & -> & _).
  split; [exact Hnone |]. split.
  - intros pairId' orderSide' amount' claimPublicKey' refundPublicKey'.
    unfold ChainToChain.createChainToChainSwap.
    rewrite Hlen. cbn [Nat.eqb negb].
    unfold mbind, C_bind, bindC at 1. unfold getsC at 1.
    unfold getChainToChainSwap. cbn [chainToChainSwapRepository].
    match goal with
    | |- context [find ?f (?l ++ [?x])] =>
        destruct (find_app_last f l x) as (y & -> & _);
          [apply String.eqb_refl | reflexivity]
    end.
  - intros Hnd. cbn [chainToChainSwapRepository]. rewrite map_app.
    apply NoDup_app.
    split; [exact Hnd |]. split; [| cbn; apply NoDup_singleton].
    intros x Hx Hx'. cbn in Hx'. apply list_elem_of_singleton in Hx'.
    subst x. apply list_elem_of_fmap in Hx as (row0 & Hrow0 & Hin).
    apply list_elem_of_In in Hin.
    pose proof (find_none _ _ Hnone row0 Hin) as Hf. cbn in Hf.
    apply String.eqb_neq in Hf. congruence.
Qed.

End ChainRuns.


(** The same swap, and a second creation with its preimage hash. *)
Lemma createChainToChainSwap_preimage_hash_witness :
  exists r w',
    ChainDemo.createChainToChainSwap "BTC/BTC" "buy" 50000%Q ChainDemo.hash
      [] [] ChainDemo.world = (ChainToChain.Returned r, w')
    /\ ChainDemo.createChainToChainSwap "LTC/BTC" "sell" 20000%Q
         ChainDemo.hash [] [] w'
       = (ChainToChain.Failed ChainToChain.SWAP_WITH_PREIMAGE_EXISTS, w').
Proof.
  destruct (ChainDemo.createChainToChainSwap "BTC/BTC" "buy" 50000%Q
              ChainDemo.hash [] [] ChainDemo.world)
    as [[r | f] w'] eqn:Erun; [| vm_compute in Erun; discriminate Erun].
  exists r, w'. split; [reflexivity |].
  destruct (createChainToChainSwap_preimage_hash_is_used_once
              Demo.splitPairId ChainDemo.getSendingReceivingCurrency
              Demo.getRate Demo.getSwapMemo Demo.encodeBip21
              Demo.getHexString Demo.pairs Demo.acceptZeroConf Demo.getFees
              ChainDemo.getTimeouts ChainDemo.wallets ChainDemo.managerCreate
              Demo.idSource ChainDemo.world w' "BTC/BTC" "buy" 50000%Q
              ChainDemo.hash [] [] r Erun) as (_ & H & _).
  apply H.
Defined.

(** A balance that equals the amount is not enough: the wallet of LTC
    holds exactly 100 000. *)
Example createChainToChainSwap_balance_equal_to_amount :
  ChainDemo.createChainToChainSwap "LTC/BTC" "sell" 100000%Q ChainDemo.hash
    [] [] ChainDemo.world
  = (ChainToChain.Failed (ChainToChain.NOT_ENOUGH_FUNDS 100000%Q),
     ChainDemo.world).
Proof. vm_compute. reflexivity. Qed.

(** ** Service: getFeeEstimation *)

Section FeeEstimationRuns.

Import Js Service.

Context (currencies : list (string * Currency)).
Context (chainClient_estimateFee : Currency -> number -> Res number).

Local Abbreviation estimateFees := (estimateFees chainClient_estimateFee).
Local Abbreviation getCurrency := (getCurrency currencies).
Local Abbreviation getFeeEstimation :=
  (getFeeEstimation currencies chainClient_estimateFee).

Lemma find_entry (entries : list (string * Currency)) (symbol : string)
    (currency : Currency) :
  NoDup (map fst entries) ->
  (symbol, currency) ∈ entries ->
  find (fun entry => String.eqb entry.1 symbol) entries
  = Some (symbol, currency).
Proof.
  induction entries as [| [s c] entries IH]; intros Hnd Hin.
  - apply elem_of_nil in Hin. contradiction.
  - cbn in Hnd. apply NoDup_cons in Hnd as [Hs Hnd]. cbn.
    apply elem_of_cons in Hin as [Heq | Hin].
    + injection Heq as <- <-. rewrite String.eqb_refl. reflexivity.
    + destruct (String.eqb s symbol) eqn:Es.
      * apply String.eqb_eq in Es. subst s. exfalso. apply Hs.
        apply list_elem_of_fmap. exists (symbol, currency). auto.
      * apply IH; assumption.
Qed.

Lemma find_no_entry (entries : list (string * Currency)) (symbol : string) :
  symbol ∉ map fst entries ->
  find (fun entry => String.eqb entry.1 symbol) entries = None.
Proof.
  induction entries as [| [s c] entries IH]; intros Hn; [reflexivity |].
  cbn in *. apply not_elem_of_cons in Hn as [Hne Hn].
  destruct (String.eqb s symbol) eqn:Es.
  - apply String.eqb_eq in Es. congruence.
  - apply IH. exact Hn.
Qed.

(** Where the loop returns, it has set the estimate of each entry and
    left the other keys of the map. *)
Lemma estimateFees_ok (entries : list (string * Currency))
    (numBlocks : number) (acc m : gmap string number) :
  estimateFees entries numBlocks acc = Ok m ->
  (forall symbol,
      symbol ∉ map fst entries -> m !! symbol = acc !! symbol)
  /\ (NoDup (map fst entries) ->
      forall symbol currency,
        (symbol, currency) ∈ entries ->
        exists fee,
          chainClient_estimateFee currency numBlocks = Ok fee
          /\ m !! symbol = Some fee).
Proof.
  revert acc. induction entries as [| [s c] entries IH]; intros acc H.
  - injection H as <-. split; [reflexivity |].
    intros _ symbol currency Hin. apply elem_of_nil in Hin. contradiction.
  - cbn in H.
    destruct (chainClient_estimateFee c numBlocks) as [fee | e] eqn:Efee;
      [| discriminate H].
    cbn in H. destruct (IH _ H) as [Hother Hin]. split.
    + intros symbol Hn. cbn in Hn. apply not_elem_of_cons in Hn as [Hne Hn].
      rewrite (Hother symbol Hn). apply lookup_insert_ne. congruence.
    + intros Hnd symbol currency Hmem. cbn in Hnd.
      apply NoDup_cons in Hnd as [Hs Hnd].
      apply elem_of_cons in Hmem as [Heq | Hmem].
      * injection Heq as -> ->. exists fee. split; [exact Efee |].
        rewrite (Hother s Hs). apply lookup_insert_eq.
      * exact (Hin Hnd symbol currency Hmem).
Qed.

(** Where the loop fails, it is with the error of the first estimate that
    fails. *)
Lemma estimateFees_throw (entries : list (string * Currency))
    (numBlocks : number) (acc : gmap string number) (e : Error) :
  estimateFees entries numBlocks acc = Throw e ->
  exists pre symbol currency post,
    entries = pre ++ (symbol, currency) :: post
    /\ Forall (fun entry =>
                 exists fee,
                   chainClient_estimateFee entry.2 numBlocks = Ok fee) pre
    /\ chainClient_estimateFee currency numBlocks = Throw e.
Proof.
  revert acc. induction entries as [| [s c] entries IH]; intros acc H.
  - discriminate H.
  - cbn in H.
    destruct (chainClient_estimateFee c numBlocks) as [fee | e'] eqn:Efee.
    + cbn in H.
      destruct (IH _ H) as (pre & symbol & currency & post & -> & Hpre & He).
      exists ((s, c) :: pre), symbol, currency, post.
      split; [reflexivity |]. split; [| exact He].
      constructor; [cbn; eauto | exact Hpre].
    + cbn in H. injection H as <-.
      exists [], s, c, entries. split; [reflexivity |].
      split; [constructor | exact Efee].
Qed.

(** X23.  The estimation for all currencies agrees with the estimation
    for one: where [getFeeEstimation] without a symbol returns, its map
    has exactly the symbols of the currencies as keys, and under each
    symbol the fee that [getFeeEstimation] for that symbol alone returns
    as its only entry.  Where it fails, the error is that of the first
    currency in the order of iteration whose estimate fails.  For a
    symbol that no currency has it fails with [CURRENCY_NOT_FOUND]. *)
Theorem getFeeEstimation_all_agrees_with_one (blocks : option number) :
  NoDup (map fst currencies) ->
  let numBlocks := match blocks with None => 2%Q | Some n => n end in
  (forall m,
      getFeeEstimation None blocks = Ok m ->
      (forall symbol, is_Some (m !! symbol) <-> symbol ∈ map fst currencies)
      /\ (forall symbol currency,
             (symbol, currency) ∈ currencies ->
             exists fee,
               chainClient_estimateFee currency numBlocks = Ok fee
               /\ m !! symbol = Some fee
               /\ getFeeEstimation (Some symbol) blocks
                  = Ok (<[symbol := fee]> ∅)))
  /\ (forall e,
         getFeeEstimation None blocks = Throw e ->
         exists pre symbol currency post,
           currencies = pre ++ (symbol, currency) :: post
           /\ Forall (fun entry =>
                        exists fee,
                          chainClient_estimateFee entry.2 numBlocks = Ok fee)
                     pre
           /\ chainClient_estimateFee currency numBlocks = Throw e)
  /\ (forall symbol,
         symbol ∉ map fst currencies ->
         getFeeEstimation (Some symbol) blocks
         = Throw (CURRENCY_NOT_FOUND symbol)).
Proof.
  intros Hnd numBlocks. unfold Service.getFeeEstimation. fold numBlocks.
  repeat match goal with |- _ /\ _ => split end.
  - intros m H. destruct (estimateFees_ok _ _ _ _ H) as [Hother Hin].
    split.
    + intros symbol. split.
      * intros Hsome.
        destruct (decide (symbol ∈ map fst currencies)) as [Hi | Hn];
          [exact Hi |].
        rewrite (Hother symbol Hn), lookup_empty in Hsome.
        destruct Hsome as [x Hx]. discriminate Hx.
      * intros Hi. apply list_elem_of_fmap in Hi as ([s c] & -> & Hmem).
        destruct (Hin Hnd s c Hmem) as (fee & _ & Hm). cbn. eauto.
    + intros symbol currency Hmem.
      destruct (Hin Hnd symbol currency Hmem) as (fee & Hfee & Hm).
      exists fee. split; [exact Hfee |]. split; [exact Hm |].
      unfold Service.getCurrency.
      rewrite (find_entry currencies symbol currency Hnd Hmem). cbn.
      rewrite Hfee. reflexivity.
  - intros e H. exact (estimateFees_throw _ _ _ _ H).
  - intros symbol Hn. unfold Service.getCurrency.
    rewrite (find_no_entry currencies symbol Hn). reflexivity.
Qed.

End FeeEstimationRuns.

(** Two currencies whose chain clients estimate 7 and 3 satoshis per
    vbyte. *)
Lemma getFeeEstimation_all_agrees_with_one_witness :
  let ltc :=
    {| symbol := "LTC"; chainClient := Some Demo.chain;
       lndClient := None; clnClient := None |} in
  let currencies :=
    [("BTC"%string, Demo.btc None (Throw TypeError)); ("LTC"%string, ltc)] in
  let estimateFee (currency : Currency) (numBlocks : Js.number) :=
    Ok (if String.eqb (symbol currency) "BTC" then 7%Q else 3%Q) in
  exists m fee,
    Service.getFeeEstimation currencies estimateFee None None = Ok m
    /\ m !! "LTC"%string = Some fee
    /\ Service.getFeeEstimation currencies estimateFee (Some "LTC"%string)
         None
       = Ok (<["LTC"%string := fee]> ∅).
Proof.
  intros ltc currencies estimateFee.
  destruct (Service.getFeeEstimation currencies estimateFee None None)
    as [m | e] eqn:Erun; [| vm_compute in Erun; discriminate Erun].
  destruct (getFeeEstimation_all_agrees_with_one currencies estimateFee None)
    as (Hall & _ & _).
  - apply NoDup_cons. split; [| apply NoDup_singleton].
    intros Hin. apply list_elem_of_singleton in Hin. discriminate Hin.
  - destruct (Hall m Erun) as [_ Hone].
    destruct (Hone "LTC"%string ltc) as (fee & _ & Hm & Hsingle).
    + apply elem_of_cons. right. apply list_elem_of_singleton. reflexivity.
    + exists m, fee. split; [reflexivity |]. split; assumption.
Defined.

(** ** TimeoutDeltaProvider: the deltas held are whole blocks *)

Lemma minutesToBlocks_whole (E : string)
    (splitPairId : string -> string * string) (pairId : string)
    (d : Types.PairTimeoutBlocksDelta)
    (r : TimeoutDeltaProvider.PairTimeoutBlockDeltas) :
  TimeoutDeltaProvider.minutesToBlocks E splitPairId pairId d = Ok r ->
  wholeTable (TimeoutDeltaProvider.base r)
  /\ wholeTable (TimeoutDeltaProvider.quote r).
Proof.
  intros H.
  destruct (minutesToBlocks_spec E splitPairId pairId d)
    as [[[Hb Hq] Eq] | [_ Eq]]; rewrite Eq in H; [| discriminate H].
  injection H as <-. cbn. split; [exact Hb | exact Hq].
Qed.

Lemma init_whole (E : string) (getPairId : Types.PairConfig -> string)
    (splitPairId : string -> string * string) {Others : Type}
    (ps : list Types.PairConfig) (w : TimeoutDeltaProvider.World Others) :
  holdsWholeBlocks w ->
  holdsWholeBlocks (TimeoutDeltaProvider.init E getPairId splitPairId ps w).2.
Proof.
  revert w. induction ps as [| p ps IH]; intros w Hw; [exact Hw |].
  rewrite init_cons, initPair_run.
  destruct (Types.timeoutDelta p) as [d |]; [| exact Hw].
  destruct (TimeoutDeltaProvider.minutesToBlocks E splitPairId (getPairId p)
              (TimeoutDeltaProvider.expandLegacy d)) as [blocks | e] eqn:Eb;
    [| exact Hw].
  assert (Hw1 : holdsWholeBlocks
                  (TimeoutDeltaProvider.setDeltas (getPairId p) blocks w)).
  { unfold holdsWholeBlocks. cbn. apply map_Forall_insert_2; [| exact Hw].
    exact (minutesToBlocks_whole _ _ _ _ _ Eb). }
  specialize (IH _ Hw1).
  destruct (TimeoutDeltaProvider.init E getPairId splitPairId ps _)
    as [[ps' | e] w2]; exact IH.
Qed.

(** X24.  A provider only ever holds whole numbers of blocks.  When every
    table it holds is of whole numbers of at least one block, that is so
    after [setTimeout] and after [init], whether they return or fail; and
    every timeout that [getTimeout] then returns for a query without
    invoice is a whole number of at least one block. *)
Theorem provider_holds_whole_blocks
    (E : string) (paymentMaxParts : Q)
    (getPairId : Types.PairConfig -> string)
    (splitPairId : string -> string * string)
    (getChainCurrency getLightningCurrency :
       string -> string -> OrderSide -> bool -> string)
    {Others : Type} (toml_stringify : Types.ConfigType Others -> string)
    (w : TimeoutDeltaProvider.World Others) :
  holdsWholeBlocks w ->
  (forall pairId d,
      holdsWholeBlocks
        (TimeoutDeltaProvider.setTimeout E getPairId splitPairId
           toml_stringify pairId d w).2)
  /\ (forall ps,
         holdsWholeBlocks
           (TimeoutDeltaProvider.init E getPairId splitPairId ps w).2)
  /\ (forall pairId side isReverse timeout flag,
         TimeoutDeltaProvider.getTimeout E paymentMaxParts splitPairId
           getChainCurrency getLightningCurrency w pairId side isReverse None
         = Ok (timeout, flag) ->
         wholeNumber timeout).
Proof.
  intros Hw. repeat match goal with |- _ /\ _ => split end.
  - intros pairId d. rewrite setTimeout_run.
    destruct (bool_decide _); [| exact Hw].
    destruct (TimeoutDeltaProvider.minutesToBlocks E splitPairId pairId d)
      as [blocks | e] eqn:Eb; [| exact Hw].
    unfold holdsWholeBlocks. cbn. apply map_Forall_insert_2; [| exact Hw].
    exact (minutesToBlocks_whole _ _ _ _ _ Eb).
  - intros ps. apply init_whole. exact Hw.
  - intros pairId side isReverse timeout flag H.
    unfold TimeoutDeltaProvider.getTimeout in H.
    destruct (TimeoutDeltaProvider.timeoutDeltas w !! pairId)
      as [timeouts |] eqn:Ht; [| discriminate H].
    destruct (Hw pairId timeouts Ht) as [(Hb1 & Hb2 & Hb3) (Hq1 & Hq2 & Hq3)].
    destruct isReverse.
    + injection H as <- _. destruct (decide (side = BUY)); assumption.
    + destruct (splitPairId pairId) as [b q]. cbn in H.
      injection H as <- _. destruct (decide (side = BUY)); assumption.
Qed.

(** The example provider, which holds 144 and 288 blocks for BTC/BTC, set
    to deltas of one day. *)
Lemma provider_holds_whole_blocks_witness :
  holdsWholeBlocks
    (TimeoutDeltaProvider.setTimeout "L-BTC" Demo.getPairId Demo.splitPairId
       Demo.stringify "BTC/BTC" Demo.day Demo.provider).2.
Proof.
  apply (provider_holds_whole_blocks "L-BTC" 4%Q Demo.getPairId
           Demo.splitPairId Demo.getChainCurrency Demo.getLightningCurrency
           Demo.stringify Demo.provider).
  unfold holdsWholeBlocks. cbn. apply map_Forall_singleton.
  unfold wholeTable, wholeNumber. cbn.
  repeat match goal with |- _ /\ _ => split end;
    first [ exists 144%Z; split; [lia | reflexivity]
          | exists 288%Z; split; [lia | reflexivity] ].
Defined.
